(** * ColorVM: a shallow embedding of [colorvm.py]

    The interpreter is a single Python script working on module-level
    dictionaries.  The embedding threads one record [vm] holding those
    globals through every function; an uncaught Python exception is a
    [Raise] result, which nothing in the script ever catches.

    The built-in functions are those of CPython on a 64-bit machine
    with its default settings: a C [int] of 32 bits, an index type
    ([ssize_t]) of 64 bits, integers held in digits of 30 bits, and
    the limit of 4300 digits on the conversion between integers and
    decimal text.  The run is one without [--debug].  A line of
    input is a string of characters below U+0100. *)

From Stdlib Require Import ZArith List String Ascii Bool Lia.
Import ListNotations.
Local Open Scope Z_scope.

(** ** Python results *)

Inductive exn : Type :=
| IndexError          (* list index / pop from empty list / image index *)
| ZeroDivisionError   (* [//] and [%] by zero *)
| ValueError          (* [chr] out of range, negative shift count,
                         more than 4300 digits to convert *)
| OverflowError       (* an integer too large for a C [int] or
                         [ssize_t], too many digits in an integer *)
| MemoryError         (* no room for the result of a shift *)
| EOFError.           (* [input()] at end of input *)

Inductive result (A : Type) : Type :=
| Ok (a : A)
| Raise (e : exn).
Arguments Ok {A} a.
Arguments Raise {A} e.

Definition bind {A B : Type} (m : result A) (k : A -> result B) : result B :=
  match m with
  | Ok a => k a
  | Raise e => Raise e
  end.

Notation "x <- m ;; k" := (bind m (fun x => k))
  (at level 61, m at next level, right associativity).
Notation "' p <- m ;; k" := (bind m (fun x => match x with p => k end))
  (at level 61, p pattern, m at next level, right associativity).

(** ** Python lists

    A Python list is a Rocq list in the same order: index 0 first, the
    top of a stack last. *)

Module Py.

Definition len {A : Type} (l : list A) : Z := Z.of_nat (List.length l).

(** [l[i]]: negative indices count from the end. *)
Definition index {A : Type} (l : list A) (i : Z) : result A :=
  let j := if i <? 0 then len l + i else i in
  if (0 <=? j) && (j <? len l) then
    match nth_error l (Z.to_nat j) with
    | Some x => Ok x
    | None => Raise IndexError
    end
  else Raise IndexError.

(** [l.append(x)] *)
Definition append {A : Type} (l : list A) (x : A) : list A := l ++ [x].

(** [l.pop()]: the last element and the list without it. *)
Definition pop {A : Type} (l : list A) : result (A * list A) :=
  match rev l with
  | [] => Raise IndexError
  | x :: t => Ok (x, rev t)
  end.

(** [l.pop(0)] *)
Definition pop0 {A : Type} (l : list A) : result (A * list A) :=
  match l with
  | [] => Raise IndexError
  | x :: t => Ok (x, t)
  end.

(** The range of the index type [ssize_t]. *)
Definition SSIZE_T_MAX : Z := 2 ^ 63 - 1.

Definition is_ssize_t (i : Z) : bool :=
  (- SSIZE_T_MAX - 1 <=? i) && (i <=? SSIZE_T_MAX).

(** [l.insert(i, x)]: a negative index counts from the end, and the
    position is clamped to [0 .. len l].  The index is first
    converted to [ssize_t], which raises [OverflowError] outside that
    type's range.  A list has at most [SSIZE_T_MAX] elements, so an
    index that falls within the list always converts; the test is
    written to say so for lists of any length. *)
Definition insert {A : Type} (l : list A) (i : Z) (x : A)
    : result (list A) :=
  if (- len l <=? i) && (i <=? len l) || is_ssize_t i then
    let j := if i <? 0 then Z.max 0 (len l + i) else Z.min i (len l) in
    Ok (firstn (Z.to_nat j) l ++ x :: skipn (Z.to_nat j) l)
  else Raise OverflowError.

(** [a // b] and [a % b] on integers: floor division, the remainder
    takes the sign of the divisor. *)
Definition floordiv (a b : Z) : result Z :=
  if b =? 0 then Raise ZeroDivisionError else Ok (a / b).

Definition modulo (a b : Z) : result Z :=
  if b =? 0 then Raise ZeroDivisionError else Ok (a mod b).

(** The number of 30-bit digits that hold a nonzero integer. *)
Definition ndigits (a : Z) : Z := Z.log2 (Z.abs a) / 30 + 1.

(** The most digits an integer object can have: the object, with its
    header of 24 bytes and 4 bytes to the digit, must not be larger
    than [SSIZE_T_MAX] bytes. *)
Definition MAX_LONG_DIGITS : Z := (SSIZE_T_MAX - 24) / 4.

(** The most digits for which there can be memory: a process
    addresses 2^47 bytes.  Below this the memory is taken to be
    there, as it is for the result of every other operation. *)
Definition ADDRESSABLE_DIGITS : Z := (2 ^ 47 - 24) / 4.

(** The digits [a << n] allocates for its result: those of [a], one
    for every 30 bits of the shift, and one more if bits remain. *)
Definition lshift_digits (a n : Z) : Z :=
  ndigits a + n / 30 + (if n mod 30 =? 0 then 0 else 1).

(** [a << n].  A negative count is refused; zero shifted is zero
    whatever the count; otherwise the result is allocated before it
    is filled, which fails with [OverflowError] when it has too many
    digits for an integer and with [MemoryError] when it has more
    than can be addressed. *)
Definition lshift (a n : Z) : result Z :=
  if n <? 0 then Raise ValueError
  else if a =? 0 then Ok 0
  else if MAX_LONG_DIGITS <? lshift_digits a n then Raise OverflowError
  else if ADDRESSABLE_DIGITS <? lshift_digits a n then Raise MemoryError
  else Ok (Z.shiftl a n).

(** The range of a C [int]. *)
Definition is_c_int (n : Z) : bool :=
  (- 2 ^ 31 <=? n) && (n <? 2 ^ 31).

(** [chr(n)]: the argument is converted to a C [int], which raises
    [OverflowError] outside that type's range, and is then accepted
    on the Unicode range only. *)
Definition chr (n : Z) : result Z :=
  if (0 <=? n) && (n <=? 0x10FFFF) then Ok n
  else if is_c_int n then Raise ValueError
  else Raise OverflowError.

(** [ch.isascii()] for a one-character string. *)
Definition isascii (cp : Z) : bool := cp <? 128.

(** [ord(ch)] *)
Definition ord (ch : ascii) : Z := Z.of_nat (nat_of_ascii ch).

Definition digit (ch : ascii) : bool :=
  (48 <=? ord ch) && (ord ch <=? 57).

(** [s.isdecimal()]: not empty and every character a decimal digit.
    Of the characters below U+0100 only ['0'] to ['9'] are decimal
    digits (the superscripts and fractions there are not). *)
Fixpoint all_digits (s : string) : bool :=
  match s with
  | EmptyString => true
  | String ch t => digit ch && all_digits t
  end.

Definition isdecimal (s : string) : bool :=
  match s with
  | EmptyString => false
  | _ => all_digits s
  end.

(** [sys.int_info.default_max_str_digits] *)
Definition MAX_STR_DIGITS : Z := 4300.

Fixpoint int_acc (acc : Z) (s : string) : Z :=
  match s with
  | EmptyString => acc
  | String ch t => int_acc (10 * acc + (ord ch - 48)) t
  end.

(** [int(s)] for a string of decimal digits: a string of more than
    4300 digits, leading zeros counted, is refused. *)
Definition int (s : string) : result Z :=
  if Z.of_nat (String.length s) <=? MAX_STR_DIGITS then Ok (int_acc 0 s)
  else Raise ValueError.

(** [f"{n}"] for an integer: the decimal numeral, here kept as the
    number it denotes.  An integer of more than 4300 digits, the sign
    not counted, is refused. *)
Definition format (n : Z) : result Z :=
  if Z.abs n <? 10 ^ MAX_STR_DIGITS then Ok n else Raise ValueError.

End Py.

(** ** Constants of the script *)

Definition V_MAJOR : Z := 1.
Definition V_MINOR : Z := 0.

Inductive tstate : Type :=
| LOADING   (* 1 *)
| RUNNING   (* 2 *)
| AWAIT     (* 3 *)
| HALTED    (* 4 *)
| OVERRUN.  (* 5 *)

Definition tstate_eqb (a b : tstate) : bool :=
  match a, b with
  | LOADING, LOADING | RUNNING, RUNNING | AWAIT, AWAIT
  | HALTED, HALTED | OVERRUN, OVERRUN => true
  | _, _ => false
  end.

(** The colour threads, keys ['r'], ['g'], ['b'] of the dictionaries. *)
Inductive color : Type := R | G | B.

Definition color_eqb (a b : color) : bool :=
  match a, b with
  | R, R | G, G | B, B => true
  | _, _ => false
  end.

Definition colors : list color := [R; G; B].

Definition disasmdict : list (Z * string) :=
  [ (0x80, "add"); (0x84, "sub"); (0x88, "mul"); (0x8C, "div");
    (0x90, "rem"); (0x94, "pop"); (0x98, "swap"); (0x9C, "dup");
    (0xA0, "rot"); (0xA4, "not"); (0xA8, "or"); (0xAC, "and");
    (0xB0, "gt"); (0xB4, "eq"); (0xB8, "lt"); (0xBC, "nop");
    (0xC0, "halt"); (0xC4, "jmpz"); (0xC8, "jmpnz"); (0xCC, "outc");
    (0xD0, "inc"); (0xD4, "outi"); (0xD8, "ini"); (0xDC, "pusha");
    (0xE0, "waita"); (0xE4, "neg"); (0xE8, "shl"); (0xEC, "shr") ]%string.

(** [disasmdict.get(b)] *)
Fixpoint dict_get {V : Type} (d : list (Z * V)) (b : Z) : option V :=
  match d with
  | [] => None
  | (k, v) :: t => if k =? b then Some v else dict_get t b
  end.

(** ** What the script writes *)

Inductive message : Type :=
| Invalid_instruction (byte : Z) (c : color) (ip : Z)
| Thread_deadlock
| Threads_halted
| Invalid_version (major minor : Z)
| Length_is_zero.

Inductive event : Type :=
| Info (m : message)       (* [mesg] *)
| Print_char (cp : Z)      (* [print] of a character, in [outc] *)
| Print_int (n : Z).       (* [print] of a number, in [outi] *)

(** ** The globals *)

Record vm : Type := mk_vm {
  size : Z;
  args_silent : bool;
  colorcode : color -> list Z;
  colorstack : color -> list Z;
  colorstack_a : list Z;               (* [colorstack['a']] *)
  colorstate : color -> tstate;
  colorip : color -> Z;
  colorstat : color -> string -> Z;
  waitstack : list color;
  stdin : list string;                 (* the lines [input()] has yet to read *)
  console : list event                 (* what was written, oldest first *)
}.

Definition upd {A : Type} (f : color -> A) (c : color) (v : A) : color -> A :=
  fun c' => if color_eqb c c' then v else f c'.

Definition set_stack (c : color) (st : list Z) (s : vm) : vm :=
  mk_vm (size s) (args_silent s) (colorcode s) (upd (colorstack s) c st)
        (colorstack_a s) (colorstate s) (colorip s) (colorstat s)
        (waitstack s) (stdin s) (console s).

Definition set_alpha (st : list Z) (s : vm) : vm :=
  mk_vm (size s) (args_silent s) (colorcode s) (colorstack s)
        st (colorstate s) (colorip s) (colorstat s)
        (waitstack s) (stdin s) (console s).

Definition set_state (c : color) (t : tstate) (s : vm) : vm :=
  mk_vm (size s) (args_silent s) (colorcode s) (colorstack s)
        (colorstack_a s) (upd (colorstate s) c t) (colorip s) (colorstat s)
        (waitstack s) (stdin s) (console s).

Definition set_ip (c : color) (i : Z) (s : vm) : vm :=
  mk_vm (size s) (args_silent s) (colorcode s) (colorstack s)
        (colorstack_a s) (colorstate s) (upd (colorip s) c i) (colorstat s)
        (waitstack s) (stdin s) (console s).

Definition set_waitstack (w : list color) (s : vm) : vm :=
  mk_vm (size s) (args_silent s) (colorcode s) (colorstack s)
        (colorstack_a s) (colorstate s) (colorip s) (colorstat s)
        w (stdin s) (console s).

Definition set_stdin (i : list string) (s : vm) : vm :=
  mk_vm (size s) (args_silent s) (colorcode s) (colorstack s)
        (colorstack_a s) (colorstate s) (colorip s) (colorstat s)
        (waitstack s) i (console s).

Definition emit (e : event) (s : vm) : vm :=
  mk_vm (size s) (args_silent s) (colorcode s) (colorstack s)
        (colorstack_a s) (colorstate s) (colorip s) (colorstat s)
        (waitstack s) (stdin s) (console s ++ [e]).

(** [colorstat[c][name] += 1] *)
Definition bump (c : color) (name : string) (s : vm) : vm :=
  mk_vm (size s) (args_silent s) (colorcode s) (colorstack s)
        (colorstack_a s) (colorstate s) (colorip s)
        (upd (colorstat s) c
             (fun k => if String.eqb name k then colorstat s c k + 1
                       else colorstat s c k))
        (waitstack s) (stdin s) (console s).

(** [mesg]: printed unless [--silent]. *)
Definition mesg (m : message) (s : vm) : vm :=
  if args_silent s then s else emit (Info m) s.

(** [input(prompt)]: the next line of standard input. *)
Definition input (s : vm) : result (string * vm) :=
  match stdin s with
  | [] => Raise EOFError
  | l :: t => Ok (l, set_stdin t s)
  end.

(** ** [colorexec]: one instruction of one colour thread *)

(** The shape shared by the two-operand cases: guarded by
    [len(colorstack[c]) >= 2], the first [pop()] is the left operand. *)
Definition binop (c : color) (f : Z -> Z -> result Z) (s : vm) : result vm :=
  let st := colorstack s c in
  if 2 <=? Py.len st then
    '(x, st1) <- Py.pop st ;;
    '(y, st2) <- Py.pop st1 ;;
    v <- f x y ;;
    Ok (set_stack c (Py.append st2 v) s)
  else Ok s.

(** The one-operand cases, guarded by [len(colorstack[c]) >= 1]. *)
Definition unop (c : color) (f : Z -> Z) (s : vm) : result vm :=
  let st := colorstack s c in
  if 1 <=? Py.len st then
    '(x, st1) <- Py.pop st ;;
    Ok (set_stack c (Py.append st1 (f x)) s)
  else Ok s.

Definition bool_int (b : bool) : Z := if b then 1 else 0.

Definition exec_pop (c : color) (s : vm) : result vm :=
  let st := colorstack s c in
  if 1 <=? Py.len st then
    '(_, st1) <- Py.pop st ;;
    Ok (set_stack c st1 s)
  else Ok s.

Definition exec_swap (c : color) (s : vm) : result vm :=
  let st := colorstack s c in
  if 2 <=? Py.len st then
    '(a, st1) <- Py.pop st ;;
    '(b, st2) <- Py.pop st1 ;;
    Ok (set_stack c (Py.append (Py.append st2 a) b) s)
  else Ok s.

Definition exec_dup (c : color) (s : vm) : result vm :=
  let st := colorstack s c in
  if 1 <=? Py.len st then
    '(a, st1) <- Py.pop st ;;
    Ok (set_stack c (Py.append (Py.append st1 a) a) s)
  else Ok s.

Definition exec_rot (c : color) (s : vm) : result vm :=
  let st := colorstack s c in
  if 1 <=? Py.len st then
    '(torot, st1) <- Py.pop st ;;
    if torot <=? Py.len st1 then
      '(extract, st2) <- Py.pop st1 ;;
      st3 <- Py.insert st2 ((Py.len st2 - 1) - (torot - 2)) extract ;;
      Ok (set_stack c st3 s)
    else Ok (set_stack c st1 s)
  else Ok s.

(** [jmpz] when [on_zero] is [true], [jmpnz] otherwise. *)
Definition exec_jmp (on_zero : bool) (c : color) (s : vm) : result vm :=
  let st := colorstack s c in
  if 2 <=? Py.len st then
    '(value, st1) <- Py.pop st ;;
    '(address, st2) <- Py.pop st1 ;;
    let s1 := set_stack c st2 s in
    if Bool.eqb (value =? 0) on_zero then
      if (0 <=? address) && (address <? size s) then
        Ok (set_ip c (address - 1) s1)
      else
        Ok (set_ip c (size s - 1) s1)
    else Ok s1
  else Ok s.

Definition exec_outc (c : color) (s : vm) : result vm :=
  let st := colorstack s c in
  if 1 <=? Py.len st then
    '(n, st1) <- Py.pop st ;;
    char <- Py.chr n ;;
    let s1 := set_stack c st1 s in
    Ok (if Py.isascii char then emit (Print_char char) s1 else s1)
  else Ok s.

Definition exec_inc (c : color) (s : vm) : result vm :=
  '(char, s1) <- input s ;;
  match char with
  | EmptyString => Raise IndexError                (* [char[0]] *)
  | String ch _ => Ok (set_stack c (Py.append (colorstack s1 c) (Py.ord ch)) s1)
  end.

Definition exec_outi (c : color) (s : vm) : result vm :=
  let st := colorstack s c in
  if 1 <=? Py.len st then
    '(number, st1) <- Py.pop st ;;
    text <- Py.format number ;;
    Ok (emit (Print_int text) (set_stack c st1 s))
  else Ok s.

Definition exec_ini (c : color) (s : vm) : result vm :=
  '(value, s1) <- input s ;;
  if Py.isdecimal value then
    v <- Py.int value ;;
    Ok (set_stack c (Py.append (colorstack s1 c) v) s1)
  else Ok s1.

Definition exec_pusha (c : color) (s : vm) : result vm :=
  let st := colorstack s c in
  if 1 <=? Py.len st then
    '(v, st1) <- Py.pop st ;;
    Ok (set_alpha (Py.append (colorstack_a s) v) (set_stack c st1 s))
  else Ok s.

Definition exec_waita (c : color) (s : vm) : result vm :=
  if 1 <=? Py.len (colorstack_a s) then
    '(v, a1) <- Py.pop (colorstack_a s) ;;
    Ok (set_state c RUNNING
          (set_stack c (Py.append (colorstack s c) v) (set_alpha a1 s)))
  else
    Ok (set_ip c (colorip s c - 1)
          (set_waitstack (Py.append (waitstack s) c)
             (set_state c AWAIT s))).

Definition exec_invalid (op : Z) (c : color) (s : vm) : result vm :=
  Ok (set_state c HALTED (mesg (Invalid_instruction op c (colorip s c)) s)).

Definition counted (c : color) (name : string) (r : result vm) : result vm :=
  s1 <- r ;; Ok (bump c name s1).

Definition colorexec (colortoexec : color) (s : vm) : result vm :=
  let c := colortoexec in
  op <- Py.index (colorcode s c) (colorip s c) ;;
  if (0 <=? op) && (op <=? 127) then
    Ok (bump c "push" (set_stack c (Py.append (colorstack s c) op) s))
  else if op =? 0x80 then counted c "add" (binop c (fun x y => Ok (x + y)) s)
  else if op =? 0x84 then counted c "sub" (binop c (fun x y => Ok (x - y)) s)
  else if op =? 0x88 then counted c "mul" (binop c (fun x y => Ok (x * y)) s)
  else if op =? 0x8C then counted c "div" (binop c Py.floordiv s)
  else if op =? 0x90 then counted c "rem" (binop c Py.modulo s)
  else if op =? 0x94 then counted c "pop" (exec_pop c s)
  else if op =? 0x98 then counted c "swap" (exec_swap c s)
  else if op =? 0x9C then counted c "dup" (exec_dup c s)
  else if op =? 0xA0 then counted c "rot" (exec_rot c s)
  else if op =? 0xA4 then counted c "not" (unop c Z.lnot s)
  else if op =? 0xA8 then counted c "or" (binop c (fun x y => Ok (Z.lor x y)) s)
  else if op =? 0xAC then counted c "and" (binop c (fun x y => Ok (Z.land x y)) s)
  else if op =? 0xB0 then
    counted c "gt" (binop c (fun a b => Ok (bool_int (a >? b))) s)
  else if op =? 0xB4 then
    counted c "eq" (binop c (fun a b => Ok (bool_int (a =? b))) s)
  else if op =? 0xB8 then
    counted c "lt" (binop c (fun a b => Ok (bool_int (a <? b))) s)
  else if op =? 0xC4 then counted c "jmpz" (exec_jmp true c s)
  else if op =? 0xC8 then counted c "jmpnz" (exec_jmp false c s)
  else if op =? 0xCC then counted c "outc" (exec_outc c s)
  else if op =? 0xD0 then counted c "inc" (exec_inc c s)
  else if op =? 0xD4 then counted c "outi" (exec_outi c s)
  else if op =? 0xD8 then counted c "ini" (exec_ini c s)
  else if op =? 0xDC then counted c "pusha" (exec_pusha c s)
  else if op =? 0xE0 then counted c "waita" (exec_waita c s)
  else if op =? 0xE4 then counted c "neg" (unop c (fun x => 0 - x) s)
  else if op =? 0xE8 then
    (* shl: [value << shiftval] *)
    counted c "shl" (binop c (fun shiftval value => Py.lshift value shiftval) s)
  else if op =? 0xEC then
    (* shr: the source line is again [value << shiftval] *)
    counted c "shr" (binop c (fun shiftval value => Py.lshift value shiftval) s)
  else exec_invalid op c s.

(** ** The main sequence *)

(** [colorip[color] += 1], then the OVERRUN test that follows it. *)
Definition advance (c : color) (s : vm) : vm :=
  let s1 := set_ip c (colorip s c + 1) s in
  if colorip s1 c =? size s1 then set_state c OVERRUN s1 else s1.

(** The body of [for color in colors] for one colour.  The first line
    is the argument of the trace call: the f-string reads
    [colorcode[color][colorip[color]]] whenever the thread is not in
    OVERRUN, whether or not the trace is printed. *)
Definition turn (color : color) (s : vm) : result vm :=
  _ <- (if tstate_eqb (colorstate s color) OVERRUN then Ok 0
        else Py.index (colorcode s color) (colorip s color)) ;;
  if tstate_eqb (colorstate s color) RUNNING then
    op <- Py.index (colorcode s color) (colorip s color) ;;
    if op =? 0xBC then
      Ok (advance color (bump color "nop" s))
    else if op =? 0xC0 then
      Ok (set_state color HALTED (bump color "halt" s))
    else
      s1 <- colorexec color s ;;
      Ok (advance color s1)
  else if tstate_eqb (colorstate s color) AWAIT then
    head <- Py.index (waitstack s) 0 ;;
    if color_eqb head color then
      let s1 := bump color "waita" s in
      if 1 <=? Py.len (colorstack_a s1) then
        '(_, w) <- Py.pop0 (waitstack s1) ;;
        s2 <- colorexec color (set_waitstack w s1) ;;
        Ok (advance color s2)
      else Ok s1
    else Ok s
  else Ok s.

(** [for color in colors: ...] *)
Fixpoint for_colors (cs : list color) (s : vm) : result vm :=
  match cs with
  | [] => Ok s
  | c :: t => s1 <- turn c s ;; for_colors t s1
  end.

Definition count_state (t : tstate) (s : vm) : Z :=
  Py.len (filter (fun c => tstate_eqb (colorstate s c) t) colors).

(** One iteration of [while not terminate]; the boolean is the new
    value of [terminate]. *)
Definition iteration (s : vm) : result (vm * bool) :=
  s1 <- for_colors colors s ;;
  let tmprun := count_state RUNNING s1 in
  let tmpawait := count_state AWAIT s1 in
  if tmprun =? 0 then
    if negb (tmpawait =? 0) then Ok (mesg Thread_deadlock s1, true)
    else Ok (mesg Threads_halted s1, true)
  else Ok (s1, false).

(** The state after at most [n] iterations of the loop: it stops
    iterating once [terminate] is set. *)
Fixpoint iterations (n : nat) (s : vm) : result (vm * bool) :=
  match n with
  | O => Ok (s, false)
  | S k =>
      '(s1, terminate) <- iterations k s ;;
      if terminate then Ok (s1, true) else iteration s1
  end.

(** The globals when the main sequence starts: the code arrays are
    loaded, every thread is RUNNING at address 0 with an empty stack
    and zeroed statistics. *)
Definition start (sz : Z) (silent : bool) (code : color -> list Z)
    (lines : list string) : vm :=
  mk_vm sz silent code (fun _ => []) [] (fun _ => RUNNING) (fun _ => 0)
        (fun _ _ => 0) [] lines [].

(** ** Loading the image *)

(** What the script uses of the image library: the two dimensions and
    [getpixel], whose channels are unsigned bytes. *)
Record image : Type := mk_image {
  imgxsize : Z;
  imgysize : Z;
  pixels : Z -> Z -> N * N * N
}.

Definition inside (img : image) (x y : Z) : bool :=
  (0 <=? x) && (x <? imgxsize img) && (0 <=? y) && (y <? imgysize img).

(** [img.getpixel((x, y))]: a negative coordinate counts from the far
    edge, anything still outside the image raises [IndexError]. *)
Definition getpixel (img : image) (x y : Z) : result (Z * Z * Z) :=
  let x1 := if x <? 0 then imgxsize img + x else x in
  let y1 := if y <? 0 then imgysize img + y else y in
  if inside img x1 y1 then
    let '(r, g, b) := pixels img x1 y1 in
    Ok (Z.of_N r, Z.of_N g, Z.of_N b)
  else Raise IndexError.

(** How loading ends when no exception escapes: with the code arrays,
    or with the script's own [mesg(...); exit()]. *)
Inductive loaded : Type :=
| Program (sz : Z) (code : color -> list Z)
| Stopped (m : message).

(** The two metadata cells: [Ok (inl m)] is [mesg(m); exit()],
    [Ok (inr (cellsize, size))] goes on to read the cells. *)
Definition header (img : image) : result (message + Z * Z) :=
  '(majorver, minorver, cellsize) <- getpixel img 0 0 ;;
  if (majorver >? V_MAJOR)
     || ((majorver =? V_MAJOR) && (minorver >? V_MINOR)) then
    Ok (inl (Invalid_version majorver minorver))
  else
    '(size3, size2, size1) <-
       (if imgxsize img =? cellsize then getpixel img 0 cellsize
        else getpixel img cellsize 0) ;;
    Ok (inr (cellsize, size3 * 256 * 256 + size2 * 256 + size1)).

(** The [match size] that places the first program cell (the case
    [0] exits before it is used). *)
Definition first_cell (cellsize sz : Z) : Z * Z :=
  if sz =? 1 then (0, 2 * cellsize)
  else if (2 <=? sz) && (sz <=? 6) then (0, cellsize)
  else (2 * cellsize, 0).

(** The end of the loop body: [x += cellsize], wrapping to the next
    row of cells. *)
Definition next_cell (img : image) (cellsize : Z) (p : Z * Z) : Z * Z :=
  let x := fst p + cellsize in
  if x >? imgxsize img - 1 then (0, snd p + cellsize) else (x, snd p).

(** [while i <= size], with [n] iterations left. *)
Fixpoint read_cells (n : nat) (img : image) (cellsize : Z) (p : Z * Z)
    (code : color -> list Z) : result (color -> list Z) :=
  match n with
  | O => Ok code
  | S k =>
      '(colorr, colorg, colorb) <- getpixel img (fst p) (snd p) ;;
      let code1 := upd code R (Py.append (code R) colorr) in
      let code2 := upd code1 G (Py.append (code1 G) colorg) in
      let code3 := upd code2 B (Py.append (code2 B) colorb) in
      read_cells k img cellsize (next_cell img cellsize p) code3
  end.

Definition decode (img : image) : result loaded :=
  h <- header img ;;
  match h with
  | inl m => Ok (Stopped m)
  | inr (cellsize, sz) =>
      if sz =? 0 then Ok (Stopped Length_is_zero)
      else
        code <- read_cells (Z.to_nat sz) img cellsize
                  (first_cell cellsize sz) (fun _ => []) ;;
        Ok (Program sz code)
  end.

(** The [k]-th cell the loop reads, counting from 0. *)
Fixpoint nth_cell (k : nat) (img : image) (cellsize : Z) (p : Z * Z) : Z * Z :=
  match k with
  | O => p
  | S j => nth_cell j img cellsize (next_cell img cellsize p)
  end.

(** ** Vocabulary of the specification *)

(** A byte that is neither a literal [0..127] nor a key of
    [disasmdict]. *)
Definition invalid_byte (b : Z) : bool :=
  negb ((0 <=? b) && (b <=? 127))
  && match dict_get disasmdict b with
     | None => true
     | Some _ => false
     end.

(** The arity column of the specification's instruction table; [rot]
    is apart, its arity depends on the count on top of the stack. *)
Definition arity_table : list (Z * Z) :=
  [ (0x80, 2); (0x84, 2); (0x88, 2); (0x8C, 2); (0x90, 2); (0x94, 1);
    (0x98, 2); (0x9C, 1); (0xA4, 1); (0xA8, 2); (0xAC, 2); (0xB0, 2);
    (0xB4, 2); (0xB8, 2); (0xBC, 0); (0xC0, 0); (0xC4, 2); (0xC8, 2);
    (0xCC, 1); (0xD0, 0); (0xD4, 1); (0xD8, 0); (0xDC, 1); (0xE0, 0);
    (0xE4, 1); (0xE8, 2); (0xEC, 2) ].

(** The declared arity of the byte [op] in front of the stack [st]:
    0 for a literal, [1 + n] for [rot] under the count [n] (at least 1
    when there is no count to read). *)
Definition arity (op : Z) (st : list Z) : option Z :=
  if (0 <=? op) && (op <=? 127) then Some 0
  else if op =? 0xA0 then
    match Py.pop st with
    | Ok (n, _) => Some (1 + n)
    | Raise _ => Some 1
    end
  else dict_get arity_table op.

(** What the code leaves of a stack too short for the instruction:
    the stack itself, except that [rot] has taken its count. *)
Definition after_underflow (op : Z) (st : list Z) : list Z :=
  if op =? 0xA0 then
    match Py.pop st with
    | Ok (_, rest) => rest
    | Raise _ => st
    end
  else st.

(** ** What one instruction may touch

    [frame c s s']: going from [s] to [s'] leaves the size and the
    other threads' address and state alone; the state of [c] is kept
    or becomes RUNNING, AWAIT or HALTED; its address is kept, reduced
    by one, or set so that the next increment lands in [0 .. size];
    the wait queue is kept, or [c] is queued behind it, which happens
    only on an empty alpha stack. *)
Definition frame (c : color) (s s' : vm) : Prop :=
  size s' = size s /\
  (forall c', c' <> c ->
     colorip s' c' = colorip s c' /\ colorstate s' c' = colorstate s c') /\
  (colorstate s' c = colorstate s c \/ colorstate s' c = RUNNING \/
   colorstate s' c = AWAIT \/ colorstate s' c = HALTED) /\
  (colorip s' c = colorip s c \/ colorip s' c = colorip s c - 1 \/
   0 <= colorip s' c + 1 < size s \/ colorip s' c + 1 = size s) /\
  (waitstack s' = waitstack s \/
   (Py.len (colorstack_a s) < 1 /\ waitstack s' = waitstack s ++ [c])).

(** The invariant of the main sequence for a program of [sz] cells:
    every address is within [0 .. sz], and a thread is in OVERRUN
    exactly when its address is [sz]. *)
Definition invariant (sz : Z) (s : vm) : Prop :=
  size s = sz /\
  forall c, 0 <= colorip s c <= sz /\
            (colorstate s c = OVERRUN <-> colorip s c = sz).

(** ** Logical executions of [waita]

    The specification counts one execution of [waita] where it
    completes, that is at the turn which moves a value from the alpha
    stack to the thread: a running thread that finds data, or a
    waiting thread that is resumed. *)
Definition completes_waita (c : color) (s : vm) : bool :=
  match Py.index (colorcode s c) (colorip s c) with
  | Ok op =>
      (op =? 0xE0) && (1 <=? Py.len (colorstack_a s))
      && (tstate_eqb (colorstate s c) RUNNING
          || (tstate_eqb (colorstate s c) AWAIT
              && match waitstack s with
                 | head :: _ => color_eqb head c
                 | [] => false
                 end))
  | Raise _ => false
  end.

(** The logical executions by [c] during one pass over [cs]. *)
Fixpoint completed_in_pass (c : color) (cs : list color) (s : vm) : result Z :=
  match cs with
  | [] => Ok 0
  | c' :: t =>
      s1 <- turn c' s ;;
      n <- completed_in_pass c t s1 ;;
      Ok (bool_int (color_eqb c c' && completes_waita c' s) + n)
  end.

(** The logical executions by [c] during [iterations n s]. *)
Fixpoint completed_waita (c : color) (n : nat) (s : vm) : result Z :=
  match n with
  | O => Ok 0
  | S k =>
      '(s1, terminate) <- iterations k s ;;
      m <- completed_waita c k s ;;
      if terminate then Ok m
      else d <- completed_in_pass c colors s1 ;; Ok (m + d)
  end.

(** ** Service of the wait queue

    [resumes c s]: the turn of [c] from [s] takes the branch that
    dequeues [c] and re-executes its [waita]. *)
Definition resumes (c : color) (s : vm) : bool :=
  tstate_eqb (colorstate s c) AWAIT
  && match waitstack s with
     | head :: _ => color_eqb head c
     | [] => false
     end
  && (1 <=? Py.len (colorstack_a s)).

(** The colours resumed during one pass over [cs], in order. *)
Fixpoint resumed (cs : list color) (s : vm) : result (list color) :=
  match cs with
  | [] => Ok []
  | c :: t =>
      s1 <- turn c s ;;
      l <- resumed t s1 ;;
      Ok (if resumes c s then c :: l else l)
  end.

(** [pass cs s]: the turns of [for color in colors] from [s], one
    after the other, each as the colour, the state its turn found and
    the state its turn left. *)
Fixpoint pass (cs : list color) (s : vm)
    : result (list (color * vm * vm)) :=
  match cs with
  | [] => Ok []
  | c :: t =>
      s1 <- turn c s ;;
      l <- pass t s1 ;;
      Ok ((c, s, s1) :: l)
  end.

Fixpoint list_eqb (a b : list Z) : bool :=
  match a, b with
  | [], [] => true
  | x :: a', y :: b' => (x =? y) && list_eqb a' b'
  | _, _ => false
  end.

(** What is seen of a turn from outside: it [consumes] when it found
    its colour in AWAIT and left the alpha stack other than it found
    it, whichever branch of the main sequence it went through. *)
Definition consumes (t : color * vm * vm) : bool :=
  let '(c, s, s') := t in
  tstate_eqb (colorstate s c) AWAIT
  && negb (list_eqb (colorstack_a s') (colorstack_a s)).

(** The colours whose turn consumed, in the order of their turns. *)
Definition consumers (tr : list (color * vm * vm)) : list color :=
  map (fun t => fst (fst t)) (filter consumes tr).

(** ** Errors of the loader

    The specification names three errors of the decoder.  The script
    reports an error of its own by [mesg(...); exit()]; these are the
    reports it has. *)
Inductive decode_error : Type :=
| UnsupportedVersion
| EmptyProgram
| ImageTooSmall.

Definition reported (o : result loaded) : option decode_error :=
  match o with
  | Ok (Stopped (Invalid_version _ _)) => Some UnsupportedVersion
  | Ok (Stopped Length_is_zero) => Some EmptyProgram
  | _ => None
  end.

(** ** Programs used below *)

Definition div_zero_program (c : color) : list Z :=
  match c with
  | R => [0; 7; 0x8C]            (* push 0; push 7; div *)
  | _ => [0xBC; 0xBC; 0xBC]      (* nop; nop; nop *)
  end.

Definition jump_out_program (c : color) : list Z :=
  match c with
  | R => [9; 0; 0xC4; 0xC0]          (* push 9; push 0; jmpz; halt *)
  | _ => [0xBC; 0xBC; 0xBC; 0xBC]    (* nop; nop; nop; nop *)
  end.

Definition rot_program (c : color) : list Z :=
  match c with
  | R => [5; 3; 0xA0; 0xC0]          (* push 5; push 3; rot; halt *)
  | _ => [0xBC; 0xBC; 0xBC; 0xC0]    (* nop; nop; nop; halt *)
  end.

(** R sends 42 through the alpha stack to G, which prints it. *)
Definition rendezvous_program (c : color) : list Z :=
  match c with
  | R => [42; 0xDC; 0xC0]        (* push 42; pusha; halt *)
  | G => [0xE0; 0xD4; 0xC0]      (* waita; outi; halt *)
  | B => [0xC0; 0xC0; 0xC0]      (* halt *)
  end.

(** R and B wait while G sends two values, one per pass. *)
Definition two_waiters_program (c : color) : list Z :=
  match c with
  | R => [0xE0; 0xC0; 0xC0; 0xC0; 0xC0]   (* waita; halt *)
  | G => [7; 8; 0xDC; 0xDC; 0xC0]         (* push 7; push 8; pusha; pusha; halt *)
  | B => [0xE0; 0xC0; 0xC0; 0xC0; 0xC0]   (* waita; halt *)
  end.

(** An image of 3 x 1 pixels with cells of one pixel: version 1.0,
    size 7, and a single program cell where seven are announced. *)
Definition short_image : image :=
  mk_image 3 1
    (fun x _ => if x =? 0 then (1, 0, 1)%N
                else if x =? 1 then (0, 0, 7)%N
                else (0xC0, 0xC0, 0xC0)%N).

(** An image of 1 x 3 pixels, one cell wide: version 1.0, size 1, and
    the program cell [push 5; nop; halt]. *)
Definition column_image : image :=
  mk_image 1 3
    (fun _ y => if y =? 0 then (1, 0, 1)%N
                else if y =? 1 then (0, 0, 1)%N
                else (5, 0xBC, 0xC0)%N).

(** Scenarios of the specification: R adds 3 and 4 and prints the
    sum; R and G wait on an alpha stack nobody fills. *)
Definition sum_program (c : color) : list Z :=
  match c with
  | R => [3; 4; 0x80; 0xD4; 0xC0]          (* push 3; push 4; add; outi; halt *)
  | _ => [0xBC; 0xBC; 0xBC; 0xBC; 0xC0]    (* nop; nop; nop; nop; halt *)
  end.

Definition deadlock_program (c : color) : list Z :=
  match c with
  | B => [0xC0]      (* halt *)
  | _ => [0xE0]      (* waita *)
  end.

(** ** What a turn leaves alone

    [apart c s s']: the program, its size and the silent flag are the
    same in [s'] as in [s], and so are the stack, address, state and
    counters of every colour other than [c]. *)
Definition apart (c : color) (s s' : vm) : Prop :=
  size s' = size s /\
  args_silent s' = args_silent s /\
  colorcode s' = colorcode s /\
  forall c', c' <> c ->
    colorstack s' c' = colorstack s c' /\
    colorip s' c' = colorip s c' /\
    colorstate s' c' = colorstate s c' /\
    colorstat s' c' = colorstat s c'.

(** The key of [colorstat] that belongs to a byte: ["push"] for a
    literal, the entry of [disasmdict] otherwise. *)
Definition counter_of (op : Z) : option string :=
  if (0 <=? op) && (op <=? 127) then Some "push"%string
  else dict_get disasmdict op.

(** ** The wait queue

    [queue_ok s]: the wait queue holds no colour twice, it holds
    exactly the colours whose state is AWAIT, and every such colour
    has its address on a [waita] instruction. *)
Definition queue_ok (s : vm) : Prop :=
  NoDup (waitstack s) /\
  forall c,
    (colorstate s c = AWAIT <-> In c (waitstack s)) /\
    (colorstate s c = AWAIT ->
     Py.index (colorcode s c) (colorip s c) = Ok 0xE0).

(** The instructions whose case in [colorexec] contains an operation
    that can raise: [div], [rem], [rot], [outc], [inc], [outi], [ini],
    [shl] and [shr]. *)
Definition may_raise (op : Z) : bool :=
  existsb (Z.eqb op)
    [0x8C; 0x90; 0xA0; 0xCC; 0xD0; 0xD4; 0xD8; 0xE8; 0xEC].

(** ** The layout of the cells

    One channel of a pixel, and the top-left corner of the [j]-th
    cell, counting from 0 along the rows of an image that is [cols]
    cells wide. *)
Definition channel (c : color) (p : N * N * N) : Z :=
  let '(r, g, b) := p in
  match c with
  | R => Z.of_N r
  | G => Z.of_N g
  | B => Z.of_N b
  end.

Definition cell_corner (cols cellsize j : Z) : Z * Z :=
  ((j mod cols) * cellsize, (j / cols) * cellsize).

(** ** The disassembly listing *)

From Stdlib Require Import DecimalString DecimalZ DecimalPos.

Module PyStr.

(** [str(n)] for an integer: its decimal numeral. *)
Definition str (n : Z) : string := NilZero.string_of_int (Z.to_int n).

Fixpoint spaces (n : nat) : string :=
  match n with
  | O => EmptyString
  | S k => String " " (spaces k)
  end.

(** The format [{s:w}] for a string: padded with spaces on the right
    up to the width [w], never cut. *)
Definition ljust (w : nat) (s : string) : string :=
  String.append s (spaces (w - String.length s)).

End PyStr.

(** The text of one byte in the listing: the entry of [disasmdict],
    and ["push "] with the byte for every byte that has none. *)
Definition disasm (b : Z) : string :=
  match dict_get disasmdict b with
  | None => String.append "push " (PyStr.str b)
  | Some mnemonic => mnemonic
  end.

(** One line of the listing, for the three bytes at address [i]. *)
Definition disasm_line (r g b i : Z) : string :=
  String.append (PyStr.ljust 9 (disasm r))
    (String.append "; "
       (String.append (PyStr.ljust 9 (disasm g))
          (String.append "; "
             (String.append (PyStr.ljust 9 (disasm b))
                (String.append " #Line " (PyStr.str i)))))).

(** [while i < size], with [n] lines left to print from address [i]. *)
Fixpoint disasm_lines (n : nat) (i : Z) (code : color -> list Z)
    : result (list string) :=
  match n with
  | O => Ok []
  | S k =>
      r <- Py.index (code R) i ;;
      g <- Py.index (code G) i ;;
      b <- Py.index (code B) i ;;
      rest <- disasm_lines k (i + 1) code ;;
      Ok (disasm_line r g b i :: rest)
  end.

(** The lines of the disassembly mode after its three header lines. *)
Definition disasm_listing (sz : Z) (code : color -> list Z)
    : result (list string) :=
  disasm_lines (Z.to_nat sz) 0 code.

(** ** Running silently

    [hush s] is [s] under [--silent]: the flag is set and the
    messages of [mesg] are gone from what was written, everything
    else is the same. *)
Definition is_info (e : event) : bool :=
  match e with
  | Info _ => true
  | _ => false
  end.

Definition hush (s : vm) : vm :=
  mk_vm (size s) true (colorcode s) (colorstack s) (colorstack_a s)
        (colorstate s) (colorip s) (colorstat s) (waitstack s) (stdin s)
        (filter (fun e => negb (is_info e)) (console s)).

Definition rmap {A B : Type} (f : A -> B) (r : result A) : result B :=
  match r with
  | Ok a => Ok (f a)
  | Raise e => Raise e
  end.

Definition hush_pair (p : vm * bool) : vm * bool := (hush (fst p), snd p).

(** * Properties *)

(** ** Python lists *)

Lemma len_nonneg {A : Type} (l : list A) : 0 <= Py.len l.
Proof. unfold Py.len. lia. Qed.

Lemma len_app {A : Type} (l1 l2 : list A) :
  Py.len (l1 ++ l2) = Py.len l1 + Py.len l2.
Proof. unfold Py.len. rewrite length_app. lia. Qed.

Lemma len_nil_iff {A : Type} (l : list A) : Py.len l = 0 <-> l = [].
Proof.
  unfold Py.len. destruct l as [|x t]; simpl; split; intro H;
    try reflexivity; try discriminate; lia.
Qed.

Lemma pop_append {A : Type} (l : list A) (x : A) :
  Py.pop (l ++ [x]) = Ok (x, l).
Proof.
  unfold Py.pop. rewrite rev_app_distr. simpl. now rewrite rev_involutive.
Qed.

Lemma pop_nil {A : Type} : Py.pop (@nil A) = Raise IndexError.
Proof. reflexivity. Qed.

(** A non-empty Python list is some list followed by its last element. *)
Lemma last_split {A : Type} (l : list A) :
  1 <= Py.len l -> exists t x, l = t ++ [x].
Proof.
  intro H. destruct (rev l) as [|x t] eqn:E.
  - apply (f_equal (@rev A)) in E. rewrite rev_involutive in E. subst l.
    unfold Py.len in H. simpl in H. lia.
  - exists (rev t), x. apply (f_equal (@rev A)) in E.
    rewrite rev_involutive in E. now subst l.
Qed.

Lemma last2_split {A : Type} (l : list A) :
  2 <= Py.len l -> exists t y x, l = t ++ [y; x].
Proof.
  intro H. destruct (last_split l) as (t1 & x & ->); [lia|].
  rewrite len_app in H. change (Py.len [x]) with 1 in H.
  destruct (last_split t1) as (t & y & ->); [lia|].
  exists t, y, x. now rewrite <- app_assoc.
Qed.

(** ** Reading the updated globals *)

Lemma upd_same {A : Type} (f : color -> A) (c : color) (v : A) :
  upd f c v c = v.
Proof. unfold upd. now destruct c. Qed.

Lemma upd_other {A : Type} (f : color -> A) (c c' : color) (v : A) :
  c <> c' -> upd f c v c' = f c'.
Proof. unfold upd. destruct c, c'; simpl; congruence. Qed.

Lemma color_eqb_eq (a b : color) : color_eqb a b = true <-> a = b.
Proof. destruct a, b; simpl; split; congruence. Qed.

Lemma color_eqb_refl (c : color) : color_eqb c c = true.
Proof. now destruct c. Qed.

Lemma tstate_eqb_eq (a b : tstate) : tstate_eqb a b = true <-> a = b.
Proof. destruct a, b; simpl; split; congruence. Qed.

(** ** The model on the scenarios of the specification *)

Example sum_prints_seven :
  exists s',
    iterations 5 (start 5 false sum_program []) = Ok (s', true) /\
    console s' = [Print_int 7; Info Threads_halted] /\
    colorstate s' R = HALTED /\ colorstat s' R "add" = 1.
Proof. eexists. split; [vm_compute; reflexivity|]. cbn. auto. Qed.

Example rendezvous_prints_42 :
  exists s',
    iterations 4 (start 3 false rendezvous_program []) = Ok (s', true) /\
    console s' = [Print_int 42; Info Threads_halted] /\
    colorstack_a s' = [] /\ waitstack s' = [].
Proof. eexists. split; [vm_compute; reflexivity|]. cbn. auto. Qed.

Example two_waiters_deadlock :
  exists s',
    iterations 1 (start 1 false deadlock_program []) = Ok (s', true) /\
    console s' = [Info Thread_deadlock] /\
    waitstack s' = [R; G].
Proof. eexists. split; [vm_compute; reflexivity|]. cbn. auto. Qed.

Example column_image_loads :
  exists code,
    decode column_image = Ok (Program 1 code) /\
    code R = [5] /\ code G = [0xBC] /\ code B = [0xC0].
Proof. eexists. split; [vm_compute; reflexivity|]. cbn. auto. Qed.

(** ** The stack helpers on a stack of known shape *)

Lemma binop_two (c : color) (f : Z -> Z -> result Z) (s : vm)
    (rest : list Z) (y x : Z) :
  colorstack s c = rest ++ [y; x] ->
  binop c f s = (v <- f x y ;; Ok (set_stack c (Py.append rest v) s)).
Proof.
  intro H. unfold binop. rewrite H.
  replace (2 <=? Py.len (rest ++ [y; x])) with true
    by (symmetry; apply Z.leb_le; rewrite len_app;
        pose proof (len_nonneg rest); change (Py.len [y; x]) with 2; lia).
  change (rest ++ [y; x]) with (rest ++ [y] ++ [x]).
  rewrite app_assoc, pop_append. simpl. rewrite pop_append. reflexivity.
Qed.

Lemma binop_short (c : color) (f : Z -> Z -> result Z) (s : vm) :
  Py.len (colorstack s c) < 2 -> binop c f s = Ok s.
Proof.
  intro H. unfold binop.
  replace (2 <=? Py.len (colorstack s c)) with false
    by (symmetry; apply Z.leb_gt; lia).
  reflexivity.
Qed.

(** ** Reading the globals after [advance] *)

Lemma advance_ip (c : color) (s : vm) :
  colorip (advance c s) c = colorip s c + 1.
Proof.
  unfold advance. destruct (_ =? _); cbn; now rewrite upd_same.
Qed.

Lemma advance_state (c : color) (s : vm) :
  colorstate (advance c s) c =
  if colorip s c + 1 =? size s then OVERRUN else colorstate s c.
Proof.
  unfold advance. cbn. rewrite upd_same.
  destruct (_ =? _); cbn; now rewrite ?upd_same.
Qed.

Lemma advance_stack (c : color) (s : vm) :
  colorstack (advance c s) = colorstack s.
Proof. unfold advance. now destruct (_ =? _). Qed.

Lemma advance_stat (c : color) (s : vm) :
  colorstat (advance c s) = colorstat s.
Proof. unfold advance. now destruct (_ =? _). Qed.

Lemma advance_alpha (c : color) (s : vm) :
  colorstack_a (advance c s) = colorstack_a s.
Proof. unfold advance. now destruct (_ =? _). Qed.

Lemma advance_waitstack (c : color) (s : vm) :
  waitstack (advance c s) = waitstack s.
Proof. unfold advance. now destruct (_ =? _). Qed.

Lemma advance_console (c : color) (s : vm) :
  console (advance c s) = console s.
Proof. unfold advance. now destruct (_ =? _). Qed.

Lemma advance_size (c : color) (s : vm) : size (advance c s) = size s.
Proof. unfold advance. now destruct (_ =? _). Qed.

Lemma bump_same (c : color) (name : string) (s : vm) :
  colorstat (bump c name s) c name = colorstat s c name + 1.
Proof. cbn. rewrite upd_same. now rewrite String.eqb_refl. Qed.

(** A running thread on an instruction that is neither [nop] nor
    [halt] goes through [colorexec] and [advance]. *)
Lemma turn_running (c : color) (s : vm) (op : Z) :
  colorstate s c = RUNNING ->
  Py.index (colorcode s c) (colorip s c) = Ok op ->
  op <> 0xBC -> op <> 0xC0 ->
  turn c s = (s1 <- colorexec c s ;; Ok (advance c s1)).
Proof.
  intros Hrun Hop Hnop Hhalt. unfold turn. rewrite Hrun, Hop. cbn.
  apply Z.eqb_neq in Hnop, Hhalt. now rewrite Hnop, Hhalt.
Qed.

(** ** The [shr] instruction *)

Lemma colorexec_shr (c : color) (s : vm) (rest : list Z) (v sh r : Z) :
  Py.index (colorcode s c) (colorip s c) = Ok 0xEC ->
  colorstack s c = rest ++ [v; sh] ->
  Py.lshift v sh = Ok r ->
  colorexec c s = Ok (bump c "shr" (set_stack c (rest ++ [r]) s)).
Proof.
  intros Hop Hst Hsh. unfold colorexec. rewrite Hop. cbn.
  rewrite (binop_two c _ s rest v sh Hst), Hsh.
  reflexivity.
Qed.

(** C1.  On the stack [8, 1] (shift count 1 on top of the value 8)
    the [shr] instruction 0xEC leaves [16], the value shifted to the
    left, where a right shift [8 >> 1] would leave [4]. *)
Theorem shr_pushes_left_shift :
  let s := set_stack R [8; 1] (start 1 false (fun _ => [0xEC]) []) in
  exists s',
    colorexec R s = Ok s' /\
    colorstack s' R = [16] /\
    colorstat s' R "shr" = 1 /\
    colorstack s' R <> [Z.shiftr 8 1].
Proof.
  eexists. split; [reflexivity|]. cbn. repeat split. discriminate.
Qed.

(** ** The [inc] instruction *)

(** C10.  [inc] reads a line and indexes its first character without
    a test: on an empty line the access raises [IndexError] and
    nothing is pushed; on any other line the code point of the first
    character is pushed and the counter incremented. *)
Theorem inc_needs_a_character (c : color) (s : vm)
    (line : string) (more : list string) :
  Py.index (colorcode s c) (colorip s c) = Ok 0xD0 ->
  stdin s = line :: more ->
  match line with
  | EmptyString => colorexec c s = Raise IndexError
  | String ch _ =>
      exists s', colorexec c s = Ok s' /\
                 colorstack s' c = colorstack s c ++ [Py.ord ch] /\
                 colorstat s' c "inc" = colorstat s c "inc" + 1
  end.
Proof.
  intros Hop Hin. unfold colorexec. rewrite Hop. cbn.
  unfold exec_inc, input. rewrite Hin. cbn.
  destruct line as [|ch t]; [reflexivity|].
  eexists. split; [reflexivity|]. cbn. now rewrite !upd_same.
Qed.

Lemma inc_needs_a_character_witness :
  colorexec R (start 1 false (fun _ => [0xD0]) [EmptyString])
  = Raise IndexError.
Proof.
  exact (inc_needs_a_character R (start 1 false (fun _ => [0xD0]) [EmptyString])
           EmptyString [] eq_refl eq_refl).
Defined.

(** ** Division by zero *)

(** C3, as the code has it.  When the second element from the top
    (the divisor) is zero, the turn of a running thread on [div]
    (0x8C) or [rem] (0x90) raises [ZeroDivisionError]: no thread is
    halted and no message is written, the exception ends the run. *)
Theorem div_rem_by_zero_raises (c : color) (s : vm) (op : Z)
    (rest : list Z) (x : Z) :
  colorstate s c = RUNNING ->
  Py.index (colorcode s c) (colorip s c) = Ok op ->
  op = 0x8C \/ op = 0x90 ->
  colorstack s c = rest ++ [0; x] ->
  turn c s = Raise ZeroDivisionError.
Proof.
  intros Hrun Hop Hdiv Hst.
  rewrite (turn_running c s op Hrun Hop) by (destruct Hdiv; subst; discriminate).
  unfold colorexec. rewrite Hop.
  destruct Hdiv; subst op; cbn;
    now rewrite (binop_two c _ s rest 0 x Hst).
Qed.

Lemma div_rem_by_zero_raises_witness :
  turn R (set_stack R [0; 7] (start 1 false (fun _ => [0x8C]) []))
  = Raise ZeroDivisionError.
Proof.
  apply (div_rem_by_zero_raises R
           (set_stack R [0; 7] (start 1 false (fun _ => [0x8C]) []))
           0x8C [] 7); [reflexivity | reflexivity | now left | reflexivity].
Defined.

(** C3 as stated fails: in the third iteration R divides 7 by 0, and
    instead of leaving R halted with G and B going on, the iteration
    ends in the exception. *)
Lemma div_by_zero_aborts_vm :
  iterations 3 (start 3 false div_zero_program []) = Raise ZeroDivisionError /\
  ~ (exists s' t, iterations 3 (start 3 false div_zero_program []) = Ok (s', t)
                  /\ colorstate s' R = HALTED).
Proof.
  assert (E : iterations 3 (start 3 false div_zero_program [])
              = Raise ZeroDivisionError) by (vm_compute; reflexivity).
  split; [exact E|]. intros (s' & t & H & _). rewrite E in H. discriminate.
Qed.

(** ** Invalid instructions *)

Lemma colorexec_invalid (c : color) (s : vm) (op : Z) :
  Py.index (colorcode s c) (colorip s c) = Ok op ->
  invalid_byte op = true ->
  colorexec c s = exec_invalid op c s.
Proof.
  intros Hop Hinv. unfold invalid_byte in Hinv.
  apply andb_true_iff in Hinv. destruct Hinv as [Hrange Hdict].
  apply negb_true_iff in Hrange.
  unfold disasmdict in Hdict. cbn [dict_get] in Hdict.
  repeat match type of Hdict with
         | context [?k =? op] =>
             destruct (Z.eqb_spec k op); [discriminate Hdict|]
         end.
  unfold colorexec. rewrite Hop. cbn [bind]. rewrite Hrange.
  repeat match goal with
         | |- context [op =? ?k] =>
             replace (op =? k) with false
               by (symmetry; apply Z.eqb_neq; congruence)
         end.
  reflexivity.
Qed.

(** The turn of a running thread on an invalid byte: the message,
    HALTED, and then the address increment with its OVERRUN test. *)
Lemma turn_invalid (c : color) (s : vm) (op : Z) :
  colorstate s c = RUNNING ->
  Py.index (colorcode s c) (colorip s c) = Ok op ->
  invalid_byte op = true ->
  turn c s =
  Ok (advance c (set_state c HALTED
                   (mesg (Invalid_instruction op c (colorip s c)) s))).
Proof.
  intros Hrun Hop Hinv.
  rewrite (turn_running c s op Hrun Hop).
  - now rewrite (colorexec_invalid c s op Hop Hinv).
  - intros ->. discriminate Hinv.
  - intros ->. discriminate Hinv.
Qed.

(** Away from the last address the thread is left HALTED. *)
Lemma turn_invalid_inner (c : color) (s s' : vm) (op : Z) :
  colorstate s c = RUNNING ->
  Py.index (colorcode s c) (colorip s c) = Ok op ->
  invalid_byte op = true ->
  colorip s c + 1 <> size s ->
  turn c s = Ok s' ->
  colorstate s' c = HALTED.
Proof.
  intros Hrun Hop Hinv Hlast Hturn.
  rewrite (turn_invalid c s op Hrun Hop Hinv) in Hturn.
  injection Hturn as <-. rewrite advance_state.
  unfold mesg. destruct (args_silent s); cbn; rewrite upd_same;
    apply Z.eqb_neq in Hlast; now rewrite Hlast.
Qed.

(** C6.  A one-cell program whose byte is the unassigned 0xFF: the
    turn of R writes the message, but the thread is left in OVERRUN,
    not HALTED, because the address increment that follows
    [colorexec] reaches [size] and overwrites the state. *)
Theorem invalid_at_last_address_overruns :
  let s := start 1 false (fun _ => [0xFF]) [] in
  invalid_byte 0xFF = true /\
  exists s',
    turn R s = Ok s' /\
    console s' = [Info (Invalid_instruction 0xFF R 0)] /\
    colorstate s' R = OVERRUN /\
    colorstate s' R <> HALTED.
Proof.
  split; [reflexivity|].
  eexists. split; [reflexivity|]. cbn. repeat split. discriminate.
Qed.

(** ** Conditional jumps *)

Lemma exec_jmp_two (on_zero : bool) (c : color) (s : vm)
    (rest : list Z) (addr v : Z) :
  colorstack s c = rest ++ [addr; v] ->
  exec_jmp on_zero c s =
  Ok (let s1 := set_stack c rest s in
      if Bool.eqb (v =? 0) on_zero then
        if (0 <=? addr) && (addr <? size s)
        then set_ip c (addr - 1) s1
        else set_ip c (size s - 1) s1
      else s1).
Proof.
  intro H. unfold exec_jmp. rewrite H.
  replace (2 <=? Py.len (rest ++ [addr; v])) with true
    by (symmetry; apply Z.leb_le; rewrite len_app;
        pose proof (len_nonneg rest); change (Py.len [addr; v]) with 2; lia).
  change (rest ++ [addr; v]) with (rest ++ [addr] ++ [v]).
  rewrite app_assoc, pop_append. cbn [bind]. rewrite pop_append. cbn [bind].
  destruct (Bool.eqb _ _); [destruct (_ && _)|]; reflexivity.
Qed.

(** C8, as the code has it.  [jmpz] pops [v], then [addr].  With
    [v = 0] and [addr] inside the program the turn ends at address
    [addr], still RUNNING; with [v = 0] and [addr] outside, [colorexec]
    stores [size - 1] and the increment of the same turn moves the
    address to [size], so the thread is in OVERRUN when its turn ends;
    with [v <> 0] the address advances by one. *)
Theorem jmpz_turn (c : color) (s : vm) (rest : list Z) (addr v : Z) :
  colorstate s c = RUNNING ->
  Py.index (colorcode s c) (colorip s c) = Ok 0xC4 ->
  colorstack s c = rest ++ [addr; v] ->
  exists s',
    turn c s = Ok s' /\
    colorstack s' c = rest /\
    (v = 0 -> 0 <= addr < size s ->
     colorip s' c = addr /\ colorstate s' c = RUNNING) /\
    (v = 0 -> ~ (0 <= addr < size s) ->
     colorip s' c = size s /\ colorstate s' c = OVERRUN) /\
    (v <> 0 -> colorip s' c = colorip s c + 1).
Proof.
  intros Hrun Hop Hst.
  rewrite (turn_running c s _ Hrun Hop) by discriminate.
  unfold colorexec. rewrite Hop. cbn.
  rewrite (exec_jmp_two true c s rest addr v Hst). cbn [counted bind].
  eexists. split; [reflexivity|].
  rewrite advance_stack, advance_ip, advance_state.
  destruct (Z.eqb_spec v 0) as [Hv|Hv]; cbn [Bool.eqb].
  - destruct ((0 <=? addr) && (addr <? size s)) eqn:Hin.
    + apply andb_true_iff in Hin. destruct Hin as [H1 H2].
      apply Z.leb_le in H1. apply Z.ltb_lt in H2.
      cbn. rewrite !upd_same.
      replace (addr - 1 + 1 =? size s) with false
        by (symmetry; apply Z.eqb_neq; lia).
      repeat split; try lia; try (intros; lia). now intros.
    + assert (Hout : ~ (0 <= addr < size s)).
      { intros [H1 H2]. apply Z.leb_le in H1. apply Z.ltb_lt in H2.
        rewrite H1, H2 in Hin. discriminate. }
      cbn. rewrite !upd_same.
      replace (size s - 1 + 1 =? size s) with true
        by (symmetry; apply Z.eqb_eq; lia).
      repeat split; try lia; try (intros; lia); try contradiction.
  - cbn. rewrite !upd_same. repeat split; try contradiction. 
Qed.

Lemma jmpz_turn_witness :
  exists s',
    turn R (set_stack R [9; 0] (start 1 false (fun _ => [0xC4]) [])) = Ok s' /\
    colorip s' R = 1 /\ colorstate s' R = OVERRUN.
Proof.
  destruct (jmpz_turn R (set_stack R [9; 0] (start 1 false (fun _ => [0xC4]) []))
              [] 9 0 eq_refl eq_refl eq_refl)
    as (s' & Hturn & _ & _ & Hout & _).
  exists s'. split; [exact Hturn|].
  apply Hout; [reflexivity|]. cbn. lia.
Defined.

(** C8 as stated fails on the out-of-range clause: after the
    iteration in which R executes [jmpz] with [v = 0] and the address
    9 in a program of size 4, the address of R is already [size], not
    [size - 1], and R is already in OVERRUN; no later step is
    involved. *)
Lemma jmpz_out_of_range_overruns_at_once :
  exists s' t,
    iterations 3 (start 4 false jump_out_program []) = Ok (s', t) /\
    colorip s' R = size s' /\
    colorstate s' R = OVERRUN /\
    ~ (colorip s' R = size s' - 1 /\ colorstate s' R = RUNNING).
Proof.
  eexists. eexists. split; [vm_compute; reflexivity|].
  cbn. repeat split. intros [H _]. discriminate H.
Qed.

(** ** Stack underflow *)

Lemma snoc_cases {A : Type} (l : list A) :
  l = [] \/ exists t x, l = t ++ [x].
Proof.
  destruct l as [|a l']; [now left|right].
  apply last_split. unfold Py.len. simpl. lia.
Qed.

(** Every guarded instruction body is the identity below its guard. *)
Ltac below_guard H :=
  unfold binop, unop, exec_pop, exec_swap, exec_dup, exec_rot, exec_jmp,
    exec_outc, exec_outi, exec_pusha;
  cbv zeta;
  match goal with
  | |- context [?k <=? Py.len ?st] =>
      replace (k <=? Py.len st) with false
        by (symmetry; apply Z.leb_gt; exact H)
  end.

Lemma turn_underflow_fixed (c : color) (s : vm) (op a : Z) :
  colorstate s c = RUNNING ->
  Py.index (colorcode s c) (colorip s c) = Ok op ->
  dict_get arity_table op = Some a ->
  Py.len (colorstack s c) < a ->
  exists name,
    dict_get disasmdict op = Some name /\
    turn c s = Ok (advance c (bump c name s)).
Proof.
  intros Hrun Hop Har Hlen.
  pose proof (len_nonneg (colorstack s c)) as Hnn.
  unfold arity_table in Har. cbn [dict_get] in Har.
  repeat match type of Har with
         | context [?k =? op] =>
             destruct (Z.eqb_spec k op) as [<-|?];
               [injection Har as <-;
                first
                  [ lia
                  | eexists; split; [reflexivity|];
                    rewrite (turn_running c s _ Hrun Hop) by discriminate;
                    unfold colorexec; rewrite Hop; cbn;
                    below_guard Hlen; reflexivity ]
               |]
         end.
  discriminate Har.
Qed.

Lemma arity_rot (st : list Z) :
  arity 0xA0 st = match Py.pop st with
                  | Ok (n, _) => Some (1 + n)
                  | Raise _ => Some 1
                  end.
Proof. reflexivity. Qed.

Lemma after_underflow_rot (st : list Z) :
  after_underflow 0xA0 st = match Py.pop st with
                            | Ok (_, rest) => rest
                            | Raise _ => st
                            end.
Proof. reflexivity. Qed.

Lemma turn_underflow_rot (c : color) (s : vm) (a : Z) :
  colorstate s c = RUNNING ->
  Py.index (colorcode s c) (colorip s c) = Ok 0xA0 ->
  arity 0xA0 (colorstack s c) = Some a ->
  Py.len (colorstack s c) < a ->
  turn c s =
  Ok (advance c (bump c "rot"
                   (set_stack c (after_underflow 0xA0 (colorstack s c)) s)))
  \/ (colorstack s c = [] /\ turn c s = Ok (advance c (bump c "rot" s))).
Proof.
  intros Hrun Hop Har Hlen.
  rewrite (turn_running c s _ Hrun Hop) by discriminate.
  replace (colorexec c s) with (counted c "rot" (exec_rot c s))
    by (unfold colorexec; now rewrite Hop).
  rewrite arity_rot in Har. rewrite after_underflow_rot.
  destruct (snoc_cases (colorstack s c)) as [E | (rest & n & E)].
  - right. split; [exact E|]. unfold exec_rot. rewrite E. reflexivity.
  - left. unfold exec_rot. rewrite E in *. rewrite pop_append in *.
    assert (Ha : a = 1 + n) by congruence. subst a.
    rewrite len_app in *. change (Py.len [n]) with 1 in *.
    pose proof (len_nonneg rest).
    replace (1 <=? Py.len rest + 1) with true by (symmetry; apply Z.leb_le; lia).
    cbn [bind].
    replace (n <=? Py.len rest) with false by (symmetry; apply Z.leb_gt; lia).
    reflexivity.
Qed.

(** C4, as the code has it.  When the stack of a running thread is
    shorter than the declared arity of the instruction, the turn
    succeeds, the counter of the instruction goes up by one and the
    address advances by one; the stack is unchanged, except that
    [rot] on a non-empty stack has popped its count. *)
Theorem underflow_turn (c : color) (s : vm) (op a : Z) :
  colorstate s c = RUNNING ->
  Py.index (colorcode s c) (colorip s c) = Ok op ->
  arity op (colorstack s c) = Some a ->
  Py.len (colorstack s c) < a ->
  exists s' name,
    turn c s = Ok s' /\
    dict_get disasmdict op = Some name /\
    colorstack s' c = after_underflow op (colorstack s c) /\
    colorstat s' c name = colorstat s c name + 1 /\
    colorip s' c = colorip s c + 1.
Proof.
  intros Hrun Hop Har Hlen.
  pose proof (len_nonneg (colorstack s c)) as Hnn.
  unfold arity in Har.
  destruct ((0 <=? op) && (op <=? 127)); [injection Har as <-; lia|].
  destruct (Z.eqb_spec op 0xA0) as [->|Hrot].
  - assert (Har' : arity 0xA0 (colorstack s c) = Some a) by exact Har.
    destruct (turn_underflow_rot c s a Hrun Hop Har' Hlen) as [E | [E0 E]];
      rewrite E; eexists; exists "rot"%string;
      (split; [reflexivity|]); (split; [reflexivity|]);
      rewrite advance_stack, advance_stat, advance_ip, bump_same;
      cbn; rewrite ?upd_same; try rewrite E0; repeat split; reflexivity.
  - destruct (turn_underflow_fixed c s op a Hrun Hop Har Hlen)
      as (name & Hname & E).
    rewrite E. eexists. exists name.
    split; [reflexivity|]. split; [exact Hname|].
    rewrite advance_stack, advance_stat, advance_ip, bump_same.
    unfold after_underflow. apply Z.eqb_neq in Hrot. rewrite Hrot.
    repeat split; reflexivity.
Qed.

Lemma underflow_turn_witness :
  exists s' name,
    turn R (start 1 false (fun _ => [0x80]) []) = Ok s' /\
    dict_get disasmdict 0x80 = Some name /\
    colorstack s' R = [] /\
    colorstat s' R name = 1 /\
    colorip s' R = 1.
Proof.
  exact (underflow_turn R (start 1 false (fun _ => [0x80]) []) 0x80 2
           eq_refl eq_refl eq_refl eq_refl).
Defined.

(** C4 as stated fails for [rot]: with the stack [5, 3] the count 3
    asks for arity 4 where the depth is 2, and the instruction does
    not leave the stack as it was: the count is gone. *)
Lemma rot_underflow_drops_count :
  exists s2 s3,
    iterations 2 (start 4 false rot_program []) = Ok (s2, false) /\
    iterations 3 (start 4 false rot_program []) = Ok (s3, false) /\
    Py.index (colorcode s2 R) (colorip s2 R) = Ok 0xA0 /\
    arity 0xA0 (colorstack s2 R) = Some 4 /\
    Py.len (colorstack s2 R) < 4 /\
    colorstack s2 R = [5; 3] /\
    colorstack s3 R = [5] /\
    colorstack s3 R <> colorstack s2 R.
Proof.
  eexists. eexists.
  split; [vm_compute; reflexivity|]. split; [vm_compute; reflexivity|].
  cbn. repeat split. discriminate.
Qed.

(** ** The frame of [colorexec] *)

(** Splits a successful run of binds and tests into its branches. *)
Ltac branches :=
  repeat match goal with
         | H : Ok (_, _) = Ok (_, _) |- _ => injection H as <- <-
         | H : Ok _ = Ok _ |- _ => injection H as <-
         | H : Raise _ = Ok _ |- _ => discriminate H
         | H : bind ?m _ = Ok _ |- _ =>
             let E := fresh "E" in
             destruct m eqn:E; cbn [bind] in H; [|discriminate H]
         | H : (let (_, _) := ?p in _) = Ok _ |- _ => destruct p
         | H : (if ?b then _ else _) = Ok _ |- _ =>
             let E := fresh "E" in destruct b eqn:E
         | H : match ?x with [] => _ | _ :: _ => _ end = Ok _ |- _ =>
             let E := fresh "E" in destruct x eqn:E
         | H : match ?x with EmptyString => _ | String _ _ => _ end = Ok _
           |- _ => destruct x
         end.

Ltac setters :=
  unfold bump, set_stack, set_alpha, set_state, set_ip, set_waitstack,
    set_stdin, emit in *;
  cbn [size args_silent colorcode colorstack colorstack_a colorstate
       colorip colorstat waitstack stdin console] in *.

Lemma frame_refl (c : color) (s : vm) : frame c s s.
Proof. unfold frame. repeat split; auto. Qed.

Ltac frame_goal :=
  unfold frame;
  repeat match goal with
         | |- context [if ?b then _ else _] => destruct b
         end;
  setters;
  repeat match goal with
         | |- _ /\ _ => split
         | |- forall _, _ => intro
         | H : ?c' <> ?c |- context [upd _ ?c _ ?c'] =>
             rewrite (upd_other _ c c') by congruence
         | |- context [upd _ ?c _ ?c] => rewrite upd_same
         end;
  auto.

Lemma colorexec_frame (c : color) (s s' : vm) :
  colorexec c s = Ok s' -> frame c s s'.
Proof.
  unfold colorexec, counted, binop, unop, exec_pop, exec_swap, exec_dup,
    exec_rot, exec_jmp, exec_outc, exec_inc, exec_outi, exec_ini,
    exec_pusha, exec_waita, exec_invalid, mesg, input.
  cbv zeta. intro H. branches; frame_goal.
  all: try (right; right;
            first [right; lia | left];
            repeat match goal with
                   | H : _ && _ = true |- _ =>
                       apply andb_true_iff in H; destruct H
                   | H : (_ <=? _) = true |- _ => apply Z.leb_le in H
                   | H : (_ <? _) = true |- _ => apply Z.ltb_lt in H
                   end; lia).
  right. split; [now apply Z.leb_gt | reflexivity].
Qed.

(** ** The address invariant *)

Lemma color_eq_dec (a b : color) : {a = b} + {a <> b}.
Proof. decide equality. Qed.

Lemma advance_other (c c' : color) (s : vm) :
  c' <> c ->
  colorip (advance c s) c' = colorip s c' /\
  colorstate (advance c s) c' = colorstate s c'.
Proof.
  intro H. unfold advance. destruct (_ =? _); cbn;
    rewrite ?(upd_other _ c c') by congruence; auto.
Qed.

(** The increment after an instruction re-establishes the invariant
    for a thread that was not in OVERRUN. *)
Lemma advance_invariant (sz : Z) (c : color) (s s1 : vm) :
  invariant sz s ->
  colorstate s c <> OVERRUN ->
  frame c s s1 ->
  invariant sz (advance c s1).
Proof.
  intros [Hsz Hinv] Hlive (Fsz & Foth & Fst & Fip & _).
  split; [rewrite advance_size; congruence|].
  intro c'. destruct (color_eq_dec c' c) as [->|Hne].
  - rewrite advance_ip, advance_state. rewrite Fsz, Hsz.
    destruct (Hinv c) as [Hr Hov].
    assert (colorip s c <> sz) by (intro E; apply Hlive, Hov, E).
    split; [lia|].
    destruct (Z.eqb_spec (colorip s1 c + 1) sz) as [E|E].
    + split; auto.
    + split; [|intro; contradiction].
      intro Hover. destruct Fst as [F|[F|[F|F]]]; congruence.
  - destruct (advance_other c c' s1 Hne) as [-> ->].
    destruct (Foth c' Hne) as [-> ->]. apply Hinv.
Qed.

Lemma invariant_ext (sz : Z) (s s' : vm) :
  size s' = size s -> colorip s' = colorip s ->
  colorstate s' = colorstate s ->
  invariant sz s -> invariant sz s'.
Proof.
  intros H1 H2 H3 [Hsz Hinv]. split; [congruence|].
  intro c. rewrite H2, H3. apply Hinv.
Qed.

Lemma turn_invariant (sz : Z) (c : color) (s s' : vm) :
  turn c s = Ok s' -> invariant sz s -> invariant sz s'.
Proof.
  unfold turn. intros H Hinv.
  destruct (colorstate s c) eqn:Hst; cbn [tstate_eqb] in H; branches;
    try exact Hinv.
  (* left: the three RUNNING cases and the AWAIT case that resumes;
     where the turn does nothing, or only counts, [exact] closes it *)
  - (* RUNNING, nop *)
    apply (advance_invariant sz c s); [exact Hinv | congruence |].
    frame_goal.
  - (* RUNNING, halt *)
    destruct Hinv as [Hsz Hinv]. split; [exact Hsz|].
    intro c'. setters. destruct (color_eq_dec c' c) as [->|Hne].
    + rewrite upd_same. destruct (Hinv c) as [Hr Hov]. split; [exact Hr|].
      split; [discriminate|]. intro Hip. apply Hov in Hip. congruence.
    + rewrite (upd_other _ c c') by congruence. apply Hinv.
  - (* RUNNING, colorexec *)
    apply (advance_invariant sz c s); [exact Hinv | congruence |].
    now apply colorexec_frame.
  - (* AWAIT at the head, data on the alpha stack *)
    match goal with
    | E : colorexec c ?s0 = Ok _ |- _ =>
        apply (advance_invariant sz c s0);
          [ apply (invariant_ext sz s); auto
          | cbn; congruence
          | now apply colorexec_frame ]
    end.
Qed.

Lemma for_colors_invariant (sz : Z) (cs : list color) (s s' : vm) :
  for_colors cs s = Ok s' -> invariant sz s -> invariant sz s'.
Proof.
  revert s. induction cs as [|c t IH]; intros s H Hinv; cbn in H.
  - now injection H as <-.
  - destruct (turn c s) as [s1|] eqn:E; cbn in H; [|discriminate].
    eauto using turn_invariant.
Qed.

Lemma mesg_invariant (sz : Z) (m : message) (s : vm) :
  invariant sz s -> invariant sz (mesg m s).
Proof.
  intro H. unfold mesg. destruct (args_silent s); [exact H|].
  apply (invariant_ext sz s); auto.
Qed.

Lemma iteration_invariant (sz : Z) (s s' : vm) (t : bool) :
  iteration s = Ok (s', t) -> invariant sz s -> invariant sz s'.
Proof.
  unfold iteration. intros H Hinv.
  destruct (for_colors colors s) as [s1|] eqn:E; cbn [bind] in H;
    [|discriminate].
  pose proof (for_colors_invariant sz colors s s1 E Hinv) as H1.
  destruct (_ =? 0); [destruct (negb _)|];
    injection H as <- <-; auto using mesg_invariant.
Qed.

Lemma iterations_invariant (sz : Z) (n : nat) (s s' : vm) (t : bool) :
  iterations n s = Ok (s', t) -> invariant sz s -> invariant sz s'.
Proof.
  revert s' t. induction n as [|k IH]; intros s' t H Hinv; cbn in H.
  - now injection H as <- <-.
  - destruct (iterations k s) as [[s1 t1]|] eqn:E; cbn in H; [|discriminate].
    destruct t1.
    + injection H as <- <-. eauto.
    + eauto using iteration_invariant.
Qed.

Lemma start_invariant (sz : Z) (silent : bool) (code : color -> list Z)
    (lines : list string) :
  1 <= sz -> invariant sz (start sz silent code lines).
Proof.
  intro H. split; [reflexivity|]. intro c. cbn.
  split; [lia|]. split; [discriminate | lia].
Qed.

(** C5.  For a program of at least one cell (the loader exits on
    size 0), after every iteration of the main sequence that
    completes, each colour has [0 <= ip <= size], and is in OVERRUN
    if and only if [ip = size]. *)
Theorem invariant_after_every_iteration (sz : Z) (silent : bool)
    (code : color -> list Z) (lines : list string)
    (n : nat) (s' : vm) (t : bool) :
  1 <= sz ->
  iterations n (start sz silent code lines) = Ok (s', t) ->
  size s' = sz /\
  forall c, 0 <= colorip s' c <= sz /\
            (colorstate s' c = OVERRUN <-> colorip s' c = sz).
Proof.
  intros Hsz H.
  exact (iterations_invariant sz n _ s' t H
           (start_invariant sz silent code lines Hsz)).
Qed.

Lemma invariant_after_every_iteration_witness :
  exists s' t,
    iterations 3 (start 4 false jump_out_program []) = Ok (s', t) /\
    size s' = 4 /\
    forall c, 0 <= colorip s' c <= 4 /\
              (colorstate s' c = OVERRUN <-> colorip s' c = 4).
Proof.
  eexists. eexists. split; [vm_compute; reflexivity|].
  eapply (invariant_after_every_iteration 4 false jump_out_program [] 3);
    [lia | vm_compute; reflexivity].
Defined.

(** ** Counting [waita] *)

Lemma index_head {A : Type} (x : A) (l : list A) : Py.index (x :: l) 0 = Ok x.
Proof.
  unfold Py.index. cbn [Z.ltb Z.compare].
  replace ((0 <=? 0) && (0 <? Py.len (x :: l))) with true; [reflexivity|].
  symmetry. apply andb_true_iff. split; [reflexivity|].
  apply Z.ltb_lt. unfold Py.len. cbn [List.length]. lia.
Qed.

Lemma colorexec_waita (c : color) (s : vm) :
  Py.index (colorcode s c) (colorip s c) = Ok 0xE0 ->
  colorexec c s = counted c "waita" (exec_waita c s).
Proof. intro Hop. unfold colorexec. now rewrite Hop. Qed.

(** [waita] itself never fails and leaves the counters to its caller. *)
Lemma exec_waita_ok (c : color) (s : vm) :
  exists s1, exec_waita c s = Ok s1 /\ colorstat s1 = colorstat s.
Proof.
  unfold exec_waita. destruct (1 <=? Py.len (colorstack_a s)) eqn:E.
  - apply Z.leb_le in E. destruct (last_split _ E) as (t & v & ->).
    rewrite pop_append. cbn [bind]. eexists. split; reflexivity.
  - eexists. split; reflexivity.
Qed.

(** C2, as the code has it.  The counter ["waita"] of a thread whose
    address holds [waita] goes up by one at each turn in which the
    thread is RUNNING (whether it reads a value or suspends), by one
    at each turn in which it is waiting at the head of the queue and
    the alpha stack is empty, and by two at the turn in which it is
    resumed.  A suspension followed by a resumption thus counts for
    three or more, not for one. *)
Theorem waita_counter_steps (c : color) (s : vm) :
  Py.index (colorcode s c) (colorip s c) = Ok 0xE0 ->
  (colorstate s c = RUNNING ->
   exists s', turn c s = Ok s' /\
              colorstat s' c "waita" = colorstat s c "waita" + 1) /\
  (colorstate s c = AWAIT -> (exists w, waitstack s = c :: w) ->
   exists s', turn c s = Ok s' /\
              colorstat s' c "waita" =
              colorstat s c "waita"
              + (if 1 <=? Py.len (colorstack_a s) then 2 else 1)).
Proof.
  intro Hop. split.
  - intro Hrun.
    rewrite (turn_running c s _ Hrun Hop) by discriminate.
    rewrite (colorexec_waita c s Hop).
    destruct (exec_waita_ok c s) as (s1 & -> & Hstat).
    cbn [counted bind]. eexists. split; [reflexivity|].
    now rewrite advance_stat, bump_same, Hstat.
  - intros Hwait (w & Hw). unfold turn.
    rewrite Hwait, Hop, Hw. cbn [tstate_eqb bind].
    rewrite index_head. cbn [bind]. rewrite color_eqb_refl.
    change (colorstack_a (bump c "waita" s)) with (colorstack_a s).
    change (waitstack (bump c "waita" s)) with (waitstack s). rewrite Hw.
    destruct (1 <=? Py.len (colorstack_a s)).
    + cbn [Py.pop0 bind].
      rewrite (colorexec_waita c (set_waitstack w (bump c "waita" s)) Hop).
      destruct (exec_waita_ok c (set_waitstack w (bump c "waita" s)))
        as (s1 & -> & Hstat).
      cbn [counted bind]. eexists. split; [reflexivity|].
      rewrite advance_stat, bump_same, Hstat.
      change (colorstat (set_waitstack w (bump c "waita" s)))
        with (colorstat (bump c "waita" s)).
      rewrite bump_same. lia.
    + eexists. split; [reflexivity|]. apply bump_same.
Qed.

Lemma waita_counter_steps_witness :
  exists s',
    turn G (start 3 false rendezvous_program []) = Ok s' /\
    colorstat s' G "waita" = 1.
Proof.
  exact (proj1 (waita_counter_steps G (start 3 false rendezvous_program [])
                  eq_refl) eq_refl).
Defined.

(** C2 as stated fails: in the rendezvous program G executes [waita]
    once (it suspends in the first iteration and is resumed in the
    second), and its counter ends at 3. *)
Lemma waita_counted_three_times :
  exists s' t,
    iterations 4 (start 3 false rendezvous_program []) = Ok (s', t) /\
    completed_waita G 4 (start 3 false rendezvous_program []) = Ok 1 /\
    colorstat s' G "waita" = 3 /\
    Ok (colorstat s' G "waita")
    <> completed_waita G 4 (start 3 false rendezvous_program []).
Proof.
  eexists. eexists. split; [vm_compute; reflexivity|].
  split; [vm_compute; reflexivity|].
  split; [vm_compute; reflexivity|].
  vm_compute. discriminate.
Qed.

(** ** Service of the wait queue *)

Lemma index_zero_head {A : Type} (l : list A) (h : A) :
  Py.index l 0 = Ok h -> exists t, l = h :: t.
Proof.
  destruct l as [|x t]; [discriminate|].
  rewrite index_head. intro H. injection H as ->. now exists t.
Qed.

(** What a turn does to the wait queue: a resumption takes the colour
    from its head; any other turn leaves the queue alone or queues
    the colour behind it. *)
Lemma turn_queue (c : color) (s s' : vm) :
  turn c s = Ok s' ->
  (resumes c s = true /\ waitstack s = c :: waitstack s') \/
  (resumes c s = false /\
   (waitstack s' = waitstack s \/ waitstack s' = waitstack s ++ [c])).
Proof.
  unfold turn, resumes. intro H.
  destruct (colorstate s c) eqn:Hst; cbn [tstate_eqb andb] in H |- *;
    branches; auto.
  - (* RUNNING, nop *)
    right. split; [reflexivity|]. left. now rewrite advance_waitstack.
  - (* RUNNING, colorexec *)
    right. split; [reflexivity|]. rewrite advance_waitstack.
    match goal with
    | E : colorexec _ _ = Ok _ |- _ =>
        destruct (colorexec_frame _ _ _ E) as (_ & _ & _ & _ & [F|[_ F]])
    end; auto.
  - (* AWAIT at the head, data on the alpha stack *)
    match goal with
    | E : Py.index (waitstack s) 0 = Ok _ |- _ =>
        destruct (index_zero_head _ _ E) as (w & Hw)
    end.
    match goal with
    | E : color_eqb _ _ = true |- _ => apply color_eqb_eq in E; subst
    end.
    setters. rewrite Hw in *. rewrite color_eqb_refl.
    match goal with
    | E : (1 <=? _) = true |- _ => rewrite E
    end.
    left. split; [reflexivity|]. rewrite advance_waitstack.
    match goal with
    | E : Py.pop0 _ = Ok _ |- _ => cbn in E; injection E as <- <-
    end.
    match goal with
    | E : colorexec _ _ = Ok _ |- _ =>
        destruct (colorexec_frame _ _ _ E) as (_ & _ & _ & _ & [F|[F _]])
    end.
    + now rewrite F.
    + exfalso. cbn in F.
      match goal with
      | E : (1 <=? _) = true |- _ => apply Z.leb_le in E; lia
      end.
  - (* AWAIT at the head, nothing to read *)
    right. split; [|now left].
    match goal with
    | E : (1 <=? _) = false |- _ => cbn in E; rewrite E
    end.
    apply andb_false_r.
  - (* AWAIT behind another colour *)
    right. split; [|now left].
    match goal with
    | E : Py.index (waitstack s) 0 = Ok _ |- _ =>
        destruct (index_zero_head _ _ E) as (w & ->)
    end.
    match goal with
    | E : color_eqb _ _ = false |- _ => now rewrite E
    end.
Qed.

Lemma resumed_incl (cs : list color) (s : vm) (l : list color) :
  resumed cs s = Ok l -> incl l cs.
Proof.
  revert s l. induction cs as [|c t IH]; intros s l H; cbn in H.
  - injection H as <-. apply incl_refl.
  - destruct (turn c s) as [s1|]; cbn in H; [|discriminate].
    destruct (resumed t s1) as [l1|] eqn:E; cbn in H; [|discriminate].
    injection H as <-. specialize (IH _ _ E).
    destruct (resumes c s).
    + intros x [->|Hx]; [now left | right; auto].
    + now apply incl_tl.
Qed.

Lemma resumed_prefix_of (cs : list color) :
  NoDup cs ->
  forall s l, resumed cs s = Ok l -> exists rest, waitstack s = l ++ rest.
Proof.
  induction 1 as [|c t Hnotin Hnodup IH]; intros s l H; cbn in H.
  - injection H as <-. now exists (waitstack s).
  - destruct (turn c s) as [s1|] eqn:Et; cbn in H; [|discriminate].
    destruct (resumed t s1) as [l1|] eqn:El; cbn in H; [|discriminate].
    injection H as <-.
    destruct (IH _ _ El) as (rest1 & Hq).
    destruct (turn_queue c s s1 Et) as [[-> Hs] | [-> [Hs|Hs]]].
    + exists rest1. rewrite Hs, Hq. reflexivity.
    + exists rest1. congruence.
    + rewrite Hs in Hq.
      destruct (snoc_cases rest1) as [-> | (r & x & ->)].
      * exfalso. apply Hnotin. apply (resumed_incl t s1 l1 El).
        rewrite app_nil_r in Hq. rewrite <- Hq.
        apply in_or_app. right. now left.
      * rewrite app_assoc in Hq. apply app_inj_tail in Hq.
        destruct Hq as [Hq _]. now exists r.
Qed.

Lemma colors_nodup : NoDup colors.
Proof.
  unfold colors. repeat constructor; cbn; intuition discriminate.
Qed.

(** ** Reading cells outside the image *)

Lemma getpixel_error (img : image) (x y : Z) (e : exn) :
  getpixel img x y = Raise e -> e = IndexError.
Proof.
  unfold getpixel. destruct (inside _ _ _); [|congruence].
  destruct (pixels _ _ _) as [[? ?] ?]. discriminate.
Qed.

Lemma getpixel_outside (img : image) (x y : Z) :
  0 <= x -> 0 <= y -> inside img x y = false ->
  getpixel img x y = Raise IndexError.
Proof.
  intros Hx Hy H. unfold getpixel.
  replace (x <? 0) with false by (symmetry; apply Z.ltb_ge; lia).
  replace (y <? 0) with false by (symmetry; apply Z.ltb_ge; lia).
  now rewrite H.
Qed.

Lemma getpixel_nonneg (img : image) (x y r g b : Z) :
  getpixel img x y = Ok (r, g, b) -> 0 <= r /\ 0 <= g /\ 0 <= b.
Proof.
  unfold getpixel. destruct (inside _ _ _); [|discriminate].
  destruct (pixels _ _ _) as [[? ?] ?]. intro H. injection H as <- <- <-. lia.
Qed.

Lemma header_cellsize_nonneg (img : image) (cellsize sz : Z) :
  header img = Ok (inr (cellsize, sz)) -> 0 <= cellsize.
Proof.
  unfold header. destruct (getpixel img 0 0) as [[[maj mnr] cs]|] eqn:E;
    cbn [bind]; [|discriminate].
  destruct (_ || _); [discriminate|].
  destruct (if imgxsize img =? cs then _ else _) as [[[? ?] ?]|];
    cbn [bind]; [|discriminate].
  intro H. injection H as <- _. now apply getpixel_nonneg in E.
Qed.

Lemma first_cell_nonneg (cellsize sz : Z) :
  0 <= cellsize ->
  0 <= fst (first_cell cellsize sz) /\ 0 <= snd (first_cell cellsize sz).
Proof.
  intro H. unfold first_cell.
  destruct (sz =? 1); [|destruct (_ && _)]; cbn [fst snd]; lia.
Qed.

Lemma next_cell_nonneg (img : image) (cellsize : Z) (p : Z * Z) :
  0 <= cellsize -> 0 <= fst p -> 0 <= snd p ->
  0 <= fst (next_cell img cellsize p) /\ 0 <= snd (next_cell img cellsize p).
Proof.
  intros. unfold next_cell. destruct (_ >? _); cbn [fst snd]; lia.
Qed.

Lemma read_cells_outside (img : image) (cellsize : Z) (k : nat) :
  0 <= cellsize ->
  forall (n : nat) (p : Z * Z) (code : color -> list Z),
    (k < n)%nat -> 0 <= fst p -> 0 <= snd p ->
    inside img (fst (nth_cell k img cellsize p))
               (snd (nth_cell k img cellsize p)) = false ->
    read_cells n img cellsize p code = Raise IndexError.
Proof.
  intro Hc. induction k as [|j IH]; intros n p code Hk Hx Hy Hout;
    (destruct n as [|m]; [lia|]); cbn [read_cells nth_cell] in *.
  - now rewrite (getpixel_outside img _ _ Hx Hy Hout).
  - destruct (getpixel img (fst p) (snd p)) as [[[cr cg] cb]|e] eqn:E;
      cbn [bind].
    + destruct (next_cell_nonneg img cellsize p Hc Hx Hy).
      apply IH; auto. lia.
    + now rewrite (getpixel_error _ _ _ _ E).
Qed.

(** C9, as the code has it.  Once the two metadata cells are read
    and the version accepted, if one of the first [size] cells of the
    walk lies outside the image, loading ends in the [IndexError] that
    [getpixel] raises there; no code array is produced, and the script
    has no error report of its own for this case. *)
Theorem walk_outside_raises (img : image) (cellsize sz : Z) (k : nat) :
  header img = Ok (inr (cellsize, sz)) ->
  (k < Z.to_nat sz)%nat ->
  inside img (fst (nth_cell k img cellsize (first_cell cellsize sz)))
             (snd (nth_cell k img cellsize (first_cell cellsize sz))) = false ->
  decode img = Raise IndexError /\ reported (decode img) = None.
Proof.
  intros Hh Hk Hout.
  assert (E : decode img = Raise IndexError).
  { unfold decode. rewrite Hh. cbn [bind].
    replace (sz =? 0) with false by (symmetry; apply Z.eqb_neq; lia).
    pose proof (header_cellsize_nonneg img cellsize sz Hh) as Hc.
    destruct (first_cell_nonneg cellsize sz Hc) as [Hx Hy].
    now rewrite (read_cells_outside img cellsize k Hc _ _ _ Hk Hx Hy Hout). }
  now rewrite E.
Qed.

Lemma walk_outside_raises_witness :
  decode short_image = Raise IndexError /\ reported (decode short_image) = None.
Proof.
  apply (walk_outside_raises short_image 1 7 1);
    [reflexivity | vm_compute; lia | reflexivity].
Defined.

(** C9 as stated fails: the walk of [short_image] leaves the image
    after its first cell, and loading does not stop with a report of
    the decoder; it dies on the library's [IndexError]. *)
Lemma short_image_no_decoder_error :
  header short_image = Ok (inr (1, 7)) /\
  nth_cell 1 short_image 1 (first_cell 1 7) = (0, 1) /\
  inside short_image 0 1 = false /\
  decode short_image = Raise IndexError /\
  (forall m, decode short_image <> Ok (Stopped m)) /\
  reported (decode short_image) <> Some ImageTooSmall.
Proof.
  assert (E : decode short_image = Raise IndexError) by reflexivity.
  repeat split; rewrite ?E; try reflexivity; intros; discriminate.
Qed.

(** ** Programs that come out of the loader *)

Lemma header_size_nonneg (img : image) (cellsize sz : Z) :
  header img = Ok (inr (cellsize, sz)) -> 0 <= sz.
Proof.
  unfold header. destruct (getpixel img 0 0) as [[[maj mnr] cs]|];
    cbn [bind]; [|discriminate].
  destruct (_ || _); [discriminate|].
  destruct (if imgxsize img =? cs then _ else _) as [[[s3 s2] s1]|] eqn:E;
    cbn [bind]; [|discriminate].
  intro H. injection H as _ <-.
  assert (0 <= s3 /\ 0 <= s2 /\ 0 <= s1) as (H3 & H2 & H1).
  { destruct (imgxsize img =? cs); now apply getpixel_nonneg in E. }
  lia.
Qed.

(** A loaded program has at least one cell. *)
Lemma decode_size_positive (img : image) (sz : Z) (code : color -> list Z) :
  decode img = Ok (Program sz code) -> 1 <= sz.
Proof.
  unfold decode. destruct (header img) as [[m|[cs sz0]]|] eqn:E;
    cbn [bind]; try discriminate.
  destruct (Z.eqb_spec sz0 0) as [|Hnz]; [discriminate|].
  destruct (read_cells _ _ _ _ _); cbn [bind]; [|discriminate].
  intro H. injection H as <- _.
  pose proof (header_size_nonneg img cs sz0 E). lia.
Qed.

(** The invariant holds along every run of a program the loader
    has produced. *)
Corollary loaded_program_invariant (img : image) (sz : Z)
    (code : color -> list Z) (silent : bool) (lines : list string)
    (n : nat) (s' : vm) (t : bool) :
  decode img = Ok (Program sz code) ->
  iterations n (start sz silent code lines) = Ok (s', t) ->
  invariant sz s'.
Proof.
  intros Hd H. apply (iterations_invariant sz n _ s' t H).
  apply start_invariant. exact (decode_size_positive img sz code Hd).
Qed.

(** * Further properties of the interpreter *)

(** ** Threads are separate *)

(** Reads the fields of updated globals without writing the updates
    out. *)
Ltac fields :=
  lazy beta iota zeta delta
    [size args_silent colorcode colorstack colorstack_a colorstate colorip
     colorstat waitstack stdin console bump set_stack set_alpha set_state
     set_ip set_waitstack set_stdin emit].

Ltac fields_all :=
  lazy beta iota zeta delta
    [size args_silent colorcode colorstack colorstack_a colorstate colorip
     colorstat waitstack stdin console bump set_stack set_alpha set_state
     set_ip set_waitstack set_stdin emit] in *.

Ltac apart_goal :=
  unfold apart;
  repeat match goal with
         | |- context [if ?b then _ else _] => destruct b eqn:?
         end;
  fields;
  repeat match goal with
         | |- _ /\ _ => split
         | |- forall _, _ => intro
         | H : ?c' <> ?c |- context [upd _ ?c _ ?c'] =>
             rewrite (upd_other _ c c') by congruence
         end;
  auto; try congruence.

Lemma colorexec_apart (c : color) (s s' : vm) :
  colorexec c s = Ok s' -> apart c s s'.
Proof.
  unfold colorexec, counted, binop, unop, exec_pop, exec_swap, exec_dup,
    exec_rot, exec_jmp, exec_outc, exec_inc, exec_outi, exec_ini,
    exec_pusha, exec_waita, exec_invalid, mesg, input.
  cbv zeta. intro H. branches; apart_goal.
Qed.

Lemma apart_refl (c : color) (s : vm) : apart c s s.
Proof. unfold apart. repeat split; auto. Qed.

Lemma apart_trans (c : color) (s1 s2 s3 : vm) :
  apart c s1 s2 -> apart c s2 s3 -> apart c s1 s3.
Proof.
  intros (A1 & A2 & A3 & A4) (B1 & B2 & B3 & B4).
  unfold apart. repeat split; try congruence;
    destruct (A4 c' H) as (? & ? & ? & ?);
    destruct (B4 c' H) as (? & ? & ? & ?); congruence.
Qed.

Lemma advance_apart (c : color) (s : vm) : apart c s (advance c s).
Proof. unfold advance. apart_goal. Qed.

Lemma turn_others (c : color) (s s' : vm) :
  turn c s = Ok s' -> apart c s s'.
Proof.
  unfold turn. intro H.
  destruct (colorstate s c) eqn:Hst; cbn [tstate_eqb] in H; branches;
    try apply apart_refl.
  - eapply apart_trans; [|apply advance_apart]. apart_goal.
  - apart_goal.
  - eapply apart_trans; [|apply advance_apart]. now apply colorexec_apart.
  - eapply apart_trans; [|apply advance_apart].
    eapply apart_trans; [|eapply colorexec_apart; eassumption]. apart_goal.
  - apart_goal.
Qed.

(** X1.  The turn of one colour never touches the program, nor the stack,
    address, state or counters of another colour. *)
Theorem turn_apart (c : color) (s s' : vm) :
  turn c s = Ok s' -> apart c s s'.
Proof. intro H. apply turn_others. exact H. Qed.

Lemma turn_apart_witness :
  exists s',
    turn G (start 3 false rendezvous_program []) = Ok s' /\
    apart G (start 3 false rendezvous_program []) s'.
Proof.
  eexists. split; [reflexivity|]. apply turn_apart. reflexivity.
Defined.

(** ** One counter per instruction *)

Ltac stat_goal :=
  intros;
  repeat match goal with
         | |- context [colorstat (advance _ _)] => rewrite advance_stat
         end;
  repeat match goal with
         | |- context [if ?b then _ else _] =>
             lazymatch b with
             | String.eqb _ _ => fail
             | _ => destruct b eqn:?
             end
         end;
  fields; rewrite ?upd_same;
  repeat match goal with
         | |- context [String.eqb ?a ?b] => destruct (String.eqb a b)
         end;
  lia.

(** X2.  A successful turn of a running thread adds one to exactly one
    counter of that thread: ["push"] for a literal, the mnemonic of
    [disasmdict] for an assigned byte; on any other byte no counter
    changes. *)
Theorem turn_counts_once (c : color) (s s' : vm) (op : Z) :
  colorstate s c = RUNNING ->
  Py.index (colorcode s c) (colorip s c) = Ok op ->
  turn c s = Ok s' ->
  match counter_of op with
  | Some name =>
      forall k, colorstat s' c k =
                colorstat s c k + (if String.eqb name k then 1 else 0)
  | None => forall k, colorstat s' c k = colorstat s c k
  end.
Proof.
  intros Hrun Hop. unfold turn. rewrite Hrun, Hop. cbn [tstate_eqb bind].
  unfold colorexec. rewrite Hop. cbn [bind].
  unfold counted, binop, unop, exec_pop, exec_swap, exec_dup,
    exec_rot, exec_jmp, exec_outc, exec_inc, exec_outi, exec_ini,
    exec_pusha, exec_waita, exec_invalid, mesg, input.
  cbv zeta. intro H. unfold counter_of, disasmdict. cbn [dict_get].
  branches.
  all: repeat match goal with
         | E : (?x =? ?k) = true |- _ => apply Z.eqb_eq in E; subst x
         end.
  all: try match goal with
           | E : (_ <=? _) && (_ <=? _) = _ |- _ => rewrite E
           end.
  all: repeat match goal with
         | E : (?x =? ?k) = false |- context [?k =? ?x] =>
             rewrite (Z.eqb_sym k x), E
         end.
  all: try match goal with
           | |- match ?e with _ => _ end =>
               let v := eval vm_compute in e in change e with v
           end.
  all: cbv iota beta.
  all: try (stat_goal; fail).
Qed.

Lemma turn_counts_once_witness :
  exists s',
    turn R (start 3 false rendezvous_program []) = Ok s' /\
    forall k, colorstat s' R k =
              colorstat (start 3 false rendezvous_program []) R k
              + (if String.eqb "push" k then 1 else 0).
Proof.
  eexists. split; [reflexivity|].
  exact (turn_counts_once R (start 3 false rendezvous_program []) _ 42
           eq_refl eq_refl eq_refl).
Defined.

(** ** The alpha stack *)

(** X3.  A turn that changes the alpha stack is the turn of a thread
    whose address holds [pusha] or [waita]. *)
Theorem alpha_changes_only_by_pusha_waita (c : color) (s s' : vm) :
  turn c s = Ok s' ->
  colorstack_a s' <> colorstack_a s ->
  Py.index (colorcode s c) (colorip s c) = Ok 0xDC \/
  Py.index (colorcode s c) (colorip s c) = Ok 0xE0.
Proof.
  unfold turn, colorexec, counted, binop, unop, exec_pop, exec_swap, exec_dup,
    exec_rot, exec_jmp, exec_outc, exec_inc, exec_outi, exec_ini,
    exec_pusha, exec_waita, exec_invalid, mesg, input.
  cbv zeta. intros H Hne.
  destruct (colorstate s c) eqn:Hst; cbn [tstate_eqb] in H; branches.
  all: try (exfalso; apply Hne; rewrite ?advance_alpha;
            repeat match goal with
                   | |- context [if ?b then _ else _] => destruct b
                   end; reflexivity).
  all: fields_all;
       repeat match goal with
              | E : (?x =? ?k) = true |- _ => apply Z.eqb_eq in E; subst x
              end;
       first [left; congruence | right; congruence].
Qed.

Lemma alpha_changes_only_by_pusha_waita_witness :
  exists s1 s2,
    iterations 1 (start 3 false rendezvous_program []) = Ok (s1, false) /\
    turn R s1 = Ok s2 /\
    (Py.index (colorcode s1 R) (colorip s1 R) = Ok 0xDC \/
     Py.index (colorcode s1 R) (colorip s1 R) = Ok 0xE0).
Proof.
  eexists. eexists. split; [vm_compute; reflexivity|].
  split; [vm_compute; reflexivity|].
  eapply alpha_changes_only_by_pusha_waita; [vm_compute; reflexivity|].
  vm_compute. discriminate.
Defined.

(** ** Final states are final *)

Lemma turn_idle (c : color) (s s' : vm) :
  colorstate s c = HALTED \/ colorstate s c = OVERRUN ->
  turn c s = Ok s' -> s' = s.
Proof.
  intros [H|H]; unfold turn; rewrite H; cbn [tstate_eqb].
  - destruct (Py.index _ _); cbn [bind]; congruence.
  - cbn [bind]. congruence.
Qed.

(** What a thread owns: its state, stack, address and counters. *)
Lemma for_colors_final (c : color) (cs : list color) (s s' : vm) :
  colorstate s c = HALTED \/ colorstate s c = OVERRUN ->
  for_colors cs s = Ok s' ->
  colorstate s' c = colorstate s c /\ colorstack s' c = colorstack s c /\
  colorip s' c = colorip s c /\ colorstat s' c = colorstat s c.
Proof.
  revert s. induction cs as [|c' t IH]; intros s Hfin H; cbn in H.
  - injection H as <-. auto.
  - destruct (turn c' s) as [s1|] eqn:E; cbn in H; [|discriminate].
    destruct (color_eq_dec c c') as [<-|Hne].
    + apply (turn_idle c s s1 Hfin) in E. subst s1. now apply IH.
    + destruct (turn_others c' s s1 E) as (_ & _ & _ & A).
      destruct (A c Hne) as (A1 & A2 & A3 & A4).
      destruct (IH s1) as (B1 & B2 & B3 & B4); [congruence | exact H |].
      repeat split; congruence.
Qed.

Lemma iteration_final (c : color) (s s' : vm) (t : bool) :
  colorstate s c = HALTED \/ colorstate s c = OVERRUN ->
  iteration s = Ok (s', t) ->
  colorstate s' c = colorstate s c /\ colorstack s' c = colorstack s c /\
  colorip s' c = colorip s c /\ colorstat s' c = colorstat s c.
Proof.
  intros Hfin H. unfold iteration in H.
  destruct (for_colors colors s) as [s1|] eqn:E; cbn [bind] in H;
    [|discriminate].
  pose proof (for_colors_final c colors s s1 Hfin E) as F.
  unfold mesg in H.
  destruct (_ =? 0); [destruct (negb _)|]; destruct (args_silent s1);
    injection H as <- <-; exact F.
Qed.

(** X4.  A thread that is HALTED or in OVERRUN stays as it is for the rest
    of the run: state, stack, address and counters no longer change. *)
Theorem final_states_are_final (c : color) (n : nat) (s s' : vm) (t : bool) :
  colorstate s c = HALTED \/ colorstate s c = OVERRUN ->
  iterations n s = Ok (s', t) ->
  colorstate s' c = colorstate s c /\ colorstack s' c = colorstack s c /\
  colorip s' c = colorip s c /\ colorstat s' c = colorstat s c.
Proof.
  intro Hfin. revert s' t. induction n as [|k IH]; intros s' t H; cbn in H.
  - injection H as <- <-. auto.
  - destruct (iterations k s) as [[s1 t1]|] eqn:E; cbn in H; [|discriminate].
    destruct (IH s1 t1 eq_refl) as (A1 & A2 & A3 & A4).
    destruct t1.
    + injection H as <- <-. auto.
    + destruct (iteration_final c s1 s' t) as (B1 & B2 & B3 & B4);
        [rewrite A1; exact Hfin | exact H |].
      repeat split; congruence.
Qed.

Lemma final_states_are_final_witness :
  exists s1 s4,
    iterations 1 (start 3 false rendezvous_program []) = Ok (s1, false) /\
    iterations 3 s1 = Ok (s4, true) /\
    colorstate s1 B = HALTED /\
    colorstate s4 B = colorstate s1 B /\ colorstack s4 B = colorstack s1 B /\
    colorip s4 B = colorip s1 B /\ colorstat s4 B = colorstat s1 B.
Proof.
  eexists. eexists. split; [vm_compute; reflexivity|].
  split; [vm_compute; reflexivity|]. split; [reflexivity|].
  eapply (final_states_are_final B 3); [left; reflexivity|].
  vm_compute; reflexivity.
Defined.

(** ** The wait queue and the AWAIT state *)

(** Either [colorexec] leaves the queue alone and the thread is not
    left waiting by it, or it has suspended the thread on a [waita]. *)
Lemma colorexec_queue (c : color) (s s1 : vm) :
  colorexec c s = Ok s1 ->
  (waitstack s1 = waitstack s /\
   (colorstate s1 c = colorstate s c \/ colorstate s1 c = RUNNING \/
    colorstate s1 c = HALTED))
  \/
  (waitstack s1 = waitstack s ++ [c] /\ colorstate s1 c = AWAIT /\
   colorip s1 c = colorip s c - 1 /\
   Py.index (colorcode s c) (colorip s c) = Ok 0xE0).
Proof.
  unfold colorexec, counted, binop, unop, exec_pop, exec_swap, exec_dup,
    exec_rot, exec_jmp, exec_outc, exec_inc, exec_outi, exec_ini,
    exec_pusha, exec_waita, exec_invalid, mesg, input.
  cbv zeta. intro H. branches.
  all: try (left;
            repeat match goal with
                   | |- context [if ?b then _ else _] => destruct b
                   end;
            fields; rewrite ?upd_same; auto; fail).
  right. fields. rewrite !upd_same.
  match goal with
  | E : (?x =? 224) = true |- _ => apply Z.eqb_eq in E; subst x
  end.
  auto.
Qed.

Lemma queue_ok_ext (s s' : vm) :
  waitstack s' = waitstack s -> colorstate s' = colorstate s ->
  colorcode s' = colorcode s -> colorip s' = colorip s ->
  queue_ok s -> queue_ok s'.
Proof.
  intros H1 H2 H3 H4 [Hnd Hq]. split; [congruence|].
  intro c. rewrite H1, H2, H3, H4. apply Hq.
Qed.

(** Re-establishing [queue_ok] after the turn of [c], when the other
    colours and the program are as before. *)
Lemma queue_ok_after (c : color) (s s' : vm) :
  queue_ok s -> apart c s s' ->
  (waitstack s' = waitstack s /\ ~ In c (waitstack s) /\
   colorstate s' c <> AWAIT)
  \/ (waitstack s' = waitstack s ++ [c] /\ ~ In c (waitstack s) /\
      colorstate s' c = AWAIT /\
      Py.index (colorcode s' c) (colorip s' c) = Ok 0xE0)
  \/ (waitstack s = c :: waitstack s' /\ colorstate s' c <> AWAIT)
  ->
  queue_ok s'.
Proof.
  intros [Hnd Hq] (_ & _ & Hcode & Hoth) Hcase.
  assert (Hother : forall c', c' <> c ->
            (colorstate s' c' = AWAIT <-> In c' (waitstack s)) /\
            (colorstate s' c' = AWAIT ->
             Py.index (colorcode s' c') (colorip s' c') = Ok 0xE0)).
  { intros c' Hne. destruct (Hoth c' Hne) as (_ & -> & -> & _).
    rewrite Hcode. apply Hq. }
  destruct Hcase as [(Hw & Hnin & Hst) | [(Hw & Hnin & Hst & Hidx)
                                         | (Hw & Hst)]].
  - split; [congruence|]. intro c'. rewrite Hw.
    destruct (color_eq_dec c' c) as [->|Hne]; [|now apply Hother].
    split; [split; intro; contradiction | intro; contradiction].
  - split.
    + rewrite Hw. apply NoDup_app; [exact Hnd | repeat constructor; cbn; tauto |].
      intros x Hx [<-|[]]. contradiction.
    + intro c'. rewrite Hw.
      destruct (color_eq_dec c' c) as [->|Hne].
      * split; [|auto]. split; auto. intro. apply in_or_app. right. now left.
      * destruct (Hother c' Hne) as [Hiff Hidx']. split; [|exact Hidx'].
        rewrite Hiff. split; intro Hin.
        -- apply in_or_app. now left.
        -- apply in_app_or in Hin. destruct Hin as [Hin|[<-|[]]]; tauto.
  - rewrite Hw in Hnd. inversion Hnd as [|x l Hnin Hnd']. subst.
    split; [exact Hnd'|]. intro c'.
    destruct (color_eq_dec c' c) as [->|Hne].
    * split; [split; intro; contradiction | intro; contradiction].
    * destruct (Hother c' Hne) as [Hiff Hidx']. split; [|exact Hidx'].
      rewrite Hiff, Hw. split; intro Hin; [|now right].
      destruct Hin as [<-|Hin]; tauto.
Qed.

Lemma turn_queue_ok (sz : Z) (c : color) (s s' : vm) :
  turn c s = Ok s' -> invariant sz s -> queue_ok s -> queue_ok s'.
Proof.
  intros Hturn Hinv Hq.
  pose proof (turn_others c s s' Hturn) as Hap.
  assert (Hnotin : colorstate s c = RUNNING -> ~ In c (waitstack s)).
  { intros Hr Hin. apply (proj2 Hq c) in Hin. congruence. }
  assert (Hlive : colorstate s c = RUNNING -> colorip s c <> size s).
  { intros Hr E. destruct Hinv as [Hsz Hi]. rewrite Hsz in E.
    apply (Hi c) in E. congruence. }
  unfold turn in Hturn.
  destruct (colorstate s c) eqn:Hst; cbn [tstate_eqb] in Hturn; branches;
    try exact Hq.
  - (* RUNNING, nop *)
    apply (queue_ok_after c s); [exact Hq | exact Hap |].
    left. rewrite advance_waitstack, advance_state.
    split; [reflexivity|]. split; [auto|].
    cbn. destruct (_ + 1 =? _); congruence.
  - (* RUNNING, halt *)
    apply (queue_ok_after c s); [exact Hq | exact Hap |].
    left. fields. rewrite upd_same. split; [reflexivity|].
    split; [auto | discriminate].
  - (* RUNNING, colorexec *)
    apply (queue_ok_after c s); [exact Hq | exact Hap |].
    match goal with
    | E : colorexec c s = Ok ?s1 |- _ =>
        destruct (colorexec_queue c s s1 E) as [(Hw & Hs) | (Hw & Hs & Hip & Hop)];
        pose proof (colorexec_apart c s s1 E) as (Hsz1 & _ & Hcode1 & _)
    end.
    + left. rewrite advance_waitstack, advance_state.
      split; [exact Hw|]. split; [auto|].
      destruct (_ + 1 =? _); [discriminate|].
      destruct Hs as [Hs|[Hs|Hs]]; congruence.
    + right. left. rewrite advance_waitstack, advance_state, advance_ip.
      split; [exact Hw|]. split; [auto|].
      rewrite Hip, Hsz1.
      replace (colorip s c - 1 + 1) with (colorip s c) by lia.
      replace (colorip s c =? size s) with false
        by (symmetry; apply Z.eqb_neq; auto).
      split; [exact Hs|].
      destruct Hap as (_ & _ & -> & _). exact Hop.
  - (* AWAIT at the head, data on the alpha stack *)
    apply (queue_ok_after c s); [exact Hq | exact Hap |].
    right. right.
    match goal with
    | E : Py.index (waitstack s) 0 = Ok _ |- _ =>
        destruct (index_zero_head _ _ E) as (w & Hw)
    end.
    match goal with
    | E : color_eqb _ _ = true |- _ => apply color_eqb_eq in E; subst
    end.
    match goal with
    | E : Py.pop0 _ = Ok _ |- _ =>
        cbn in E; rewrite Hw in E; cbn in E; injection E as <- <-
    end.
    assert (Hop : Py.index (colorcode s c) (colorip s c) = Ok 0xE0)
      by (apply (proj2 Hq c); exact Hst).
    match goal with
    | E : colorexec c ?s0 = Ok _, E1 : (1 <=? _) = true |- _ =>
        rewrite (colorexec_waita c s0 Hop) in E;
        unfold exec_waita in E; cbn in E1;
        change (colorstack_a s0) with (colorstack_a s) in E;
        rewrite E1 in E; apply Z.leb_le in E1;
        destruct (last_split _ E1) as (a' & v & Ha);
        rewrite Ha, pop_append in E; cbn [counted bind] in E;
        injection E as <-
    end.
    rewrite advance_waitstack, advance_state.
    fields. rewrite !upd_same.
    split; [exact Hw|]. destruct (_ + 1 =? _); discriminate.
Qed.

Lemma start_queue_ok (sz : Z) (silent : bool) (code : color -> list Z)
    (lines : list string) :
  queue_ok (start sz silent code lines).
Proof.
  split; [constructor|]. intro c. cbn.
  split; [split; [discriminate | contradiction] | discriminate].
Qed.

Lemma iterations_queue_ok (sz : Z) (n : nat) (s s' : vm) (t : bool) :
  iterations n s = Ok (s', t) ->
  invariant sz s -> queue_ok s -> queue_ok s'.
Proof.
  assert (Hturns : forall cs s0 s1,
            for_colors cs s0 = Ok s1 -> invariant sz s0 -> queue_ok s0 ->
            queue_ok s1).
  { induction cs as [|c cs IH]; intros s0 s1 H Hi Hq; cbn in H.
    - now injection H as <-.
    - destruct (turn c s0) as [s2|] eqn:E; cbn in H; [|discriminate].
      eapply IH; eauto using turn_invariant, turn_queue_ok. }
  assert (Hiter : forall s0 s1 t0,
            iteration s0 = Ok (s1, t0) -> invariant sz s0 -> queue_ok s0 ->
            queue_ok s1).
  { intros s0 s1 t0 H Hi Hq. unfold iteration in H.
    destruct (for_colors colors s0) as [s2|] eqn:E; cbn [bind] in H;
      [|discriminate].
    pose proof (Hturns _ _ _ E Hi Hq) as Hq2. unfold mesg in H.
    destruct (_ =? 0); [destruct (negb _)|]; destruct (args_silent s2);
      injection H as <- <-; try exact Hq2;
      apply (queue_ok_ext s2); auto. }
  revert s' t. induction n as [|k IH]; intros s' t H Hi Hq; cbn in H.
  - now injection H as <- <-.
  - destruct (iterations k s) as [[s1 t1]|] eqn:E; cbn in H; [|discriminate].
    destruct t1.
    + injection H as <- <-. eauto.
    + eapply Hiter; eauto using iterations_invariant.
Qed.

(** X5.  After every iteration of a run, a colour is in the wait queue
    exactly when its state is AWAIT, no colour is queued twice, and
    every waiting colour has its address on a [waita]. *)
Theorem queue_matches_await (sz : Z) (silent : bool)
    (code : color -> list Z) (lines : list string)
    (n : nat) (s' : vm) (t : bool) :
  1 <= sz ->
  iterations n (start sz silent code lines) = Ok (s', t) ->
  NoDup (waitstack s') /\
  forall c,
    (colorstate s' c = AWAIT <-> In c (waitstack s')) /\
    (colorstate s' c = AWAIT ->
     Py.index (colorcode s' c) (colorip s' c) = Ok 0xE0).
Proof.
  intros Hsz H.
  exact (iterations_queue_ok sz n _ s' t H
           (start_invariant sz silent code lines Hsz)
           (start_queue_ok sz silent code lines)).
Qed.

Lemma queue_matches_await_witness :
  exists s',
    iterations 3 (start 5 false two_waiters_program []) = Ok (s', false) /\
    waitstack s' = [R; B] /\
    NoDup (waitstack s') /\
    forall c,
      (colorstate s' c = AWAIT <-> In c (waitstack s')) /\
      (colorstate s' c = AWAIT ->
       Py.index (colorcode s' c) (colorip s' c) = Ok 0xE0).
Proof.
  eexists. split; [vm_compute; reflexivity|]. split; [reflexivity|].
  eapply (queue_matches_await 5 false two_waiters_program [] 3);
    [lia | vm_compute; reflexivity].
Defined.

(** ** Service of the wait queue, turn by turn *)

Lemma list_eqb_eq (a b : list Z) : list_eqb a b = true <-> a = b.
Proof.
  revert b. induction a as [|x a IH]; intros [|y b]; cbn [list_eqb];
    try (split; [discriminate | congruence]); [split; reflexivity|].
  rewrite andb_true_iff, Z.eqb_eq, IH. split.
  - intros [-> ->]. reflexivity.
  - intro H. injection H as -> ->. auto.
Qed.

Lemma list_eqb_snoc (l : list Z) (v : Z) : list_eqb l (l ++ [v]) = false.
Proof.
  destruct (list_eqb l (l ++ [v])) eqn:E; [|reflexivity].
  apply list_eqb_eq in E. apply (f_equal (@List.length Z)) in E.
  rewrite length_app in E. cbn in E. lia.
Qed.

(** The turn of a waiting thread whose address holds [waita]: either
    it is at the head of the queue with data on the alpha stack, and
    is dequeued and takes the top of the alpha stack; or the alpha
    stack is left as it was. *)
Lemma turn_await (c : color) (s s' : vm) :
  turn c s = Ok s' ->
  colorstate s c = AWAIT ->
  Py.index (colorcode s c) (colorip s c) = Ok 0xE0 ->
  (resumes c s = true /\
   exists w v, waitstack s = c :: w /\ waitstack s' = w /\
               colorstack_a s = colorstack_a s' ++ [v] /\
               colorstack s' c = colorstack s c ++ [v])
  \/ (resumes c s = false /\ colorstack_a s' = colorstack_a s).
Proof.
  intros H Hst Hop. unfold turn in H. unfold resumes.
  rewrite Hst, Hop in H. rewrite Hst. cbn [tstate_eqb bind andb] in H |- *.
  destruct (waitstack s) as [|h w] eqn:Hw; [discriminate H|].
  rewrite index_head in H. cbn [bind] in H.
  destruct (color_eqb h c) eqn:Hh.
  - apply color_eqb_eq in Hh. subst h.
    change (colorstack_a (bump c "waita" s)) with (colorstack_a s) in H.
    destruct (1 <=? Py.len (colorstack_a s)) eqn:Ha.
    + left. split; [reflexivity|].
      change (waitstack (bump c "waita" s)) with (waitstack s) in H.
      rewrite Hw in H. cbn [Py.pop0 bind] in H.
      rewrite (colorexec_waita c (set_waitstack w (bump c "waita" s)) Hop)
        in H.
      unfold exec_waita in H.
      change (colorstack_a (set_waitstack w (bump c "waita" s)))
        with (colorstack_a s) in H.
      rewrite Ha in H. apply Z.leb_le in Ha.
      destruct (last_split _ Ha) as (a & v & Ea).
      rewrite Ea, pop_append in H. cbn [bind counted] in H.
      injection H as <-. exists w, v.
      rewrite advance_waitstack, advance_alpha, advance_stack.
      cbn. rewrite !upd_same. auto.
    + right. injection H as <-. split; reflexivity.
  - right. injection H as <-. split; reflexivity.
Qed.

(** In a state where every waiting thread stands on a [waita], what
    is seen of a turn agrees with the branch it went through. *)
Lemma consumes_resumes (c : color) (s s' : vm) :
  turn c s = Ok s' -> queue_ok s -> consumes (c, s, s') = resumes c s.
Proof.
  intros H [_ Hq]. unfold consumes.
  destruct (tstate_eqb (colorstate s c) AWAIT) eqn:Hst.
  - apply tstate_eqb_eq in Hst. cbn [andb].
    destruct (turn_await c s s' H Hst (proj2 (Hq c) Hst))
      as [[-> (w & v & _ & _ & Ea & _)] | [-> Ea]]; rewrite Ea.
    + now rewrite list_eqb_snoc.
    + now rewrite (proj2 (list_eqb_eq _ _) eq_refl).
  - unfold resumes. now rewrite Hst.
Qed.

Lemma pass_resumed (sz : Z) (cs : list color) :
  forall s tr,
    pass cs s = Ok tr -> invariant sz s -> queue_ok s ->
    resumed cs s = Ok (consumers tr) /\
    forall c s1 s2, In (c, s1, s2) tr -> queue_ok s1 /\ turn c s1 = Ok s2.
Proof.
  induction cs as [|c t IH]; intros s tr H Hi Hq; cbn [pass] in H.
  - injection H as <-. split; [reflexivity | intros ? ? ? []].
  - destruct (turn c s) as [s1|] eqn:Et; cbn [bind] in H; [|discriminate].
    destruct (pass t s1) as [l|] eqn:El; cbn [bind] in H; [|discriminate].
    injection H as <-.
    destruct (IH s1 l El (turn_invariant sz c s s1 Et Hi)
                (turn_queue_ok sz c s s1 Et Hi Hq)) as [Hr Hall].
    split.
    + cbn [resumed]. rewrite Et. cbn [bind]. rewrite Hr. cbn [bind].
      unfold consumers. cbn [filter].
      rewrite (consumes_resumes c s s1 Et Hq).
      destruct (resumes c s); reflexivity.
    + intros c' s1' s2' [E|Hin]; [|eauto].
      injection E as <- <- <-. auto.
Qed.

Lemma last_cons {A : Type} (m : list A) :
  forall a d, last (a :: m) d = last m a.
Proof.
  induction m as [|x m IH]; intros a d; [reflexivity|].
  change (last (a :: x :: m) d) with (last (x :: m) d).
  now rewrite (IH x d), (IH x a).
Qed.

(** The trace of a pass is that of [for color in colors]: it exists
    whenever the pass completes, and ends in the state the pass
    ends in. *)
Lemma for_colors_pass (cs : list color) :
  forall s,
    for_colors cs s
    = bind (pass cs s) (fun tr => Ok (last (map snd tr) s)).
Proof.
  induction cs as [|c t IH]; intro s; cbn [for_colors pass bind];
    [reflexivity|].
  destruct (turn c s) as [s1|]; cbn [bind]; [|reflexivity].
  rewrite IH. destruct (pass t s1) as [l|]; cbn [bind]; [|reflexivity].
  f_equal. cbn [map snd]. symmetry. apply last_cons.
Qed.

(** C7, as the code has it.  In every pass of a run, a waiting
    thread whose turn changes the alpha stack is, at that turn, the
    head of the wait queue: the turn dequeues it and moves the top
    of the alpha stack to its own stack.  The colours that consume in
    this way during the pass are, in the order of their turns, a
    prefix of the wait queue as it stood when the pass began.  The
    prefix may hold more than one colour, since a resumption makes
    the next colour the head for the rest of the pass. *)
Theorem resumed_in_queue_order (sz : Z) (silent : bool)
    (code : color -> list Z) (lines : list string) (n : nat)
    (s : vm) (tr : list (color * vm * vm)) :
  1 <= sz ->
  iterations n (start sz silent code lines) = Ok (s, false) ->
  pass colors s = Ok tr ->
  (forall c s1 s2,
     In (c, s1, s2) tr ->
     colorstate s1 c = AWAIT ->
     colorstack_a s2 <> colorstack_a s1 ->
     exists w v,
       waitstack s1 = c :: w /\ waitstack s2 = w /\
       colorstack_a s1 = colorstack_a s2 ++ [v] /\
       colorstack s2 c = colorstack s1 c ++ [v]) /\
  exists rest, waitstack s = consumers tr ++ rest.
Proof.
  intros Hsz Hrun Hpass.
  pose proof (iterations_invariant sz n _ s false Hrun
                (start_invariant sz silent code lines Hsz)) as Hi.
  pose proof (iterations_queue_ok sz n _ s false Hrun
                (start_invariant sz silent code lines Hsz)
                (start_queue_ok sz silent code lines)) as Hq.
  destruct (pass_resumed sz colors s tr Hpass Hi Hq) as [Hr Hall].
  split.
  - intros c s1 s2 Hin Hst Hne.
    destruct (Hall c s1 s2 Hin) as [[_ Hq1] Ht].
    destruct (turn_await c s1 s2 Ht Hst (proj2 (Hq1 c) Hst))
      as [[_ Hex] | [_ Heq]]; [exact Hex | contradiction].
  - exact (resumed_prefix_of colors colors_nodup s _ Hr).
Qed.

(** C7 as stated fails: three iterations into the two-waiters
    program the queue is [R, B] with 8 on the alpha stack; in the
    next pass R takes the 8, G sends 7, and B, by then the head,
    takes the 7 in the same pass. *)
Lemma two_colours_resume_in_one_pass :
  exists s3 tr,
    iterations 3 (start 5 false two_waiters_program []) = Ok (s3, false) /\
    waitstack s3 = [R; B] /\
    pass colors s3 = Ok tr /\
    consumers tr = [R; B] /\
    ~ (List.length (consumers tr) <= 1)%nat.
Proof.
  eexists. eexists. split; [vm_compute; reflexivity|].
  split; [vm_compute; reflexivity|].
  split; [vm_compute; reflexivity|].
  split; [vm_compute; reflexivity|].
  vm_compute. lia.
Qed.

Lemma resumed_in_queue_order_witness :
  exists s3 tr,
    iterations 3 (start 5 false two_waiters_program []) = Ok (s3, false) /\
    pass colors s3 = Ok tr /\
    (forall c s1 s2,
       In (c, s1, s2) tr ->
       colorstate s1 c = AWAIT ->
       colorstack_a s2 <> colorstack_a s1 ->
       exists w v,
         waitstack s1 = c :: w /\ waitstack s2 = w /\
         colorstack_a s1 = colorstack_a s2 ++ [v] /\
         colorstack s2 c = colorstack s1 c ++ [v]) /\
    exists rest, waitstack s3 = consumers tr ++ rest.
Proof.
  eexists. eexists. split; [vm_compute; reflexivity|].
  split; [vm_compute; reflexivity|].
  eapply (resumed_in_queue_order 5 false two_waiters_program [] 3);
    [lia | vm_compute; reflexivity | vm_compute; reflexivity].
Defined.

(** ** Programs that cannot raise *)

Ltac guarded_total :=
  cbv zeta;
  match goal with
  | |- context [?k <=? Py.len ?st] =>
      let Hlen := fresh "Hlen" in
      destruct (Z.leb_spec k (Py.len st)) as [Hlen|Hlen];
      [|eexists; reflexivity];
      first
        [ let t := fresh "t" in let y := fresh "y" in
          let x := fresh "x" in let E := fresh "E" in
          destruct (last2_split _ Hlen) as (t & y & x & E);
          rewrite E; change (t ++ [y; x]) with (t ++ [y] ++ [x]);
          rewrite app_assoc, pop_append; cbn [bind];
          rewrite pop_append; cbn [bind]
        | let t := fresh "t" in let x := fresh "x" in let E := fresh "E" in
          destruct (last_split _ Hlen) as (t & x & E);
          rewrite E, pop_append; cbn [bind] ]
  end.

Lemma binop_total (c : color) (f : Z -> Z -> result Z) (s : vm) :
  (forall x y, exists v, f x y = Ok v) ->
  exists s1, binop c f s = Ok s1.
Proof.
  intro Hf. unfold binop. guarded_total.
  destruct (Hf x y) as (v & ->). eexists. reflexivity.
Qed.

Lemma unop_total (c : color) (f : Z -> Z) (s : vm) :
  exists s1, unop c f s = Ok s1.
Proof. unfold unop. guarded_total. eexists. reflexivity. Qed.

Lemma exec_pop_total (c : color) (s : vm) : exists s1, exec_pop c s = Ok s1.
Proof. unfold exec_pop. guarded_total. eexists. reflexivity. Qed.

Lemma exec_swap_total (c : color) (s : vm) : exists s1, exec_swap c s = Ok s1.
Proof. unfold exec_swap. guarded_total. eexists. reflexivity. Qed.

Lemma exec_dup_total (c : color) (s : vm) : exists s1, exec_dup c s = Ok s1.
Proof. unfold exec_dup. guarded_total. eexists. reflexivity. Qed.

Lemma exec_jmp_total (z : bool) (c : color) (s : vm) :
  exists s1, exec_jmp z c s = Ok s1.
Proof.
  unfold exec_jmp. guarded_total.
  destruct (Bool.eqb _ _); [destruct (_ && _)|]; eexists; reflexivity.
Qed.

Lemma exec_pusha_total (c : color) (s : vm) :
  exists s1, exec_pusha c s = Ok s1.
Proof. unfold exec_pusha. guarded_total. eexists. reflexivity. Qed.

Lemma counted_total (c : color) (name : string) (r : result vm) :
  (exists s1, r = Ok s1) -> exists s2, counted c name r = Ok s2.
Proof. intros (s1 & ->). eexists. reflexivity. Qed.

Lemma colorexec_total (c : color) (s : vm) (op : Z) :
  Py.index (colorcode s c) (colorip s c) = Ok op ->
  may_raise op = false ->
  exists s1, colorexec c s = Ok s1.
Proof.
  intros Hop Hsafe. unfold colorexec. rewrite Hop. cbn [bind].
  destruct ((0 <=? op) && (op <=? 127)); [eexists; reflexivity|].
  repeat match goal with
         | |- context [op =? ?k] =>
             destruct (Z.eqb_spec op k) as [->|?];
             [ first
                 [ discriminate Hsafe
                 | apply counted_total;
                   first [ apply binop_total; intros; eexists; reflexivity
                         | apply unop_total | apply exec_pop_total
                         | apply exec_swap_total | apply exec_dup_total
                         | apply exec_jmp_total
                         | apply exec_pusha_total
                         | destruct (exec_waita_ok c s) as (s1 & E & _);
                           exists s1; exact E ] ]
             | ]
         end.
  eexists. reflexivity.
Qed.

Lemma index_in_range {A : Type} (l : list A) (i : Z) :
  0 <= i < Py.len l -> exists x, Py.index l i = Ok x /\ In x l.
Proof.
  intros [H0 H1]. unfold Py.index.
  replace (i <? 0) with false by (symmetry; apply Z.ltb_ge; lia).
  replace ((0 <=? i) && (i <? Py.len l)) with true
    by (symmetry; apply andb_true_iff; split;
        [apply Z.leb_le | apply Z.ltb_lt]; lia).
  destruct (nth_error l (Z.to_nat i)) as [x|] eqn:E.
  - exists x. split; [reflexivity|]. eapply nth_error_In; eauto.
  - apply nth_error_None in E. unfold Py.len in H1. lia.
Qed.

Lemma turn_total (sz : Z) (c : color) (s : vm) :
  invariant sz s -> queue_ok s ->
  (forall c', Py.len (colorcode s c') = sz) ->
  (forall c' b, In b (colorcode s c') -> may_raise b = false) ->
  exists s', turn c s = Ok s'.
Proof.
  intros [Hsz Hinv] [Hnd Hq] Hlen Hsafe. unfold turn.
  destruct (Hinv c) as [Hr Hov].
  destruct (colorstate s c) eqn:Hst; cbn [tstate_eqb];
    try (assert (Hin : 0 <= colorip s c < Py.len (colorcode s c))
           by (rewrite Hlen;
               assert (colorip s c <> sz)
                 by (intro E; apply Hov in E; discriminate);
               lia);
         destruct (index_in_range _ _ Hin) as (op & Hop & Hmem);
         rewrite Hop; cbn [bind]).
  - eexists. reflexivity.
  - (* RUNNING *)
    destruct (op =? 0xBC); [eexists; reflexivity|].
    destruct (op =? 0xC0); [eexists; reflexivity|].
    destruct (colorexec_total c s op Hop (Hsafe c op Hmem)) as (s1 & ->).
    eexists. reflexivity.
  - (* AWAIT *)
    assert (Hw : In c (waitstack s)) by (apply (Hq c); exact Hst).
    destruct (waitstack s) as [|h w] eqn:Ew; [contradiction|].
    rewrite index_head. cbn [bind].
    destruct (color_eqb h c); [|eexists; reflexivity].
    destruct (1 <=? _); [|eexists; reflexivity].
    change (waitstack (bump c "waita" s)) with (waitstack s).
    rewrite Ew. cbn [Py.pop0 bind].
    destruct (colorexec_total c (set_waitstack w (bump c "waita" s)) op Hop
                (Hsafe c op Hmem)) as (s1 & ->).
    eexists. reflexivity.
  - eexists. reflexivity.
  - cbn [bind]. eexists. reflexivity.
Qed.

Lemma for_colors_total (sz : Z) (cs : list color) (s : vm) :
  invariant sz s -> queue_ok s ->
  (forall c', Py.len (colorcode s c') = sz) ->
  (forall c' b, In b (colorcode s c') -> may_raise b = false) ->
  exists s', for_colors cs s = Ok s' /\ colorcode s' = colorcode s /\
             invariant sz s' /\ queue_ok s'.
Proof.
  revert s. induction cs as [|c t IH]; intros s Hi Hq Hlen Hsafe; cbn.
  - exists s. auto.
  - destruct (turn_total sz c s Hi Hq Hlen Hsafe) as (s1 & E). rewrite E.
    cbn [bind].
    destruct (turn_others c s s1 E) as (_ & _ & Hcode & _).
    destruct (IH s1) as (s2 & E2 & Hcode2 & Hi2 & Hq2);
      eauto using turn_invariant, turn_queue_ok; try (rewrite Hcode; auto).
    exists s2. split; [exact E2|]. split; [congruence|]. split; assumption.
Qed.

Lemma iteration_total (sz : Z) (s : vm) :
  invariant sz s -> queue_ok s ->
  (forall c', Py.len (colorcode s c') = sz) ->
  (forall c' b, In b (colorcode s c') -> may_raise b = false) ->
  exists s' t, iteration s = Ok (s', t) /\ colorcode s' = colorcode s.
Proof.
  intros Hi Hq Hlen Hsafe. unfold iteration.
  destruct (for_colors_total sz colors s Hi Hq Hlen Hsafe)
    as (s1 & -> & Hcode & _). cbn [bind]. unfold mesg.
  destruct (_ =? 0); [destruct (negb _)|]; destruct (args_silent s1);
    eexists; eexists; (split; [reflexivity | exact Hcode]).
Qed.

(** X6.  A program whose arrays have the announced size and hold none of
    [div], [rem], [rot], [outc], [inc], [outi], [ini], [shl], [shr]
    runs without any exception: every iteration completes. *)
Theorem safe_programs_never_raise (sz : Z) (silent : bool)
    (code : color -> list Z) (lines : list string) (n : nat) :
  1 <= sz ->
  (forall c, Py.len (code c) = sz) ->
  (forall c b, In b (code c) -> may_raise b = false) ->
  exists s' t, iterations n (start sz silent code lines) = Ok (s', t).
Proof.
  intros Hsz Hlen Hsafe.
  assert (H : exists s' t,
             iterations n (start sz silent code lines) = Ok (s', t) /\
             colorcode s' = code).
  { induction n as [|k IH]; cbn.
    - eexists. eexists. split; reflexivity.
    - destruct IH as (s1 & t1 & E & Hcode). rewrite E. cbn [bind].
      destruct t1; [eexists; eexists; split; [reflexivity | exact Hcode]|].
      pose proof (iterations_invariant sz k _ s1 false E
                    (start_invariant sz silent code lines Hsz)) as Hi.
      pose proof (iterations_queue_ok sz k _ s1 false E
                    (start_invariant sz silent code lines Hsz)
                    (start_queue_ok sz silent code lines)) as Hq.
      destruct (iteration_total sz s1 Hi Hq) as (s2 & t2 & E2 & Hcode2);
        try (rewrite Hcode; auto).
      exists s2, t2. split; [exact E2 | congruence]. }
  destruct H as (s' & t & E & _). eauto.
Qed.

Lemma safe_programs_never_raise_witness :
  exists s' t,
    iterations 9 (start 5 false two_waiters_program []) = Ok (s', t).
Proof.
  apply (safe_programs_never_raise 5 false two_waiters_program [] 9).
  - lia.
  - intros []; reflexivity.
  - intros [] b Hb; cbn in Hb;
      repeat (destruct Hb as [<-|Hb]; [reflexivity|]); contradiction.
Defined.

(** ** What the instructions compute *)

(** The turn of a running thread on a two-operand instruction whose
    stack is [rest ++ [y; x]] ([x] on top). *)
Lemma turn_binop (c : color) (s : vm) (op : Z) (name : string)
    (f : Z -> Z -> result Z) (rest : list Z) (y x : Z) :
  colorstate s c = RUNNING ->
  Py.index (colorcode s c) (colorip s c) = Ok op ->
  op <> 0xBC -> op <> 0xC0 ->
  colorexec c s = counted c name (binop c f s) ->
  colorstack s c = rest ++ [y; x] ->
  turn c s =
  (v <- f x y ;;
   Ok (advance c (bump c name (set_stack c (rest ++ [v]) s)))).
Proof.
  intros Hrun Hop H1 H2 Hdisp Hst.
  rewrite (turn_running c s op Hrun Hop H1 H2), Hdisp.
  rewrite (binop_two c f s rest y x Hst).
  destruct (f x y); reflexivity.
Qed.

Lemma stack_after (c : color) (name : string) (st : list Z) (s : vm) :
  colorstack (advance c (bump c name (set_stack c st s))) c = st.
Proof. rewrite advance_stack. cbn. apply upd_same. Qed.

Ltac dispatched Hop := unfold colorexec; rewrite Hop; reflexivity.

(** X7.  [add], [sub] and [mul] take the top of the stack as their left
    operand: on [rest ++ [y; x]] they leave [x + y], [x - y] and
    [x * y] on [rest]. *)
Theorem add_sub_mul_turn (c : color) (s : vm) (rest : list Z) (y x : Z) :
  colorstate s c = RUNNING ->
  colorstack s c = rest ++ [y; x] ->
  (Py.index (colorcode s c) (colorip s c) = Ok 0x80 ->
   exists s', turn c s = Ok s' /\ colorstack s' c = rest ++ [x + y]) /\
  (Py.index (colorcode s c) (colorip s c) = Ok 0x84 ->
   exists s', turn c s = Ok s' /\ colorstack s' c = rest ++ [x - y]) /\
  (Py.index (colorcode s c) (colorip s c) = Ok 0x88 ->
   exists s', turn c s = Ok s' /\ colorstack s' c = rest ++ [x * y]).
Proof.
  intros Hrun Hst. repeat split; intro Hop.
  - rewrite (turn_binop c s _ "add" (fun x y => Ok (x + y)) rest y x
               Hrun Hop); try discriminate; try assumption;
      [|dispatched Hop].
    cbn [bind]. eexists. split; [reflexivity | apply stack_after].
  - rewrite (turn_binop c s _ "sub" (fun x y => Ok (x - y)) rest y x
               Hrun Hop); try discriminate; try assumption;
      [|dispatched Hop].
    cbn [bind]. eexists. split; [reflexivity | apply stack_after].
  - rewrite (turn_binop c s _ "mul" (fun x y => Ok (x * y)) rest y x
               Hrun Hop); try discriminate; try assumption;
      [|dispatched Hop].
    cbn [bind]. eexists. split; [reflexivity | apply stack_after].
Qed.

Lemma add_sub_mul_turn_witness :
  exists s',
    turn R (set_stack R [10; 3] (start 1 false (fun _ => [0x84]) [])) = Ok s' /\
    colorstack s' R = [] ++ [3 - 10].
Proof.
  exact (proj1 (proj2 (add_sub_mul_turn R
           (set_stack R [10; 3] (start 1 false (fun _ => [0x84]) []))
           [] 10 3 eq_refl eq_refl)) eq_refl).
Defined.

(** X8.  [div] and [rem] divide the top of the stack by the element below
    it, rounding the quotient down: with a non-zero divisor [y] under
    the dividend [x] they leave [x / y] and [x mod y], which satisfy
    [x = y * (x / y) + x mod y], the remainder having the sign of
    the divisor. *)
Theorem div_rem_turn (c : color) (s : vm) (rest : list Z) (y x : Z) :
  colorstate s c = RUNNING ->
  colorstack s c = rest ++ [y; x] ->
  y <> 0 ->
  (Py.index (colorcode s c) (colorip s c) = Ok 0x8C ->
   exists s', turn c s = Ok s' /\ colorstack s' c = rest ++ [x / y]) /\
  (Py.index (colorcode s c) (colorip s c) = Ok 0x90 ->
   exists s', turn c s = Ok s' /\ colorstack s' c = rest ++ [x mod y]) /\
  x = y * (x / y) + x mod y /\
  (0 < y -> 0 <= x mod y < y) /\
  (y < 0 -> y < x mod y <= 0).
Proof.
  intros Hrun Hst Hy. apply Z.eqb_neq in Hy as Hyb.
  split; [|split; [|split; [|split]]].
  - intro Hop.
    rewrite (turn_binop c s _ "div" Py.floordiv rest y x Hrun Hop);
      try discriminate; try assumption; [|dispatched Hop].
    unfold Py.floordiv. rewrite Hyb. cbn [bind].
    eexists. split; [reflexivity | apply stack_after].
  - intro Hop.
    rewrite (turn_binop c s _ "rem" Py.modulo rest y x Hrun Hop);
      try discriminate; try assumption; [|dispatched Hop].
    unfold Py.modulo. rewrite Hyb. cbn [bind].
    eexists. split; [reflexivity | apply stack_after].
  - apply Z.div_mod. exact Hy.
  - intro. apply Z.mod_pos_bound. lia.
  - intro. apply Z.mod_neg_bound. lia.
Qed.

Lemma div_rem_turn_witness :
  exists s',
    turn R (set_stack R [2; -7] (start 1 false (fun _ => [0x8C]) [])) = Ok s' /\
    colorstack s' R = [] ++ [-7 / 2].
Proof.
  refine (proj1 (div_rem_turn R
           (set_stack R [2; -7] (start 1 false (fun _ => [0x8C]) []))
           [] 2 (-7) eq_refl eq_refl _) eq_refl).
  lia.
Defined.

(** X9.  [gt], [eq] and [lt] compare the top of the stack with the element
    below it; on the same operands exactly one of them leaves 1. *)
Theorem compare_turn (c : color) (s : vm) (rest : list Z) (y x : Z) :
  colorstate s c = RUNNING ->
  colorstack s c = rest ++ [y; x] ->
  (Py.index (colorcode s c) (colorip s c) = Ok 0xB0 ->
   exists s', turn c s = Ok s' /\
              colorstack s' c = rest ++ [bool_int (x >? y)]) /\
  (Py.index (colorcode s c) (colorip s c) = Ok 0xB4 ->
   exists s', turn c s = Ok s' /\
              colorstack s' c = rest ++ [bool_int (x =? y)]) /\
  (Py.index (colorcode s c) (colorip s c) = Ok 0xB8 ->
   exists s', turn c s = Ok s' /\
              colorstack s' c = rest ++ [bool_int (x <? y)]) /\
  bool_int (x >? y) + bool_int (x =? y) + bool_int (x <? y) = 1.
Proof.
  intros Hrun Hst. split; [|split; [|split]].
  - intro Hop.
    rewrite (turn_binop c s _ "gt" (fun a b => Ok (bool_int (a >? b)))
               rest y x Hrun Hop); try discriminate; try assumption;
      [|dispatched Hop].
    cbn [bind]. eexists. split; [reflexivity | apply stack_after].
  - intro Hop.
    rewrite (turn_binop c s _ "eq" (fun a b => Ok (bool_int (a =? b)))
               rest y x Hrun Hop); try discriminate; try assumption;
      [|dispatched Hop].
    cbn [bind]. eexists. split; [reflexivity | apply stack_after].
  - intro Hop.
    rewrite (turn_binop c s _ "lt" (fun a b => Ok (bool_int (a <? b)))
               rest y x Hrun Hop); try discriminate; try assumption;
      [|dispatched Hop].
    cbn [bind]. eexists. split; [reflexivity | apply stack_after].
  - rewrite Z.gtb_ltb.
    destruct (Z.ltb_spec y x), (Z.eqb_spec x y), (Z.ltb_spec x y);
      cbn; lia.
Qed.

Lemma compare_turn_witness :
  exists s',
    turn R (set_stack R [5; 9] (start 1 false (fun _ => [0xB0]) [])) = Ok s' /\
    colorstack s' R = [] ++ [bool_int (9 >? 5)].
Proof.
  exact (proj1 (compare_turn R
           (set_stack R [5; 9] (start 1 false (fun _ => [0xB0]) []))
           [] 5 9 eq_refl eq_refl) eq_refl).
Defined.

(** ** The [rot] instruction *)

Lemma insert_between {A : Type} (lo hi : list A) (e : A) :
  Py.insert (lo ++ hi) (Py.len lo) e = Ok (lo ++ e :: hi).
Proof.
  unfold Py.insert. pose proof (len_nonneg lo). pose proof (len_nonneg hi).
  replace ((- Py.len (lo ++ hi) <=? Py.len lo)
           && (Py.len lo <=? Py.len (lo ++ hi))) with true
    by (symmetry; apply andb_true_iff; rewrite len_app;
        split; apply Z.leb_le; lia).
  cbn [orb].
  replace (Py.len lo <? 0) with false by (symmetry; apply Z.ltb_ge; lia).
  rewrite len_app.
  rewrite Z.min_l by lia. unfold Py.len. rewrite Nat2Z.id.
  rewrite firstn_app, firstn_all, Nat.sub_diag, firstn_O, app_nil_r.
  rewrite skipn_app, skipn_all, Nat.sub_diag, skipn_O. reflexivity.
Qed.

Lemma insert_beyond {A : Type} (l : list A) (i : Z) (e : A) :
  Py.len l <= i -> i <= Py.SSIZE_T_MAX -> Py.insert l i e = Ok (l ++ [e]).
Proof.
  intros H Hmax. unfold Py.insert, Py.is_ssize_t. pose proof (len_nonneg l).
  replace (- Py.SSIZE_T_MAX - 1 <=? i) with true
    by (symmetry; apply Z.leb_le; lia).
  replace (i <=? Py.SSIZE_T_MAX) with true
    by (symmetry; apply Z.leb_le; lia).
  rewrite orb_true_r.
  replace (i <? 0) with false by (symmetry; apply Z.ltb_ge; lia).
  rewrite Z.min_r by lia. unfold Py.len. rewrite Nat2Z.id.
  now rewrite firstn_all, skipn_all.
Qed.

Lemma insert_overflow {A : Type} (l : list A) (i : Z) (e : A) :
  Py.len l < i -> Py.SSIZE_T_MAX < i -> Py.insert l i e = Raise OverflowError.
Proof.
  intros H Hmax. unfold Py.insert, Py.is_ssize_t.
  replace (i <=? Py.len l) with false by (symmetry; apply Z.leb_gt; lia).
  replace (i <=? Py.SSIZE_T_MAX) with false
    by (symmetry; apply Z.leb_gt; lia).
  now rewrite !andb_false_r.
Qed.

Lemma colorexec_rot (c : color) (s : vm) :
  Py.index (colorcode s c) (colorip s c) = Ok 0xA0 ->
  colorexec c s = counted c "rot" (exec_rot c s).
Proof. intro Hop. unfold colorexec. now rewrite Hop. Qed.

(** X10.  [rot] with the count [n] on top moves the element under the count
    below the [n - 1] elements that lie under it: on
    [lo ++ hi ++ [e; n]] with [n = len hi + 1] it leaves
    [lo ++ [e] ++ hi].  With [n = 1] the stack only loses the count,
    with [n = 2] the two elements under the count are swapped. *)
Theorem rot_turn (c : color) (s : vm) (lo hi : list Z) (e n : Z) :
  colorstate s c = RUNNING ->
  Py.index (colorcode s c) (colorip s c) = Ok 0xA0 ->
  colorstack s c = lo ++ hi ++ [e; n] ->
  n = Py.len hi + 1 ->
  exists s', turn c s = Ok s' /\ colorstack s' c = lo ++ [e] ++ hi.
Proof.
  intros Hrun Hop Hst Hn.
  rewrite (turn_running c s _ Hrun Hop) by discriminate.
  rewrite (colorexec_rot c s Hop). unfold exec_rot. rewrite Hst.
  pose proof (len_nonneg lo). pose proof (len_nonneg hi).
  replace (lo ++ hi ++ [e; n]) with (((lo ++ hi) ++ [e]) ++ [n])
    by (rewrite <- !app_assoc; reflexivity).
  replace (1 <=? Py.len (((lo ++ hi) ++ [e]) ++ [n])) with true
    by (symmetry; apply Z.leb_le; rewrite !len_app;
        change (Py.len [n]) with 1; change (Py.len [e]) with 1; lia).
  rewrite pop_append. cbn [bind].
  replace (n <=? Py.len ((lo ++ hi) ++ [e])) with true
    by (symmetry; apply Z.leb_le; rewrite !len_app;
        change (Py.len [e]) with 1; lia).
  rewrite pop_append. cbn [bind].
  replace (Py.len (lo ++ hi) - 1 - (n - 2)) with (Py.len lo)
    by (rewrite len_app; lia).
  rewrite insert_between. cbn [bind counted].
  eexists. split; [reflexivity|]. now rewrite stack_after.
Qed.

Lemma rot_turn_witness :
  exists s',
    turn R (set_stack R [1; 2; 3; 4; 3] (start 1 false (fun _ => [0xA0]) []))
    = Ok s' /\
    colorstack s' R = [1] ++ [4] ++ [2; 3].
Proof.
  exact (rot_turn R
           (set_stack R [1; 2; 3; 4; 3] (start 1 false (fun _ => [0xA0]) []))
           [1] [2; 3] 4 3 eq_refl eq_refl eq_refl eq_refl).
Defined.

(** X11.  [rot] with a count [n] that is zero or negative.  With
    nothing under the count the second [pop()] raises [IndexError].
    With an element [e] on [rest] under it, [e] is popped and handed
    to [insert] at position [len rest + 1 - n], beyond the end: as
    long as that position fits the 64-bit index type [e] is put back
    on top and the stack only loses the count; for a count so far
    below zero that it does not, [insert] raises [OverflowError]. *)
Theorem rot_nonpositive_count (c : color) (s : vm) (n : Z) :
  colorstate s c = RUNNING ->
  Py.index (colorcode s c) (colorip s c) = Ok 0xA0 ->
  n <= 0 ->
  (colorstack s c = [n] -> turn c s = Raise IndexError) /\
  (forall rest e, colorstack s c = rest ++ [e; n] ->
     (Py.len rest + 1 - n <= Py.SSIZE_T_MAX ->
      exists s', turn c s = Ok s' /\ colorstack s' c = rest ++ [e]) /\
     (Py.SSIZE_T_MAX < Py.len rest + 1 - n ->
      turn c s = Raise OverflowError)).
Proof.
  intros Hrun Hop Hn.
  rewrite (turn_running c s _ Hrun Hop) by discriminate.
  rewrite (colorexec_rot c s Hop). unfold exec_rot. split.
  - intros ->. cbn [Py.len List.length Z.of_nat Z.leb Z.compare].
    change (Py.pop [n]) with (@Ok (Z * list Z) (n, [])). cbn [bind].
    change (Py.len (@nil Z)) with 0.
    replace (n <=? 0) with true by (symmetry; apply Z.leb_le; lia).
    reflexivity.
  - intros rest e ->. pose proof (len_nonneg rest).
    replace (rest ++ [e; n]) with ((rest ++ [e]) ++ [n])
      by (rewrite <- app_assoc; reflexivity).
    replace (1 <=? Py.len ((rest ++ [e]) ++ [n])) with true
      by (symmetry; apply Z.leb_le; rewrite !len_app;
          change (Py.len [n]) with 1; change (Py.len [e]) with 1; lia).
    rewrite pop_append. cbn [bind].
    replace (n <=? Py.len (rest ++ [e])) with true
      by (symmetry; apply Z.leb_le; rewrite !len_app;
          change (Py.len [e]) with 1; lia).
    rewrite pop_append. cbn [bind].
    replace (Py.len rest - 1 - (n - 2)) with (Py.len rest + 1 - n) by lia.
    split; intro Hfit.
    + rewrite insert_beyond by lia. cbn [bind counted].
      eexists. split; [reflexivity|]. now rewrite stack_after.
    + rewrite insert_overflow by lia. reflexivity.
Qed.

Lemma rot_nonpositive_count_witness :
  turn R (set_stack R [5; - 2 ^ 64] (start 1 false (fun _ => [0xA0]) []))
  = Raise OverflowError.
Proof.
  refine (proj2 (proj2 (rot_nonpositive_count R
            (set_stack R [5; - 2 ^ 64] (start 1 false (fun _ => [0xA0]) []))
            (- 2 ^ 64) eq_refl eq_refl _) [] 5 eq_refl) _).
  - vm_compute. discriminate.
  - vm_compute. reflexivity.
Defined.

(** ** [jmpnz] *)

(** X12.  [jmpnz] pops [v], then [addr].  With [v <> 0] and [addr] inside
    the program the turn ends at address [addr], still RUNNING; with
    [v <> 0] and [addr] outside, the thread is in OVERRUN at address
    [size] when its turn ends; with [v = 0] the address advances by
    one. *)
Theorem jmpnz_turn (c : color) (s : vm) (rest : list Z) (addr v : Z) :
  colorstate s c = RUNNING ->
  Py.index (colorcode s c) (colorip s c) = Ok 0xC8 ->
  colorstack s c = rest ++ [addr; v] ->
  exists s',
    turn c s = Ok s' /\
    colorstack s' c = rest /\
    (v <> 0 -> 0 <= addr < size s ->
     colorip s' c = addr /\ colorstate s' c = RUNNING) /\
    (v <> 0 -> ~ (0 <= addr < size s) ->
     colorip s' c = size s /\ colorstate s' c = OVERRUN) /\
    (v = 0 -> colorip s' c = colorip s c + 1).
Proof.
  intros Hrun Hop Hst.
  rewrite (turn_running c s _ Hrun Hop) by discriminate.
  replace (colorexec c s) with (counted c "jmpnz" (exec_jmp false c s))
    by (unfold colorexec; now rewrite Hop).
  rewrite (exec_jmp_two false c s rest addr v Hst). cbn [counted bind].
  eexists. split; [reflexivity|].
  rewrite advance_stack, advance_ip, advance_state.
  destruct (Z.eqb_spec v 0) as [Hv|Hv]; cbn [Bool.eqb].
  - cbn. rewrite !upd_same. repeat split; try contradiction.
  - destruct ((0 <=? addr) && (addr <? size s)) eqn:Hin.
    + apply andb_true_iff in Hin. destruct Hin as [H1 H2].
      apply Z.leb_le in H1. apply Z.ltb_lt in H2.
      cbn. rewrite !upd_same.
      replace (addr - 1 + 1 =? size s) with false
        by (symmetry; apply Z.eqb_neq; lia).
      repeat split; try lia; try (intros; lia). now intros.
    + assert (Hout : ~ (0 <= addr < size s)).
      { intros [H1 H2]. apply Z.leb_le in H1. apply Z.ltb_lt in H2.
        rewrite H1, H2 in Hin. discriminate. }
      cbn. rewrite !upd_same.
      replace (size s - 1 + 1 =? size s) with true
        by (symmetry; apply Z.eqb_eq; lia).
      repeat split; try lia; try (intros; lia); try contradiction.
Qed.

Lemma jmpnz_turn_witness :
  exists s',
    turn R (set_stack R [0; 1] (start 3 false (fun _ => [0xC8; 0; 0]) []))
    = Ok s' /\
    colorip s' R = 0 /\ colorstate s' R = RUNNING.
Proof.
  destruct (jmpnz_turn R
              (set_stack R [0; 1] (start 3 false (fun _ => [0xC8; 0; 0]) []))
              [] 0 1 eq_refl eq_refl eq_refl)
    as (s' & Hturn & _ & Hin & _ & _).
  exists s'. split; [exact Hturn|].
  apply Hin; [discriminate|]. cbn. lia.
Defined.

(** ** Passing a value through the alpha stack *)

(** X13.  When a running thread executes [pusha] on a stack ending in [v]
    and another running thread then executes [waita], the value [v]
    arrives on the stack of the second thread, the alpha stack is as
    it was before, and nobody is queued. *)
Theorem pusha_waita_handoff (c1 c2 : color) (s : vm) (rest : list Z) (v : Z) :
  c1 <> c2 ->
  colorstate s c1 = RUNNING -> colorstate s c2 = RUNNING ->
  Py.index (colorcode s c1) (colorip s c1) = Ok 0xDC ->
  Py.index (colorcode s c2) (colorip s c2) = Ok 0xE0 ->
  colorstack s c1 = rest ++ [v] ->
  exists s1 s2,
    turn c1 s = Ok s1 /\ turn c2 s1 = Ok s2 /\
    colorstack s2 c1 = rest /\
    colorstack s2 c2 = colorstack s c2 ++ [v] /\
    colorstack_a s2 = colorstack_a s /\
    waitstack s2 = waitstack s.
Proof.
  intros Hne Hr1 Hr2 Hop1 Hop2 Hst.
  assert (E1 : turn c1 s =
               Ok (advance c1 (bump c1 "pusha"
                     (set_alpha (colorstack_a s ++ [v])
                        (set_stack c1 rest s))))).
  { rewrite (turn_running c1 s _ Hr1 Hop1) by discriminate.
    replace (colorexec c1 s) with (counted c1 "pusha" (exec_pusha c1 s))
      by (unfold colorexec; now rewrite Hop1).
    unfold exec_pusha. rewrite Hst. pose proof (len_nonneg rest).
    replace (1 <=? Py.len (rest ++ [v])) with true
      by (symmetry; apply Z.leb_le; rewrite len_app;
          change (Py.len [v]) with 1; lia).
    rewrite pop_append. reflexivity. }
  set (s1 := advance c1 (bump c1 "pusha"
               (set_alpha (colorstack_a s ++ [v]) (set_stack c1 rest s))))
    in *.
  destruct (turn_others c1 s s1 E1) as (_ & _ & Hcode & Hoth).
  destruct (Hoth c2 (fun e => Hne (eq_sym e))) as (Hs2 & Hip2 & Hst2 & _).
  assert (Ha1 : colorstack_a s1 = colorstack_a s ++ [v])
    by (unfold s1; now rewrite advance_alpha).
  assert (Hw1 : waitstack s1 = waitstack s)
    by (unfold s1; now rewrite advance_waitstack).
  assert (Hk1 : colorstack s1 c1 = rest)
    by (unfold s1; rewrite advance_stack; cbn; apply upd_same).
  assert (Hop2' : Py.index (colorcode s1 c2) (colorip s1 c2) = Ok 0xE0)
    by (rewrite Hcode, Hip2; exact Hop2).
  assert (Hr2' : colorstate s1 c2 = RUNNING) by congruence.
  exists s1. eexists. split; [exact E1|].
  rewrite (turn_running c2 s1 _ Hr2' Hop2') by discriminate.
  rewrite (colorexec_waita c2 s1 Hop2'). unfold exec_waita.
  rewrite Ha1. pose proof (len_nonneg (colorstack_a s)).
  replace (1 <=? Py.len (colorstack_a s ++ [v])) with true
    by (symmetry; apply Z.leb_le; rewrite len_app;
        change (Py.len [v]) with 1; lia).
  rewrite pop_append. cbn [bind counted].
  split; [reflexivity|].
  rewrite advance_stack, advance_alpha, advance_waitstack. cbn.
  rewrite upd_same, (upd_other _ c2 c1) by congruence.
  rewrite Hs2. auto.
Qed.

Lemma pusha_waita_handoff_witness :
  exists s1 s2,
    turn R (set_stack R [42]
              (start 1 false
                 (fun c => match c with R => [0xDC] | _ => [0xE0] end) []))
    = Ok s1 /\
    turn G s1 = Ok s2 /\
    colorstack s2 R = [] /\
    colorstack s2 G = [] ++ [42] /\
    colorstack_a s2 = [] /\
    waitstack s2 = [].
Proof.
  apply (pusha_waita_handoff R G
           (set_stack R [42]
              (start 1 false
                 (fun c => match c with R => [0xDC] | _ => [0xE0] end) []))
           [] 42); try reflexivity. discriminate.
Defined.

(** ** Instructions that can raise *)

(** X14.  [outc] pops [n] and calls [chr(n)]: outside the range
    of a 32-bit C [int] the call raises [OverflowError]; inside it
    but outside the Unicode range it raises [ValueError]; below 128
    the character is printed; from 128 up nothing is printed.  In
    both cases that succeed [n] is gone from the stack. *)
Theorem outc_turn (c : color) (s : vm) (rest : list Z) (n : Z) :
  colorstate s c = RUNNING ->
  Py.index (colorcode s c) (colorip s c) = Ok 0xCC ->
  colorstack s c = rest ++ [n] ->
  (n < - 2 ^ 31 \/ 2 ^ 31 <= n -> turn c s = Raise OverflowError) /\
  (- 2 ^ 31 <= n < 0 \/ 0x10FFFF < n < 2 ^ 31 ->
   turn c s = Raise ValueError) /\
  (0 <= n < 128 ->
   exists s', turn c s = Ok s' /\ colorstack s' c = rest /\
              console s' = console s ++ [Print_char n]) /\
  (128 <= n <= 0x10FFFF ->
   exists s', turn c s = Ok s' /\ colorstack s' c = rest /\
              console s' = console s).
Proof.
  intros Hrun Hop Hst.
  rewrite (turn_running c s _ Hrun Hop) by discriminate.
  replace (colorexec c s) with (counted c "outc" (exec_outc c s))
    by (unfold colorexec; now rewrite Hop).
  unfold exec_outc. rewrite Hst. pose proof (len_nonneg rest).
  replace (1 <=? Py.len (rest ++ [n])) with true
    by (symmetry; apply Z.leb_le; rewrite len_app;
        change (Py.len [n]) with 1; lia).
  rewrite pop_append. cbn [bind]. unfold Py.chr, Py.is_c_int, Py.isascii.
  change (2 ^ 31) with 2147483648.
  split; [|split; [|split]].
  - intro Hout.
    replace ((0 <=? n) && (n <=? 0x10FFFF)) with false
      by (symmetry; apply andb_false_iff;
          destruct Hout; [left; apply Z.leb_gt | right; apply Z.leb_gt]; lia).
    replace ((_ <=? n) && (n <? 2147483648)) with false
      by (symmetry; apply andb_false_iff;
          destruct Hout; [left; apply Z.leb_gt | right; apply Z.ltb_ge]; lia).
    reflexivity.
  - intro Hout.
    replace ((0 <=? n) && (n <=? 0x10FFFF)) with false
      by (symmetry; apply andb_false_iff;
          destruct Hout; [left; apply Z.leb_gt | right; apply Z.leb_gt]; lia).
    replace ((_ <=? n) && (n <? 2147483648)) with true
      by (symmetry; apply andb_true_iff;
          split; [apply Z.leb_le | apply Z.ltb_lt]; lia).
    reflexivity.
  - intros [H0 H1].
    replace ((0 <=? n) && (n <=? 0x10FFFF)) with true
      by (symmetry; apply andb_true_iff; split; apply Z.leb_le; lia).
    cbn [bind].
    replace (n <? 128) with true by (symmetry; apply Z.ltb_lt; lia).
    cbn [counted bind]. eexists. split; [reflexivity|].
    rewrite advance_stack, advance_console. cbn. now rewrite upd_same.
  - intros [H0 H1].
    replace ((0 <=? n) && (n <=? 0x10FFFF)) with true
      by (symmetry; apply andb_true_iff; split; apply Z.leb_le; lia).
    cbn [bind].
    replace (n <? 128) with false by (symmetry; apply Z.ltb_ge; lia).
    cbn [counted bind]. eexists. split; [reflexivity|].
    rewrite advance_stack, advance_console. cbn. now rewrite upd_same.
Qed.

Lemma outc_turn_witness :
  turn R (set_stack R [2 ^ 31] (start 1 false (fun _ => [0xCC]) []))
  = Raise OverflowError.
Proof.
  refine (proj1 (outc_turn R
            (set_stack R [2 ^ 31] (start 1 false (fun _ => [0xCC]) []))
            [] (2 ^ 31) eq_refl eq_refl eq_refl) _).
  right. vm_compute. discriminate.
Defined.

(** ** Shifts *)

Lemma ndigits_positive (a : Z) : 1 <= Py.ndigits a.
Proof.
  unfold Py.ndigits. pose proof (Z.log2_nonneg (Z.abs a)).
  assert (0 <= Z.log2 (Z.abs a) / 30) by (apply Z.div_pos; lia). lia.
Qed.

(** X15.  [shl] pops the count [n], then the value [v].  A negative
    count raises [ValueError].  Zero stays zero whatever the count.
    A value other than zero becomes [v * 2 ^ n] when the result has
    fewer than [2 ^ 32] bits.  A count from [2 ^ 66] up asks for more
    digits than an integer can have and raises [OverflowError];
    between [2 ^ 52] and [2 ^ 65], for a one-digit value, the result
    is one that no memory can hold and the shift raises
    [MemoryError]. *)
Theorem shl_turn (c : color) (s : vm) (rest : list Z) (v n : Z) :
  colorstate s c = RUNNING ->
  Py.index (colorcode s c) (colorip s c) = Ok 0xE8 ->
  colorstack s c = rest ++ [v; n] ->
  (n < 0 -> turn c s = Raise ValueError) /\
  (0 <= n -> v = 0 ->
   exists s', turn c s = Ok s' /\ colorstack s' c = rest ++ [0]) /\
  (0 <= n -> v <> 0 -> Z.log2 (Z.abs v) + n < 2 ^ 32 ->
   exists s', turn c s = Ok s' /\ colorstack s' c = rest ++ [v * 2 ^ n]) /\
  (v <> 0 -> 2 ^ 66 <= n -> turn c s = Raise OverflowError) /\
  (0 < Z.abs v < 2 ^ 30 -> 2 ^ 52 <= n <= 2 ^ 65 ->
   turn c s = Raise MemoryError).
Proof.
  intros Hrun Hop Hst.
  rewrite (turn_binop c s _ "shl"
             (fun shiftval value => Py.lshift value shiftval) rest v n
             Hrun Hop); try discriminate; try assumption;
    [|dispatched Hop].
  unfold Py.lshift, Py.lshift_digits.
  pose proof (ndigits_positive v) as Hd.
  assert (Hr : 0 <= (if n mod 30 =? 0 then 0 else 1) <= 1)
    by (destruct (n mod 30 =? 0); lia).
  change Py.MAX_LONG_DIGITS with 2305843009213693945.
  change Py.ADDRESSABLE_DIGITS with 35184372088826.
  change (2 ^ 32) with 4294967296. change (2 ^ 66) with 73786976294838206464.
  change (2 ^ 52) with 4503599627370496.
  change (2 ^ 65) with 36893488147419103232.
  split; [|split; [|split; [|split]]].
  - intro Hn.
    replace (n <? 0) with true by (symmetry; apply Z.ltb_lt; lia).
    reflexivity.
  - intros Hn ->.
    replace (n <? 0) with false by (symmetry; apply Z.ltb_ge; lia).
    cbn [Z.eqb bind]. eexists. split; [reflexivity|]. now rewrite stack_after.
  - intros Hn Hv Hbits.
    replace (n <? 0) with false by (symmetry; apply Z.ltb_ge; lia).
    replace (v =? 0) with false by (symmetry; apply Z.eqb_neq; lia).
    assert (Hsz : Py.ndigits v + n / 30 <= 286331153).
    { unfold Py.ndigits. pose proof (Z.log2_nonneg (Z.abs v)).
      pose proof (Z.div_le_mono (Z.log2 (Z.abs v)) 4294967296 30).
      pose proof (Z.div_le_mono n 4294967296 30).
      change (4294967296 / 30) with 143165576 in *. lia. }
    replace (2305843009213693945 <? _) with false
      by (symmetry; apply Z.ltb_ge; lia).
    replace (35184372088826 <? _) with false
      by (symmetry; apply Z.ltb_ge; lia).
    cbn [bind]. eexists. split; [reflexivity|].
    rewrite stack_after. now rewrite Z.shiftl_mul_pow2.
  - intros Hv Hn.
    replace (n <? 0) with false by (symmetry; apply Z.ltb_ge; lia).
    replace (v =? 0) with false by (symmetry; apply Z.eqb_neq; lia).
    pose proof (Z.div_le_mono 73786976294838206464 n 30).
    change (73786976294838206464 / 30) with 2459565876494606882 in *.
    replace (2305843009213693945 <? _) with true
      by (symmetry; apply Z.ltb_lt; lia).
    reflexivity.
  - intros [Hv0 Hv1] [Hn0 Hn1].
    replace (n <? 0) with false by (symmetry; apply Z.ltb_ge; lia).
    replace (v =? 0) with false by (symmetry; apply Z.eqb_neq; lia).
    assert (Hone : Py.ndigits v = 1).
    { unfold Py.ndigits.
      assert (Z.log2 (Z.abs v) < 30) by (apply Z.log2_lt_pow2; lia).
      pose proof (Z.log2_nonneg (Z.abs v)).
      rewrite Z.div_small by lia. reflexivity. }
    rewrite Hone.
    pose proof (Z.div_le_mono 4503599627370496 n 30).
    pose proof (Z.div_le_mono n 36893488147419103232 30).
    change (4503599627370496 / 30) with 150119987579016 in *.
    change (36893488147419103232 / 30) with 1229782938247303441 in *.
    replace (2305843009213693945 <? _) with false
      by (symmetry; apply Z.ltb_ge; lia).
    replace (35184372088826 <? _) with true
      by (symmetry; apply Z.ltb_lt; lia).
    reflexivity.
Qed.

Lemma shl_turn_witness :
  turn R (set_stack R [1; 2 ^ 63] (start 1 false (fun _ => [0xE8]) []))
  = Raise MemoryError.
Proof.
  refine (proj2 (proj2 (proj2 (proj2 (shl_turn R
            (set_stack R [1; 2 ^ 63] (start 1 false (fun _ => [0xE8]) []))
            [] 1 (2 ^ 63) eq_refl eq_refl eq_refl)))) _ _).
  - vm_compute. split; reflexivity.
  - vm_compute. split; discriminate.
Defined.

(** ** Reading input *)

Lemma int_acc_nonneg (s : string) :
  forall acc, 0 <= acc -> Py.all_digits s = true -> 0 <= Py.int_acc acc s.
Proof.
  induction s as [|ch t IH]; intros acc Hacc Hd;
    cbn [Py.all_digits Py.int_acc] in *; [exact Hacc|].
  apply andb_true_iff in Hd. destruct Hd as [Hch Ht].
  apply IH; [|exact Ht]. unfold Py.digit in Hch.
  apply andb_true_iff in Hch. destruct Hch as [H1 _].
  apply Z.leb_le in H1. lia.
Qed.

(** X16.  [ini] reads a line: at the end of the input [input()] raises
    [EOFError].  A line that is not a decimal numeral is consumed and
    nothing is pushed.  A decimal numeral of at most 4300 digits is
    consumed and its value, which is never negative, is pushed; the
    counter goes up in both these cases.  On a decimal numeral of
    more than 4300 digits [int()] raises [ValueError]. *)
Theorem ini_turn (c : color) (s : vm) :
  colorstate s c = RUNNING ->
  Py.index (colorcode s c) (colorip s c) = Ok 0xD8 ->
  (stdin s = [] -> turn c s = Raise EOFError) /\
  (forall line more, stdin s = line :: more ->
     (Py.isdecimal line = false ->
      exists s',
        turn c s = Ok s' /\ stdin s' = more /\
        colorstat s' c "ini" = colorstat s c "ini" + 1 /\
        colorstack s' c = colorstack s c) /\
     (Py.isdecimal line = true ->
      Z.of_nat (String.length line) <= Py.MAX_STR_DIGITS ->
      exists s' v,
        turn c s = Ok s' /\ stdin s' = more /\
        colorstat s' c "ini" = colorstat s c "ini" + 1 /\
        Py.int line = Ok v /\
        colorstack s' c = colorstack s c ++ [v] /\
        0 <= v) /\
     (Py.isdecimal line = true ->
      Py.MAX_STR_DIGITS < Z.of_nat (String.length line) ->
      turn c s = Raise ValueError)).
Proof.
  intros Hrun Hop.
  rewrite (turn_running c s _ Hrun Hop) by discriminate.
  replace (colorexec c s) with (counted c "ini" (exec_ini c s))
    by (unfold colorexec; now rewrite Hop).
  unfold exec_ini, input. split.
  - intros ->. reflexivity.
  - intros line more ->. cbn [bind].
    assert (Hin : forall st, stdin (advance c (bump c "ini" st)) = stdin st)
      by (intro st; unfold advance; now destruct (_ =? _)).
    split; [|split].
    + intros ->. cbn [counted bind]. eexists. split; [reflexivity|].
      rewrite advance_stack, advance_stat, bump_same, Hin. auto.
    + intros Hd Hlen. rewrite Hd. unfold Py.int.
      replace (_ <=? Py.MAX_STR_DIGITS) with true
        by (symmetry; apply Z.leb_le; exact Hlen).
      cbn [counted bind]. eexists. eexists. split; [reflexivity|].
      rewrite advance_stack, advance_stat, bump_same, Hin.
      split; [reflexivity|]. split; [reflexivity|].
      split; [reflexivity|]. split; [cbn; now rewrite upd_same|].
      apply int_acc_nonneg; [lia|].
      destruct line; [discriminate Hd | exact Hd].
    + intros Hd Hlen. rewrite Hd. unfold Py.int.
      replace (_ <=? Py.MAX_STR_DIGITS) with false
        by (symmetry; apply Z.leb_gt; exact Hlen).
      reflexivity.
Qed.

Lemma ini_turn_witness :
  exists s' v,
    turn R (start 1 false (fun _ => [0xD8]) ["42"%string]) = Ok s' /\
    stdin s' = [] /\
    colorstat s' R "ini" = 0 + 1 /\
    Py.int "42" = Ok v /\
    colorstack s' R = [] ++ [v] /\
    0 <= v.
Proof.
  refine (proj1 (proj2 (proj2 (ini_turn R
            (start 1 false (fun _ => [0xD8]) ["42"%string])
            eq_refl eq_refl) "42"%string [] eq_refl)) eq_refl _).
  vm_compute. discriminate.
Defined.

(** ** Instructions that undo each other *)

(** After the turn of a running thread on an instruction that leaves
    its address and state to the main sequence, away from the last
    address: the thread is RUNNING on the next address of the same
    program. *)
Lemma turn_then (c : color) (s s1 : vm) (op : Z) :
  colorstate s c = RUNNING ->
  Py.index (colorcode s c) (colorip s c) = Ok op ->
  op <> 0xBC -> op <> 0xC0 ->
  colorexec c s = Ok s1 ->
  colorip s1 c = colorip s c -> colorstate s1 c = RUNNING ->
  colorip s c + 1 <> size s ->
  turn c s = Ok (advance c s1) /\
  colorstack (advance c s1) c = colorstack s1 c /\
  colorstate (advance c s1) c = RUNNING /\
  colorip (advance c s1) c = colorip s c + 1 /\
  colorcode (advance c s1) = colorcode s /\
  size (advance c s1) = size s.
Proof.
  intros Hrun Hop H1 H2 Hex Hip Hst Hlast.
  rewrite (turn_running c s op Hrun Hop H1 H2), Hex. cbn [bind].
  destruct (colorexec_apart c s s1 Hex) as (Hsz & _ & Hcode & _).
  destruct (advance_apart c s1) as (Hsz' & _ & Hcode' & _).
  rewrite advance_stack, advance_state, advance_ip, Hip, Hsz.
  apply Z.eqb_neq in Hlast. rewrite Hlast.
  repeat split; congruence.
Qed.

Lemma colorexec_swap (c : color) (s : vm) :
  Py.index (colorcode s c) (colorip s c) = Ok 0x98 ->
  exists s1,
    colorexec c s = Ok s1 /\ colorip s1 c = colorip s c /\
    colorstate s1 c = colorstate s c /\
    ((Py.len (colorstack s c) < 2 /\ colorstack s1 c = colorstack s c) \/
     (exists rest y x, colorstack s c = rest ++ [y; x] /\
                       colorstack s1 c = rest ++ [x; y])).
Proof.
  intro Hop.
  replace (colorexec c s) with (counted c "swap" (exec_swap c s))
    by (unfold colorexec; now rewrite Hop).
  unfold exec_swap.
  destruct (Z.leb_spec 2 (Py.len (colorstack s c))) as [Hlen|Hlen].
  - destruct (last2_split _ Hlen) as (rest & y & x & E). rewrite E.
    change (rest ++ [y; x]) with (rest ++ [y] ++ [x]) at 1.
    rewrite app_assoc, pop_append. cbn [bind]. rewrite pop_append.
    cbn [bind counted]. eexists. split; [reflexivity|].
    cbn. rewrite upd_same. repeat split. right.
    exists rest, y, x. split; [reflexivity|].
    unfold Py.append. now rewrite <- app_assoc.
  - cbn [counted bind]. eexists. split; [reflexivity|]. cbn. auto.
Qed.

(** X17.  Two [swap] instructions in a row leave the stack as it was,
    whatever its depth. *)
Theorem swap_swap_identity (c : color) (s : vm) :
  colorstate s c = RUNNING ->
  Py.index (colorcode s c) (colorip s c) = Ok 0x98 ->
  Py.index (colorcode s c) (colorip s c + 1) = Ok 0x98 ->
  colorip s c + 1 <> size s ->
  exists s1 s2,
    turn c s = Ok s1 /\ turn c s1 = Ok s2 /\
    colorstack s2 c = colorstack s c /\
    colorip s2 c = colorip s c + 2.
Proof.
  intros Hrun Hop Hop2 Hlast.
  destruct (colorexec_swap c s Hop) as (e1 & Hex & Hip & Hst & Hstack).
  destruct (turn_then c s e1 _ Hrun Hop) as (T1 & K1 & R1 & I1 & C1 & Z1);
    try discriminate; try congruence.
  set (s1 := advance c e1) in *.
  assert (Hop' : Py.index (colorcode s1 c) (colorip s1 c) = Ok 0x98)
    by (rewrite C1, I1; exact Hop2).
  destruct (colorexec_swap c s1 Hop') as (e2 & Hex2 & Hip2 & Hst2 & Hstack2).
  exists s1, (advance c e2). split; [exact T1|].
  rewrite (turn_running c s1 _ R1 Hop') by discriminate.
  rewrite Hex2. cbn [bind]. split; [reflexivity|].
  rewrite advance_stack, advance_ip, Hip2, I1. split; [|lia].
  rewrite K1 in Hstack2.
  destruct Hstack as [[Hl E]|(rest & y & x & E & E')].
  - destruct Hstack2 as [[_ ->]|(r2 & y2 & x2 & F & _)]; [congruence|].
    exfalso. rewrite E in F. rewrite F, len_app in Hl.
    pose proof (len_nonneg r2). change (Py.len [y2; x2]) with 2 in Hl. lia.
  - destruct Hstack2 as [[Hl _]|(r2 & y2 & x2 & F & ->)].
    + exfalso. rewrite E', len_app in Hl.
      pose proof (len_nonneg rest). change (Py.len [x; y]) with 2 in Hl. lia.
    + rewrite E' in F. rewrite E.
      change (rest ++ [x; y]) with (rest ++ [x] ++ [y]) in F.
      change (r2 ++ [y2; x2]) with (r2 ++ [y2] ++ [x2]) in F.
      rewrite !app_assoc in F.
      apply app_inj_tail in F. destruct F as [F ->].
      apply app_inj_tail in F. destruct F as [-> ->]. reflexivity.
Qed.

Lemma swap_swap_identity_witness :
  exists s1 s2,
    turn R (set_stack R [1; 2] (start 3 false (fun _ => [0x98; 0x98; 0xC0]) []))
    = Ok s1 /\
    turn R s1 = Ok s2 /\
    colorstack s2 R = [1; 2] /\
    colorip s2 R = 0 + 2.
Proof.
  apply (swap_swap_identity R
           (set_stack R [1; 2]
              (start 3 false (fun _ => [0x98; 0x98; 0xC0]) [])));
    try reflexivity.
  cbn. lia.
Defined.

(** X18.  [not] leaves [- x - 1] and [neg] leaves [- x] in place of the
    top [x], so [not] is [neg] followed by subtracting one. *)
Theorem not_neg_turn (c : color) (s : vm) (rest : list Z) (x : Z) :
  colorstate s c = RUNNING ->
  colorstack s c = rest ++ [x] ->
  (Py.index (colorcode s c) (colorip s c) = Ok 0xA4 ->
   exists s', turn c s = Ok s' /\ colorstack s' c = rest ++ [- x - 1]) /\
  (Py.index (colorcode s c) (colorip s c) = Ok 0xE4 ->
   exists s', turn c s = Ok s' /\ colorstack s' c = rest ++ [- x]).
Proof.
  intros Hrun Hst. pose proof (len_nonneg rest).
  assert (Hlen : (1 <=? Py.len (rest ++ [x])) = true)
    by (apply Z.leb_le; rewrite len_app; change (Py.len [x]) with 1; lia).
  split; intro Hop;
    rewrite (turn_running c s _ Hrun Hop) by discriminate.
  - replace (colorexec c s) with (counted c "not" (unop c Z.lnot s))
      by (unfold colorexec; now rewrite Hop).
    unfold unop. rewrite Hst, Hlen, pop_append. cbn [bind counted].
    eexists. split; [reflexivity|]. rewrite stack_after.
    unfold Py.append.
    replace (Z.lnot x) with (- x - 1) by (unfold Z.lnot; lia). reflexivity.
  - replace (colorexec c s) with (counted c "neg" (unop c (fun x => 0 - x) s))
      by (unfold colorexec; now rewrite Hop).
    unfold unop. rewrite Hst, Hlen, pop_append. cbn [bind counted].
    eexists. split; [reflexivity|]. rewrite stack_after.
    unfold Py.append. replace (0 - x) with (- x) by lia. reflexivity.
Qed.

Lemma not_neg_turn_witness :
  exists s',
    turn R (set_stack R [5] (start 1 false (fun _ => [0xA4]) [])) = Ok s' /\
    colorstack s' R = [] ++ [- 5 - 1].
Proof.
  exact (proj1 (not_neg_turn R
           (set_stack R [5] (start 1 false (fun _ => [0xA4]) []))
           [] 5 eq_refl eq_refl) eq_refl).
Defined.

(** * Further properties of the loader *)

Lemma read_cells_length (img : image) (cellsize : Z) (n : nat) :
  forall p code code',
    read_cells n img cellsize p code = Ok code' ->
    forall c, Py.len (code' c) = Py.len (code c) + Z.of_nat n.
Proof.
  induction n as [|k IH]; intros p code code' H c; cbn [read_cells] in H.
  - injection H as <-. lia.
  - destruct (getpixel img (fst p) (snd p)) as [[[cr cg] cb]|];
      cbn [bind] in H; [|discriminate].
    rewrite (IH _ _ _ H c). unfold Py.append.
    destruct c; cbn [upd color_eqb]; rewrite len_app;
      change (Py.len [_]) with 1; lia.
Qed.

(** X19.  The three code arrays of a loaded program have the announced
    size, which is at least 1. *)
Theorem decode_lengths (img : image) (sz : Z) (code : color -> list Z) :
  decode img = Ok (Program sz code) ->
  1 <= sz /\ forall c, Py.len (code c) = sz.
Proof.
  intro H. split; [exact (decode_size_positive img sz code H)|].
  pose proof (decode_size_positive img sz code H) as Hpos.
  unfold decode in H. destruct (header img) as [[m|[cs sz0]]|];
    cbn [bind] in H; try discriminate.
  destruct (sz0 =? 0); [discriminate|].
  destruct (read_cells _ _ _ _ _) as [code0|] eqn:E; cbn [bind] in H;
    [|discriminate].
  injection H as <- <-. intro c.
  rewrite (read_cells_length _ _ _ _ _ _ E c).
  change (Py.len (@nil Z)) with 0. lia.
Qed.

Lemma decode_lengths_witness :
  exists code,
    decode column_image = Ok (Program 1 code) /\
    1 <= 1 /\ forall c, Py.len (code c) = 1.
Proof.
  eexists. split; [vm_compute; reflexivity|].
  eapply (decode_lengths column_image). vm_compute. reflexivity.
Defined.

(** ** The order in which the cells are read *)

Lemma succ_div_mod (cols j : Z) :
  0 < cols -> 0 <= j ->
  (j mod cols + 1 < cols /\
   (j + 1) mod cols = j mod cols + 1 /\ (j + 1) / cols = j / cols)
  \/ (j mod cols + 1 = cols /\
      (j + 1) mod cols = 0 /\ (j + 1) / cols = j / cols + 1).
Proof.
  intros Hc Hj.
  pose proof (Z.div_mod j cols ltac:(lia)) as Hdm.
  pose proof (Z.mod_pos_bound j cols Hc) as Hb.
  destruct (Z_lt_ge_dec (j mod cols + 1) cols) as [Hlt|Hge].
  - left. split; [exact Hlt|]. split.
    + symmetry. apply (Z.mod_unique (j + 1) cols (j / cols)); lia.
    + symmetry. apply (Z.div_unique (j + 1) cols (j / cols) (j mod cols + 1));
        lia.
  - right. split; [lia|]. split.
    + symmetry. apply (Z.mod_unique (j + 1) cols (j / cols + 1)); lia.
    + symmetry. apply (Z.div_unique (j + 1) cols (j / cols + 1) 0); lia.
Qed.

Lemma next_cell_corner (img : image) (cols cellsize j : Z) :
  0 < cellsize -> 0 < cols -> imgxsize img = cols * cellsize -> 0 <= j ->
  next_cell img cellsize (cell_corner cols cellsize j)
  = cell_corner cols cellsize (j + 1).
Proof.
  intros Hcs Hc Hw Hj. unfold next_cell, cell_corner. cbn [fst snd].
  rewrite Hw.
  destruct (succ_div_mod cols j Hc Hj) as [(H1 & -> & ->) | (H1 & -> & ->)].
  - replace (j mod cols * cellsize + cellsize >? cols * cellsize - 1)
      with false by (symmetry; rewrite Z.gtb_ltb; apply Z.ltb_ge; nia).
    f_equal. lia.
  - replace (j mod cols * cellsize + cellsize >? cols * cellsize - 1)
      with true by (symmetry; rewrite Z.gtb_ltb; apply Z.ltb_lt; nia).
    f_equal; lia.
Qed.

Lemma nth_cell_corner (img : image) (cols cellsize : Z) (k : nat) :
  0 < cellsize -> 0 < cols -> imgxsize img = cols * cellsize ->
  forall j, 0 <= j ->
    nth_cell k img cellsize (cell_corner cols cellsize j)
    = cell_corner cols cellsize (j + Z.of_nat k).
Proof.
  intros Hcs Hc Hw. induction k as [|k IH]; intros j Hj; cbn [nth_cell].
  - f_equal. lia.
  - rewrite (next_cell_corner img cols cellsize j Hcs Hc Hw Hj).
    rewrite IH by lia. f_equal. lia.
Qed.

(** Reading [n] cells that all lie inside the image appends, to each
    array, its channel of the [n] pixels at the corners walked. *)
Lemma read_cells_inside (img : image) (cellsize : Z) (n : nat) :
  forall p code,
    (forall k, (k < n)%nat ->
       inside img (fst (nth_cell k img cellsize p))
                  (snd (nth_cell k img cellsize p)) = true) ->
    exists code',
      read_cells n img cellsize p code = Ok code' /\
      forall c,
        code' c =
        code c ++ map (fun k => channel c
                                  (pixels img
                                     (fst (nth_cell k img cellsize p))
                                     (snd (nth_cell k img cellsize p))))
                      (seq 0 n).
Proof.
  induction n as [|m IH]; intros p code Hin; cbn [read_cells].
  - exists code. split; [reflexivity|]. intro c. cbn. now rewrite app_nil_r.
  - pose proof (Hin O ltac:(lia)) as H0. cbn [nth_cell] in H0.
    assert (Hxy : 0 <= fst p /\ 0 <= snd p).
    { unfold inside in H0. repeat (apply andb_true_iff in H0;
                                   destruct H0 as [H0 ?]).
      apply Z.leb_le in H0. split; [lia|].
      match goal with H : (0 <=? snd p) = true |- _ =>
        apply Z.leb_le in H; lia end. }
    unfold getpixel.
    replace (fst p <? 0) with false by (symmetry; apply Z.ltb_ge; lia).
    replace (snd p <? 0) with false by (symmetry; apply Z.ltb_ge; lia).
    rewrite H0. destruct (pixels img (fst p) (snd p)) as [[r g] b] eqn:Ep.
    cbn [bind].
    match goal with
    | |- exists code', read_cells m img cellsize ?p' ?c3 = _ /\ _ =>
        destruct (IH p' c3) as (code' & E & Hcode)
    end.
    { intros k Hk. apply (Hin (S k)). lia. }
    exists code'. split; [exact E|]. intro c. rewrite (Hcode c).
    cbn [seq map nth_cell]. rewrite Ep. rewrite <- seq_shift, map_map.
    unfold Py.append.
    destruct c; cbn [upd color_eqb channel]; rewrite <- app_assoc;
      reflexivity.
Qed.

Lemma index_map_seq {A : Type} (f : nat -> A) (n : nat) (k : Z) :
  0 <= k < Z.of_nat n ->
  Py.index (map f (seq 0 n)) k = Ok (f (Z.to_nat k)).
Proof.
  intros [H0 H1]. unfold Py.index, Py.len.
  rewrite length_map, length_seq.
  replace (k <? 0) with false by (symmetry; apply Z.ltb_ge; lia).
  replace ((0 <=? k) && (k <? Z.of_nat n)) with true
    by (symmetry; apply andb_true_iff; split;
        [apply Z.leb_le | apply Z.ltb_lt]; lia).
  rewrite nth_error_map, nth_error_seq.
  replace (Z.to_nat k <? n)%nat with true
    by (symmetry; apply Nat.ltb_lt; lia).
  reflexivity.
Qed.

(** X20.  In an image [cols] cells wide whose width fits the place where
    the loader looks for the first program cell (cell number 2, after
    the two metadata cells) and which is high enough for the last
    cell, loading succeeds and entry [k] of each array is the
    matching channel of cell number [k + 2] in row order. *)
Theorem decode_row_major (img : image) (cols cellsize sz : Z) :
  0 < cellsize -> 0 < cols ->
  imgxsize img = cols * cellsize ->
  header img = Ok (inr (cellsize, sz)) ->
  1 <= sz ->
  first_cell cellsize sz = cell_corner cols cellsize 2 ->
  ((sz + 1) / cols) * cellsize < imgysize img ->
  exists code,
    decode img = Ok (Program sz code) /\
    forall c k, 0 <= k < sz ->
      Py.index (code c) k
      = Ok (channel c
              (pixels img (fst (cell_corner cols cellsize (k + 2)))
                          (snd (cell_corner cols cellsize (k + 2))))).
Proof.
  intros Hcs Hc Hw Hh Hsz Hfirst Hhigh.
  unfold decode. rewrite Hh. cbn [bind].
  replace (sz =? 0) with false by (symmetry; apply Z.eqb_neq; lia).
  rewrite Hfirst.
  destruct (read_cells_inside img cellsize (Z.to_nat sz)
              (cell_corner cols cellsize 2) (fun _ => []))
    as (code & E & Hcode).
  { intros k Hk.
    rewrite (nth_cell_corner img cols cellsize k Hcs Hc Hw) by lia.
    unfold cell_corner, inside. cbn [fst snd].
    pose proof (Z.mod_pos_bound (2 + Z.of_nat k) cols Hc) as Hm.
    assert (Hd0 : 0 <= (2 + Z.of_nat k) / cols)
      by (apply Z.div_pos; lia).
    assert (Hd1 : (2 + Z.of_nat k) / cols <= (sz + 1) / cols)
      by (apply Z.div_le_mono; lia).
    repeat (apply andb_true_iff; split);
      [apply Z.leb_le | apply Z.ltb_lt | apply Z.leb_le | apply Z.ltb_lt];
      nia. }
  rewrite E. cbn [bind]. exists code. split; [reflexivity|].
  intros c k Hk. rewrite (Hcode c). cbn [app].
  rewrite index_map_seq by lia.
  rewrite (nth_cell_corner img cols cellsize _ Hcs Hc Hw) by lia.
  rewrite Z2Nat.id by lia. replace (2 + k) with (k + 2) by lia. reflexivity.
Qed.

Lemma decode_row_major_witness :
  exists code,
    decode column_image = Ok (Program 1 code) /\
    forall c k, 0 <= k < 1 ->
      Py.index (code c) k
      = Ok (channel c
              (pixels column_image (fst (cell_corner 1 1 (k + 2)))
                                   (snd (cell_corner 1 1 (k + 2))))).
Proof.
  apply (decode_row_major column_image 1 1 1);
    try reflexivity; try lia.
Defined.

(** ** The version test *)

(** X21.  The loader stops with the invalid-version report exactly when
    the version in the first pixel is above 1.0, major number first;
    this is tested before the size cell is read. *)
Theorem version_gate (img : image) (major minor cellsize : Z) :
  getpixel img 0 0 = Ok (major, minor, cellsize) ->
  (decode img = Ok (Stopped (Invalid_version major minor))
   <-> (V_MAJOR < major \/ (major = V_MAJOR /\ V_MINOR < minor))).
Proof.
  intro Hpix. unfold decode, header. rewrite Hpix. cbn [bind].
  destruct ((major >? V_MAJOR)
            || ((major =? V_MAJOR) && (minor >? V_MINOR))) eqn:Hv.
  - cbn [bind]. split; [intros _|reflexivity].
    apply orb_true_iff in Hv. destruct Hv as [Hv|Hv].
    + left. rewrite Z.gtb_ltb in Hv. now apply Z.ltb_lt in Hv.
    + right. apply andb_true_iff in Hv. destruct Hv as [H1 H2].
      apply Z.eqb_eq in H1. rewrite Z.gtb_ltb in H2.
      apply Z.ltb_lt in H2. auto.
  - split.
    + intro H. exfalso.
      destruct (if imgxsize img =? cellsize then _ else _)
        as [[[s3 s2] s1]|]; cbn [bind] in H; [|discriminate].
      destruct (_ =? 0); [discriminate|].
      destruct (read_cells _ _ _ _ _); cbn [bind] in H; discriminate.
    + intro H. exfalso. apply orb_false_iff in Hv. destruct Hv as [H1 H2].
      rewrite Z.gtb_ltb in H1. apply Z.ltb_ge in H1.
      destruct H as [H|[H3 H4]]; [lia|].
      apply andb_false_iff in H2. destruct H2 as [H2|H2].
      * apply Z.eqb_neq in H2. contradiction.
      * rewrite Z.gtb_ltb in H2. apply Z.ltb_ge in H2. lia.
Qed.

Lemma version_gate_witness :
  decode (mk_image 1 1 (fun _ _ => (1, 1, 1)%N))
  = Ok (Stopped (Invalid_version 1 1)).
Proof.
  apply (version_gate (mk_image 1 1 (fun _ _ => (1, 1, 1)%N)) 1 1 1 eq_refl).
  right. unfold V_MAJOR, V_MINOR. lia.
Defined.

(** ** A cell size of zero *)

Lemma nth_cell_fixed (img : image) (k : nat) :
  0 < imgxsize img -> nth_cell k img 0 (0, 0) = (0, 0).
Proof.
  intro Hw. induction k as [|k IH]; cbn [nth_cell]; [reflexivity|].
  unfold next_cell. cbn [fst snd Z.add].
  replace (0 >? imgxsize img - 1) with false
    by (symmetry; rewrite Z.gtb_ltb; apply Z.ltb_ge; lia).
  exact IH.
Qed.

(** X22.  The loader accepts a cell size of 0.  The size is then read from
    the first pixel again, and when it is at least 7 every entry of
    the code arrays is a copy of that pixel: the walk never leaves
    the corner. *)
Theorem zero_cellsize_repeats_header (img : image) (sz : Z) :
  0 < imgxsize img -> 0 < imgysize img ->
  header img = Ok (inr (0, sz)) ->
  7 <= sz ->
  exists code,
    decode img = Ok (Program sz code) /\
    forall c k, 0 <= k < sz ->
      Py.index (code c) k = Ok (channel c (pixels img 0 0)).
Proof.
  intros Hw Hh Hhead Hsz. unfold decode. rewrite Hhead. cbn [bind].
  replace (sz =? 0) with false by (symmetry; apply Z.eqb_neq; lia).
  assert (Hfirst : first_cell 0 sz = (0, 0)).
  { unfold first_cell.
    replace (sz =? 1) with false by (symmetry; apply Z.eqb_neq; lia).
    replace ((2 <=? sz) && (sz <=? 6)) with false; [reflexivity|].
    symmetry. apply andb_false_iff. right. apply Z.leb_gt. lia. }
  rewrite Hfirst.
  destruct (read_cells_inside img 0 (Z.to_nat sz) (0, 0) (fun _ => []))
    as (code & E & Hcode).
  { intros k _. rewrite (nth_cell_fixed img k Hw). unfold inside.
    cbn [fst snd].
    repeat (apply andb_true_iff; split);
      [reflexivity | apply Z.ltb_lt; lia | reflexivity | apply Z.ltb_lt; lia]. }
  rewrite E. cbn [bind]. exists code. split; [reflexivity|].
  intros c k Hk. rewrite (Hcode c). cbn [app].
  rewrite index_map_seq by lia.
  now rewrite (nth_cell_fixed img _ Hw).
Qed.

Lemma zero_cellsize_repeats_header_witness :
  exists code,
    decode (mk_image 1 1 (fun _ _ => (0, 1, 0)%N)) = Ok (Program 256 code) /\
    forall c k, 0 <= k < 256 ->
      Py.index (code c) k
      = Ok (channel c (pixels (mk_image 1 1 (fun _ _ => (0, 1, 0)%N)) 0 0)).
Proof.
  apply (zero_cellsize_repeats_header
           (mk_image 1 1 (fun _ _ => (0, 1, 0)%N)) 256);
    try reflexivity; cbn; lia.
Defined.

(** * Properties of the disassembly listing *)

Lemma str_injective (a b : Z) : PyStr.str a = PyStr.str b -> a = b.
Proof.
  unfold PyStr.str. intro H.
  assert (Hn : forall z, Z.to_int z <> Decimal.Pos Decimal.Nil /\
                         Z.to_int z <> Decimal.Neg Decimal.Nil).
  { intro z. destruct z; cbn; split; try discriminate;
      intro E; injection E as E;
      exact (DecimalPos.Unsigned.to_uint_nonnil _ E). }
  apply (f_equal NilZero.int_of_string) in H.
  rewrite !NilZero.isi in H by apply Hn.
  injection H as H. apply (f_equal Z.of_int) in H.
  now rewrite !DecimalZ.of_to in H.
Qed.

Lemma mnemonic_is_not_push (b : Z) (m x : string) :
  dict_get disasmdict b = Some m -> m <> String.append "push " x.
Proof.
  unfold disasmdict. cbn [dict_get].
  repeat match goal with
         | |- context [?k =? b] =>
             destruct (k =? b); [intros [= <-]; discriminate|]
         end.
  discriminate.
Qed.

(** The inverse of [disasmdict], for the proof that no two bytes
    share a mnemonic. *)
Lemma mnemonic_injective (a b : Z) (m : string) :
  dict_get disasmdict a = Some m -> dict_get disasmdict b = Some m -> a = b.
Proof.
  unfold disasmdict. cbn [dict_get].
  repeat match goal with
         | |- context [?k =? a] =>
             destruct (Z.eqb_spec k a) as [<-|?];
             [intros [= <-];
              repeat match goal with
                     | |- context [?j =? b] =>
                         destruct (Z.eqb_spec j b) as [<-|?];
                         [intro; first [reflexivity | discriminate]|]
                     end;
              discriminate|]
         end.
  discriminate.
Qed.

(** X23.  Different bytes never have the same text in the listing, so the
    listing determines the program. *)
Theorem disasm_injective (a b : Z) : disasm a = disasm b -> a = b.
Proof.
  unfold disasm.
  destruct (dict_get disasmdict a) as [ma|] eqn:Ea;
    destruct (dict_get disasmdict b) as [mb|] eqn:Eb; intro H.
  - subst mb. exact (mnemonic_injective a b ma Ea Eb).
  - exfalso. exact (mnemonic_is_not_push a ma _ Ea H).
  - exfalso. exact (mnemonic_is_not_push b mb _ Eb (eq_sym H)).
  - apply str_injective. cbn in H. now injection H.
Qed.

Lemma disasm_injective_witness : 0x80 = 128.
Proof. exact (disasm_injective 0x80 128 eq_refl). Defined.

(** X24.  A byte that is neither a literal nor assigned is listed as a
    [push] of that byte, while executing it pushes nothing: the
    thread writes the invalid-instruction message and its stack is
    unchanged. *)
Theorem invalid_byte_listed_as_push (b : Z) (c : color) (s s' : vm) :
  invalid_byte b = true ->
  colorstate s c = RUNNING ->
  Py.index (colorcode s c) (colorip s c) = Ok b ->
  turn c s = Ok s' ->
  disasm b = String.append "push " (PyStr.str b) /\
  colorstack s' c = colorstack s c /\
  (args_silent s = false ->
   console s' = console s ++ [Info (Invalid_instruction b c (colorip s c))]).
Proof.
  intros Hinv Hrun Hop Hturn. split.
  - unfold disasm. unfold invalid_byte in Hinv.
    apply andb_true_iff in Hinv. destruct Hinv as [_ Hd].
    destruct (dict_get disasmdict b); [discriminate|reflexivity].
  - rewrite (turn_invalid c s b Hrun Hop Hinv) in Hturn.
    injection Hturn as <-.
    rewrite advance_stack, advance_console. unfold mesg.
    split.
    + destruct (args_silent s); reflexivity.
    + intros ->. reflexivity.
Qed.

Lemma invalid_byte_listed_as_push_witness :
  exists s',
    turn R (start 2 false (fun _ => [0xFF; 0xC0]) []) = Ok s' /\
    disasm 0xFF = String.append "push " (PyStr.str 0xFF) /\
    colorstack s' R = [] /\
    (false = false ->
     console s' = [] ++ [Info (Invalid_instruction 0xFF R 0)]).
Proof.
  eexists. split; [reflexivity|].
  apply (invalid_byte_listed_as_push 0xFF R
           (start 2 false (fun _ => [0xFF; 0xC0]) [])); reflexivity.
Defined.

(** X25.  Every byte value fills exactly the nine characters of its column
    in the listing. *)
Theorem disasm_column_width (b : Z) :
  0 <= b <= 255 -> String.length (PyStr.ljust 9 (disasm b)) = 9%nat.
Proof.
  intro Hb.
  assert (Hall : forallb
            (fun n => Nat.eqb
               (String.length (PyStr.ljust 9 (disasm (Z.of_nat n)))) 9)
            (seq 0 256) = true) by (vm_compute; reflexivity).
  rewrite forallb_forall in Hall.
  specialize (Hall (Z.to_nat b)).
  rewrite Z2Nat.id in Hall by lia.
  apply Nat.eqb_eq, Hall, in_seq. lia.
Qed.

Lemma disasm_column_width_witness :
  String.length (PyStr.ljust 9 (disasm 0xEC)) = 9%nat.
Proof. apply disasm_column_width. lia. Defined.

Lemma disasm_lines_total (code : color -> list Z) (n : nat) :
  forall i, 0 <= i ->
    (forall c, i + Z.of_nat n <= Py.len (code c)) ->
    exists lines,
      disasm_lines n i code = Ok lines /\ List.length lines = n.
Proof.
  induction n as [|k IH]; intros i Hi Hlen; cbn [disasm_lines].
  - exists []. split; reflexivity.
  - destruct (index_in_range (code R) i) as (r & -> & _);
      [pose proof (Hlen R); lia|].
    destruct (index_in_range (code G) i) as (g & -> & _);
      [pose proof (Hlen G); lia|].
    destruct (index_in_range (code B) i) as (b & -> & _);
      [pose proof (Hlen B); lia|].
    cbn [bind].
    destruct (IH (i + 1)) as (rest & -> & Hrest); [lia | |].
    + intro c. pose proof (Hlen c). lia.
    + cbn [bind]. eexists. split; [reflexivity|]. cbn. now rewrite Hrest.
Qed.

(** X26.  The disassembly mode never fails on a loaded program: it prints
    one line for each of its [size] addresses. *)
Theorem listing_of_loaded_program (img : image) (sz : Z)
    (code : color -> list Z) :
  decode img = Ok (Program sz code) ->
  exists lines,
    disasm_listing sz code = Ok lines /\ Py.len lines = sz.
Proof.
  intro Hd.
  assert (Hsz : 1 <= sz) by exact (decode_size_positive img sz code Hd).
  assert (Hlen : forall c, Py.len (code c) = sz).
  { unfold decode in Hd. destruct (header img) as [[m|[cs sz0]]|];
      cbn [bind] in Hd; try discriminate.
    destruct (sz0 =? 0); [discriminate|].
    destruct (read_cells _ _ _ _ _) as [code0|] eqn:E; cbn [bind] in Hd;
      [|discriminate].
    injection Hd as <- <-. intro c.
    rewrite (read_cells_length _ _ _ _ _ _ E c).
    change (Py.len (@nil Z)) with 0. lia. }
  destruct (disasm_lines_total code (Z.to_nat sz) 0) as (lines & E & Hl);
    [lia | intro c; rewrite Hlen; lia |].
  exists lines. split; [exact E|]. unfold Py.len. rewrite Hl. lia.
Qed.

Lemma listing_of_loaded_program_witness :
  exists code,
    decode column_image = Ok (Program 1 code) /\
    exists lines, disasm_listing 1 code = Ok lines /\ Py.len lines = 1.
Proof.
  eexists. split; [vm_compute; reflexivity|].
  eapply (listing_of_loaded_program column_image). vm_compute. reflexivity.
Defined.

(** * When the main sequence stops *)

Lemma count_state_zero (t : tstate) (s : vm) :
  count_state t s = 0 <-> forall c, colorstate s c <> t.
Proof.
  unfold count_state, colors. split.
  - intros H c. 
    destruct (tstate_eqb (colorstate s R) t) eqn:ER;
      destruct (tstate_eqb (colorstate s G) t) eqn:EG;
      destruct (tstate_eqb (colorstate s B) t) eqn:EB;
      cbn [filter] in H; rewrite ?ER, ?EG, ?EB in H; try discriminate H.
    intro E. apply tstate_eqb_eq in E. destruct c; congruence.
  - intro H. cbn [filter].
    replace (tstate_eqb (colorstate s R) t) with false
      by (symmetry; destruct (tstate_eqb _ _) eqn:E; [|reflexivity];
          apply tstate_eqb_eq in E; now apply H in E).
    replace (tstate_eqb (colorstate s G) t) with false
      by (symmetry; destruct (tstate_eqb _ _) eqn:E; [|reflexivity];
          apply tstate_eqb_eq in E; now apply H in E).
    replace (tstate_eqb (colorstate s B) t) with false
      by (symmetry; destruct (tstate_eqb _ _) eqn:E; [|reflexivity];
          apply tstate_eqb_eq in E; now apply H in E).
    reflexivity.
Qed.

(** X27.  An iteration sets [terminate] exactly when it leaves no thread
    RUNNING; the report it then writes is the deadlock report if some
    thread is left in AWAIT and the halted report otherwise. *)
Theorem iteration_stops_when_none_runs (s s' : vm) (t : bool) :
  iteration s = Ok (s', t) ->
  (t = true <-> forall c, colorstate s' c <> RUNNING) /\
  (t = true -> args_silent s' = false ->
   exists before,
     console s' = before ++ [Info Thread_deadlock] /\
     (exists c, colorstate s' c = AWAIT)
     \/ console s' = before ++ [Info Threads_halted] /\
        (forall c, colorstate s' c <> AWAIT)).
Proof.
  unfold iteration. intro H.
  destruct (for_colors colors s) as [s1|]; cbn [bind] in H; [|discriminate].
  pose proof (count_state_zero RUNNING s1) as Hrun.
  pose proof (count_state_zero AWAIT s1) as Hwait.
  destruct (Z.eqb_spec (count_state RUNNING s1) 0) as [E|E].
  - assert (Hst : colorstate s' = colorstate s1 /\
                  (args_silent s' = false ->
                   console s' = console s1 ++
                     [Info (if negb (count_state AWAIT s1 =? 0)
                            then Thread_deadlock else Threads_halted)])).
    { unfold mesg in H.
      destruct (negb _); destruct (args_silent s1) eqn:Hs;
        injection H as <- <-; (split; [reflexivity|]);
        cbn; intro; congruence. }
    destruct Hst as [Hst Hcon].
    assert (t = true)
      by (destruct (negb _); now injection H as _ <-).
    subst t. rewrite Hst. split.
    + split; [intros _; now apply Hrun | reflexivity].
    + intros _ Hsil. exists (console s1). rewrite (Hcon Hsil).
      destruct (Z.eqb_spec (count_state AWAIT s1) 0) as [Ea|Ea]; cbn [negb].
      * right. split; [reflexivity | now apply Hwait].
      * left. split; [reflexivity|].
        destruct (colorstate s1 R) eqn:ER; try (exists R; exact ER);
          destruct (colorstate s1 G) eqn:EG; try (exists G; exact EG);
          destruct (colorstate s1 B) eqn:EB; try (exists B; exact EB);
          exfalso; apply Ea, Hwait; intros []; congruence.
  - injection H as <- <-. split; [|discriminate].
    split; [discriminate|]. intro Hno. exfalso. now apply E, Hrun.
Qed.

Lemma iteration_stops_when_none_runs_witness :
  exists s',
    iteration (start 1 false deadlock_program []) = Ok (s', true) /\
    (true = true <-> forall c, colorstate s' c <> RUNNING).
Proof.
  eexists. split; [vm_compute; reflexivity|].
  eapply (proj1 (iteration_stops_when_none_runs
                   (start 1 false deadlock_program []) _ true _)).
  Unshelve. vm_compute. reflexivity.
Defined.

(** * The silent flag *)

Lemma hush_fields (s : vm) :
  size (hush s) = size s /\ colorcode (hush s) = colorcode s /\
  colorstack (hush s) = colorstack s /\
  colorstack_a (hush s) = colorstack_a s /\
  colorstate (hush s) = colorstate s /\ colorip (hush s) = colorip s /\
  colorstat (hush s) = colorstat s /\ waitstack (hush s) = waitstack s /\
  stdin (hush s) = stdin s /\ args_silent (hush s) = true.
Proof. repeat split. Qed.

Ltac hush_open :=
  repeat match goal with
         | |- context [colorstack (hush ?s)] =>
             change (colorstack (hush s)) with (colorstack s)
         | |- context [colorstack_a (hush ?s)] =>
             change (colorstack_a (hush s)) with (colorstack_a s)
         | |- context [colorcode (hush ?s)] =>
             change (colorcode (hush s)) with (colorcode s)
         | |- context [colorip (hush ?s)] =>
             change (colorip (hush s)) with (colorip s)
         | |- context [colorstate (hush ?s)] =>
             change (colorstate (hush s)) with (colorstate s)
         | |- context [waitstack (hush ?s)] =>
             change (waitstack (hush s)) with (waitstack s)
         | |- context [stdin (hush ?s)] =>
             change (stdin (hush s)) with (stdin s)
         | |- context [size (hush ?s)] =>
             change (size (hush s)) with (size s)
         | |- context [args_silent (hush ?s)] =>
             change (args_silent (hush s)) with true
         end.

Ltac hush_cases :=
  repeat first
    [ progress cbn [bind rmap]
    | match goal with
      | |- context [bind ?m _] =>
          lazymatch m with
          | Ok _ => fail
          | Raise _ => fail
          | bind _ _ => fail
          | (if _ then _ else _) => fail
          | _ => destruct m as [[? ?]|?]
          end
      | |- context [bind ?m _] =>
          lazymatch m with
          | Ok _ => fail
          | Raise _ => fail
          | bind _ _ => fail
          | (if _ then _ else _) => fail
          | _ => destruct m as [?|?]
          end
      | |- context [if ?b then _ else _] =>
          lazymatch b with
          | context [if _ then _ else _] => fail
          | _ => destruct b
          end
      end ].

Lemma hush_emit_print (s : vm) (e : event) :
  is_info e = false -> hush (emit e s) = emit e (hush s).
Proof.
  intro H. unfold hush, emit. cbn [console size args_silent colorcode
    colorstack colorstack_a colorstate colorip colorstat waitstack stdin].
  rewrite filter_app. cbn [filter]. now rewrite H.
Qed.

Lemma hush_mesg (m : message) (s : vm) : hush (mesg m s) = hush s.
Proof.
  unfold mesg. destruct (args_silent s); [reflexivity|].
  unfold hush, emit. cbn [console size args_silent colorcode
    colorstack colorstack_a colorstate colorip colorstat waitstack stdin].
  rewrite filter_app. cbn [filter is_info negb]. now rewrite app_nil_r.
Qed.

Lemma binop_hush (c : color) (f : Z -> Z -> result Z) (s : vm) :
  binop c f (hush s) = rmap hush (binop c f s).
Proof. unfold binop. cbv zeta. hush_open. hush_cases; reflexivity. Qed.

Lemma unop_hush (c : color) (f : Z -> Z) (s : vm) :
  unop c f (hush s) = rmap hush (unop c f s).
Proof. unfold unop. cbv zeta. hush_open. hush_cases; reflexivity. Qed.

Lemma exec_pop_hush (c : color) (s : vm) :
  exec_pop c (hush s) = rmap hush (exec_pop c s).
Proof. unfold exec_pop. cbv zeta. hush_open. hush_cases; reflexivity. Qed.

Lemma exec_swap_hush (c : color) (s : vm) :
  exec_swap c (hush s) = rmap hush (exec_swap c s).
Proof. unfold exec_swap. cbv zeta. hush_open. hush_cases; reflexivity. Qed.

Lemma exec_dup_hush (c : color) (s : vm) :
  exec_dup c (hush s) = rmap hush (exec_dup c s).
Proof. unfold exec_dup. cbv zeta. hush_open. hush_cases; reflexivity. Qed.

Lemma exec_rot_hush (c : color) (s : vm) :
  exec_rot c (hush s) = rmap hush (exec_rot c s).
Proof. unfold exec_rot. cbv zeta. hush_open. hush_cases; reflexivity. Qed.

Lemma exec_jmp_hush (z : bool) (c : color) (s : vm) :
  exec_jmp z c (hush s) = rmap hush (exec_jmp z c s).
Proof. unfold exec_jmp. cbv zeta. hush_open. hush_cases; reflexivity. Qed.

Lemma exec_outc_hush (c : color) (s : vm) :
  exec_outc c (hush s) = rmap hush (exec_outc c s).
Proof.
  unfold exec_outc. cbv zeta. hush_open. hush_cases; try reflexivity.
  rewrite hush_emit_print by reflexivity. reflexivity.
Qed.

Lemma exec_inc_hush (c : color) (s : vm) :
  exec_inc c (hush s) = rmap hush (exec_inc c s).
Proof.
  unfold exec_inc, input. hush_open.
  destruct (stdin s) as [|[|ch t] more]; reflexivity.
Qed.

Lemma exec_outi_hush (c : color) (s : vm) :
  exec_outi c (hush s) = rmap hush (exec_outi c s).
Proof.
  unfold exec_outi. cbv zeta. hush_open. hush_cases; try reflexivity.
  rewrite hush_emit_print by reflexivity. reflexivity.
Qed.

Lemma exec_ini_hush (c : color) (s : vm) :
  exec_ini c (hush s) = rmap hush (exec_ini c s).
Proof.
  unfold exec_ini, input. hush_open.
  destruct (stdin s) as [|line more]; [reflexivity|].
  cbn [bind rmap]. destruct (Py.isdecimal line); [|reflexivity].
  destruct (Py.int line); reflexivity.
Qed.

Lemma exec_pusha_hush (c : color) (s : vm) :
  exec_pusha c (hush s) = rmap hush (exec_pusha c s).
Proof. unfold exec_pusha. cbv zeta. hush_open. hush_cases; reflexivity. Qed.

Lemma exec_waita_hush (c : color) (s : vm) :
  exec_waita c (hush s) = rmap hush (exec_waita c s).
Proof. unfold exec_waita. hush_open. hush_cases; reflexivity. Qed.

Lemma exec_invalid_hush (op : Z) (c : color) (s : vm) :
  exec_invalid op c (hush s) = rmap hush (exec_invalid op c s).
Proof.
  unfold exec_invalid. cbn [rmap]. f_equal.
  change (set_state c HALTED (mesg (Invalid_instruction op c (colorip (hush s) c)) (hush s)))
    with (set_state c HALTED (hush s)).
  change (hush (set_state c HALTED (mesg (Invalid_instruction op c (colorip s c)) s)))
    with (set_state c HALTED (hush (mesg (Invalid_instruction op c (colorip s c)) s))).
  now rewrite hush_mesg.
Qed.

Lemma counted_hush (c : color) (name : string) (r : result vm) :
  counted c name (rmap hush r) = rmap hush (counted c name r).
Proof. destruct r; reflexivity. Qed.

Lemma colorexec_hush (c : color) (s : vm) :
  colorexec c (hush s) = rmap hush (colorexec c s).
Proof.
  unfold colorexec. cbv zeta. hush_open.
  destruct (Py.index (colorcode s c) (colorip s c)) as [op|];
    [|reflexivity].
  cbn [bind].
  rewrite ?binop_hush, ?unop_hush, ?exec_pop_hush, ?exec_swap_hush,
    ?exec_dup_hush, ?exec_rot_hush, ?exec_jmp_hush, ?exec_outc_hush,
    ?exec_inc_hush, ?exec_outi_hush, ?exec_ini_hush, ?exec_pusha_hush,
    ?exec_waita_hush, ?exec_invalid_hush, ?counted_hush.
  repeat match goal with
         | |- context [if ?b then _ else _] => destruct b
         end; reflexivity.
Qed.

Lemma advance_hush (c : color) (s : vm) :
  advance c (hush s) = hush (advance c s).
Proof.
  unfold advance. cbv zeta.
  change (colorip (set_ip c (colorip (hush s) c + 1) (hush s)) c)
    with (colorip (set_ip c (colorip s c + 1) s) c).
  change (size (set_ip c (colorip (hush s) c + 1) (hush s))) with (size s).
  change (size (set_ip c (colorip s c + 1) s)) with (size s).
  destruct (_ =? _); reflexivity.
Qed.

Lemma turn_hush (c : color) (s : vm) :
  turn c (hush s) = rmap hush (turn c s).
Proof.
  unfold turn. hush_open.
  destruct (colorstate s c); cbn [tstate_eqb].
  - destruct (Py.index _ _); reflexivity.
  - destruct (Py.index (colorcode s c) (colorip s c)) as [op|];
      [|reflexivity].
    cbn [bind].
    destruct (op =? 0xBC);
      [cbn [rmap]; f_equal;
       change (bump c "nop" (hush s)) with (hush (bump c "nop" s));
       apply advance_hush|].
    destruct (op =? 0xC0); [reflexivity|].
    rewrite colorexec_hush. destruct (colorexec c s); [|reflexivity].
    cbn [bind rmap]. f_equal. apply advance_hush.
  - destruct (Py.index (colorcode s c) (colorip s c)) as [op|];
      [|reflexivity].
    cbn [bind].
    destruct (Py.index (waitstack s) 0) as [head|]; [|reflexivity].
    cbn [bind]. destruct (color_eqb head c); [|reflexivity].
    cbv zeta.
    change (colorstack_a (bump c "waita" (hush s))) with (colorstack_a s).
    change (colorstack_a (bump c "waita" s)) with (colorstack_a s).
    destruct (1 <=? _); [|reflexivity].
    change (waitstack (bump c "waita" (hush s))) with (waitstack s).
    change (waitstack (bump c "waita" s)) with (waitstack s).
    destruct (Py.pop0 (waitstack s)) as [[h w]|]; [|reflexivity].
    cbn [bind].
    change (set_waitstack w (bump c "waita" (hush s)))
      with (hush (set_waitstack w (bump c "waita" s))).
    rewrite colorexec_hush.
    destruct (colorexec c _); [|reflexivity].
    cbn [bind rmap]. f_equal. apply advance_hush.
  - destruct (Py.index _ _); reflexivity.
  - reflexivity.
Qed.

Lemma for_colors_hush (cs : list color) (s : vm) :
  for_colors cs (hush s) = rmap hush (for_colors cs s).
Proof.
  revert s. induction cs as [|c t IH]; intro s; cbn [for_colors].
  - reflexivity.
  - rewrite turn_hush. destruct (turn c s); [|reflexivity].
    cbn [bind rmap]. apply IH.
Qed.

Lemma iteration_hush (s : vm) :
  iteration (hush s) = rmap hush_pair (iteration s).
Proof.
  unfold iteration. rewrite for_colors_hush.
  destruct (for_colors colors s) as [s1|]; [|reflexivity].
  cbn [bind rmap]. cbv zeta.
  change (count_state RUNNING (hush s1)) with (count_state RUNNING s1).
  change (count_state AWAIT (hush s1)) with (count_state AWAIT s1).
  destruct (_ =? 0); [destruct (negb _)|]; cbn [rmap]; unfold hush_pair;
    cbn [fst snd]; rewrite ?hush_mesg; reflexivity.
Qed.

Lemma iterations_hush (n : nat) (s : vm) :
  iterations n (hush s) = rmap hush_pair (iterations n s).
Proof.
  induction n as [|k IH]; cbn [iterations]; [reflexivity|].
  rewrite IH. destruct (iterations k s) as [[s1 t]|]; [|reflexivity].
  cbn [bind rmap hush_pair fst snd]. destruct t; [reflexivity|].
  apply iteration_hush.
Qed.

(** X28.  The [--silent] flag changes nothing but the messages: a
    silent run ends in the same way as the run with messages, after
    any number of iterations, with the same [terminate] flag, the
    same exception if there is one, and a state that differs only
    in the flag itself and in the messages missing from what was
    written. *)
Theorem silent_only_drops_messages (sz : Z) (code : color -> list Z)
    (lines : list string) (n : nat) :
  iterations n (start sz true code lines)
  = rmap hush_pair (iterations n (start sz false code lines)).
Proof.
  change (start sz true code lines) with (hush (start sz false code lines)).
  apply iterations_hush.
Qed.

(** * The [waita] protocol *)

(** X29.  A thread whose address holds [waita]:
    - RUNNING with [v] on top of the alpha stack: [v] moves to its
      stack and it goes on to the next address;
    - RUNNING with an empty alpha stack: it is left in AWAIT at the
      same address, queued last, its stack untouched;
    - AWAIT at the head of the queue with [v] on top of the alpha
      stack: it is dequeued, [v] moves to its stack and it goes on to
      the next address, no longer in AWAIT;
    - AWAIT behind another colour: nothing changes, whatever the
      alpha stack holds. *)
Theorem waita_turn (c : color) (s : vm) :
  Py.index (colorcode s c) (colorip s c) = Ok 0xE0 ->
  (forall a v, colorstate s c = RUNNING -> colorstack_a s = a ++ [v] ->
     exists s', turn c s = Ok s' /\
       colorstack s' c = colorstack s c ++ [v] /\ colorstack_a s' = a /\
       colorip s' c = colorip s c + 1 /\ waitstack s' = waitstack s) /\
  (colorstate s c = RUNNING -> colorstack_a s = [] ->
   colorip s c <> size s ->
     exists s', turn c s = Ok s' /\
       colorstate s' c = AWAIT /\ colorip s' c = colorip s c /\
       waitstack s' = waitstack s ++ [c] /\
       colorstack s' c = colorstack s c /\ colorstack_a s' = []) /\
  (forall a v w, colorstate s c = AWAIT -> waitstack s = c :: w ->
     colorstack_a s = a ++ [v] ->
     exists s', turn c s = Ok s' /\
       colorstack s' c = colorstack s c ++ [v] /\ colorstack_a s' = a /\
       waitstack s' = w /\ colorip s' c = colorip s c + 1 /\
       colorstate s' c <> AWAIT) /\
  (forall h w, colorstate s c = AWAIT -> waitstack s = h :: w -> h <> c ->
     turn c s = Ok s).
Proof.
  intro Hop.
  assert (Hpop : forall a v, colorstack_a s = a ++ [v] ->
            (1 <=? Py.len (colorstack_a s)) = true).
  { intros a v ->. apply Z.leb_le. rewrite len_app.
    pose proof (len_nonneg a). change (Py.len [v]) with 1. lia. }
  split; [|split; [|split]].
  - intros a v Hrun Ha.
    rewrite (turn_running c s _ Hrun Hop) by discriminate.
    rewrite (colorexec_waita c s Hop). unfold exec_waita.
    rewrite (Hpop a v Ha), Ha, pop_append. cbn [bind counted].
    eexists. split; [reflexivity|].
    rewrite advance_stack, advance_alpha, advance_ip, advance_waitstack.
    cbn. rewrite !upd_same. auto.
  - intros Hrun Ha Hlast.
    rewrite (turn_running c s _ Hrun Hop) by discriminate.
    rewrite (colorexec_waita c s Hop). unfold exec_waita. rewrite Ha.
    cbn [Py.len List.length Z.of_nat Z.leb Z.compare bind counted].
    eexists. split; [reflexivity|].
    rewrite advance_stack, advance_alpha, advance_ip, advance_waitstack,
      advance_state.
    cbn. rewrite !upd_same.
    replace (colorip s c - 1 + 1) with (colorip s c) by lia.
    apply Z.eqb_neq in Hlast. rewrite Hlast. auto.
  - intros a v w Hwait Hw Ha. unfold turn.
    rewrite Hwait, Hop, Hw. cbn [tstate_eqb bind].
    rewrite index_head. cbn [bind]. rewrite color_eqb_refl.
    change (colorstack_a (bump c "waita" s)) with (colorstack_a s).
    change (waitstack (bump c "waita" s)) with (waitstack s).
    rewrite (Hpop a v Ha), Hw. cbn [Py.pop0 bind].
    rewrite (colorexec_waita c (set_waitstack w (bump c "waita" s)) Hop).
    unfold exec_waita.
    change (colorstack_a (set_waitstack w (bump c "waita" s)))
      with (colorstack_a s).
    rewrite (Hpop a v Ha), Ha, pop_append. cbn [bind counted].
    eexists. split; [reflexivity|].
    rewrite advance_stack, advance_alpha, advance_ip, advance_waitstack,
      advance_state.
    cbn. rewrite !upd_same.
    repeat split; auto. destruct (_ + 1 =? _); discriminate.
  - intros h w Hwait Hw Hne. unfold turn.
    rewrite Hwait, Hop, Hw. cbn [tstate_eqb bind].
    rewrite index_head. cbn [bind].
    replace (color_eqb h c) with false; [reflexivity|].
    symmetry. destruct (color_eqb h c) eqn:E; [|reflexivity].
    apply color_eqb_eq in E. contradiction.
Qed.

Lemma waita_turn_witness :
  exists s',
    turn G (start 3 false rendezvous_program []) = Ok s' /\
    colorstate s' G = AWAIT /\ colorip s' G = 0 /\
    waitstack s' = [] ++ [G] /\
    colorstack s' G = [] /\ colorstack_a s' = [].
Proof.
  refine (proj1 (proj2 (waita_turn G (start 3 false rendezvous_program [])
                          eq_refl)) eq_refl eq_refl _).
  cbn. lia.
Defined.
